(** * zero-mcp: the request-dispatch pipeline of the HTTP transport

    A shallow embedding of [src/http/http-transport.ts], [src/http/utilities.ts],
    [src/http/types.ts] and [src/server.ts], and the properties of the
    dispatcher, the tool registry and the schema adapter.

    Conventions of the embedding.
    - A JavaScript value that travels as JSON is a [JSON] tree.  Numbers are
      never computed on by this code, so integers stand for them.
    - Code that can throw, calls a hook, reads the clock or writes the HTTP
      response runs in the monad [M]: explicit state passing with a
      [Completion] (normal return or a thrown value).
    - What the runtime supplies from outside (the outcome of [JSON.parse] on
      the request body, the user's schema validators and tool handlers, the
      hooks, the readings of [performance.now]) is data of the model; the
      wording of zod's error messages is a parameter, [Zod.Rendering].
    - An optional key of an options or hooks object is a [Property]: absent,
      or present with a value that may be [undefined]. *)

From Stdlib Require Import String Ascii List ZArith Bool Lia.
Import ListNotations.
Local Open Scope string_scope.
Local Open Scope Z_scope.

Set Implicit Arguments.
Set Warnings "-register-all".

(* ================================================================== *)
(** ** JSON values and the JavaScript operations used on them *)

Inductive JSON : Type :=
| JNull
| JBool (b : bool)
| JNum (n : Z)
| JString (s : string)
| JArray (items : list JSON)
| JObject (fields : list (string * JSON)).

(** The built-in objects from which the values of JSON inherit. *)
Inductive Prototype : Type :=
| ObjectPrototype
| ArrayPrototype
| StringPrototype
| NumberPrototype
| BooleanPrototype.

(** What a property access on JSON data can yield, up to the values that
    are objects: JSON data, or a built-in prototype. *)
Inductive Value : Type :=
| Data (j : JSON)
| Builtin (p : Prototype).

Module Js.

(** Own-property lookup on the field list of an object. *)
Fixpoint lookup (k : string) (fields : list (string * JSON)) : option JSON :=
  match fields with
  | [] => None
  | (k', v) :: rest => if String.eqb k k' then Some v else lookup k rest
  end.

(** [typeof v === 'object'] holds of objects, arrays and [null]. *)
Definition typeof_object (v : JSON) : bool :=
  match v with
  | JNull | JArray _ | JObject _ => true
  | _ => false
  end.

(** Truthiness of a JSON value. *)
Definition truthy (v : JSON) : bool :=
  match v with
  | JNull => false
  | JBool b => b
  | JNum n => negb (n =? 0)
  | JString s => negb (String.eqb s "")
  | JArray _ | JObject _ => true
  end.

(** [s.replace(pat, '')] with a string pattern: the first occurrence of
    [pat] is removed, the rest of [s] is kept. *)
Fixpoint drop_prefix (pat s : string) : option string :=
  match pat with
  | EmptyString => Some s
  | String p pat' =>
      match s with
      | EmptyString => None
      | String c s' => if Ascii.eqb p c then drop_prefix pat' s' else None
      end
  end.

Fixpoint replace_first (pat s : string) : string :=
  match drop_prefix pat s with
  | Some rest => rest
  | None =>
      match s with
      | EmptyString => EmptyString
      | String c s' => String c (replace_first pat s')
      end
  end.

(** [s.split(sep)[0]] for a one-character separator. *)
Fixpoint before_char (sep : ascii) (s : string) : string :=
  match s with
  | EmptyString => EmptyString
  | String c s' => if Ascii.eqb c sep then EmptyString else String c (before_char sep s')
  end.

(** Decimal rendering of an array index, as in the property key of an
    array element. *)
Definition digit (n : nat) : ascii := ascii_of_nat (48 + n).

Fixpoint index_key_fuel (fuel n : nat) (acc : string) : string :=
  match fuel with
  | O => acc
  | S fuel' =>
      let acc' := String (digit (n mod 10)) acc in
      match (n / 10)%nat with
      | O => acc'
      | q => index_key_fuel fuel' q acc'
      end
  end.

Definition index_key (n : nat) : string := index_key_fuel (S n) n "".

Fixpoint lookup_index (k : string) (i : nat) (items : list JSON) : option JSON :=
  match items with
  | [] => None
  | v :: rest => if String.eqb k (index_key i) then Some v else lookup_index k (S i) rest
  end.

(** The own member of [v] under the key [k], when it is JSON data: a field
    of an object or an element of an array. *)
Definition get_member (v : JSON) (k : string) : option JSON :=
  match v with
  | JObject fields => lookup k fields
  | JArray items => lookup_index k 0 items
  | _ => None
  end.

(** The prototype of a value; [null] has none. *)
Definition prototype_of (v : JSON) : option Prototype :=
  match v with
  | JNull => None
  | JBool _ => Some BooleanPrototype
  | JNum _ => Some NumberPrototype
  | JString _ => Some StringPrototype
  | JArray _ => Some ArrayPrototype
  | JObject _ => Some ObjectPrototype
  end.

(** [v?.[k]], which looks [k] up in [v] and then along its prototype
    chain, as far as the result can be an object: an own member that is
    JSON data, or, under the key [__proto__] when [v] has no own member of
    that name, the prototype of [v].  Every other access ([v] is [null], the
    key is missing, or it names a character or the length of a string or an
    array, or an inherited method) yields [undefined], a primitive or a
    function, for which the result is [None]. *)
Definition optional_member (v : JSON) (k : string) : option Value :=
  match get_member v k with
  | Some j => Some (Data j)
  | None =>
      if String.eqb k "__proto__" then option_map Builtin (prototype_of v) else None
  end.

(** [v && typeof v === 'object'] *)
Definition is_object (v : Value) : bool :=
  match v with
  | Data j => truthy j && typeof_object j
  | Builtin _ => true
  end.

(** The JSON that [JSON.stringify] writes for a value: the prototypes have
    no own enumerable member, and those of strings, numbers and booleans
    wrap the empty string, zero and [false]. *)
Definition stringified (v : Value) : JSON :=
  match v with
  | Data j => j
  | Builtin ObjectPrototype => JObject []
  | Builtin ArrayPrototype => JArray []
  | Builtin StringPrototype => JString ""
  | Builtin NumberPrototype => JNum 0
  | Builtin BooleanPrototype => JBool false
  end.

End Js.

(* ================================================================== *)
(** ** Thrown values and completions *)

(** What the dispatcher tells apart with [instanceof]. *)
Inductive ErrorClass : Type :=
| SyntaxError
| ZodErrorClass
| TypeError
| PlainError.

(** A thrown JavaScript value: an [Error] of some class with its message, or
    any other value. *)
Inductive Thrown : Type :=
| ThrownError (cls : ErrorClass) (message : string)
| ThrownValue (v : JSON).

(** The [Error | string] argument of [onToolCallError] and [onServerError]. *)
Inductive ErrorOrString : Type :=
| AsError (cls : ErrorClass) (message : string)
| AsString (s : string).

Inductive Completion (A : Type) : Type :=
| Normal (a : A)
| Throw (t : Thrown).
Arguments Normal {A} a.
Arguments Throw {A} t.

(** State passing with exceptions. *)
Definition M (S A : Type) : Type := S -> Completion A * S.

Definition ret {S A} (a : A) : M S A := fun s => (Normal a, s).

Definition bind {S A B} (m : M S A) (k : A -> M S B) : M S B :=
  fun s =>
    match m s with
    | (Normal a, s') => k a s'
    | (Throw t, s') => (Throw t, s')
    end.

Definition throw {S A} (t : Thrown) : M S A := fun s => (Throw t, s).

(** [try { body } catch (error) { handler(error) }] *)
Definition try_catch {S A} (body : M S A) (handler : Thrown -> M S A) : M S A :=
  fun s =>
    match body s with
    | (Normal a, s') => (Normal a, s')
    | (Throw t, s') => handler t s'
    end.

Definition gets {S A} (f : S -> A) : M S A := fun s => (Normal (f s), s).
Definition modify {S} (f : S -> S) : M S unit := fun s => (Normal tt, f s).

(** A completion computed outside the monad (a callback of the user). *)
Definition lift {S A} (c : Completion A) : M S A := fun s => (c, s).

Declare Scope js_scope.
Delimit Scope js_scope with js.
Notation "x <- m ;; k" := (bind m (fun x => k))
  (at level 61, m at next level, right associativity) : js_scope.
Notation "m ;;; k" := (bind m (fun _ => k))
  (at level 61, right associativity) : js_scope.
Local Open Scope js_scope.

(* ================================================================== *)
(** ** [src/types.ts]: tools and hooks *)

Inductive MediaType : Type := image | audio.

Inductive ToolResponseContent : Type :=
| TextToolResponse (text : string)
| MediaToolResponse (type : MediaType) (data : string) (mimeType : string).

(** What the code reads off a [ZodError]: [error.message], and the text
    [JSON.stringify(error.flatten(), null, 2)]. *)
Record ZodError : Type := {
  zod_message : string;
  zod_flatten_text : string
}.

Inductive SafeParseReturn (A : Type) : Type :=
| SafeParseSuccess (data : A)
| SafeParseError (error : ZodError).
Arguments SafeParseSuccess {A} data.
Arguments SafeParseError {A} error.

(** A schema supplied by the user.  [safeParse] is its validator, whose data
    is a JSON value or [undefined] ([None]); [zodToJsonSchema] is the
    document that the converter of [zod-to-json-schema] produces for it under
    a given name. *)
Record ZodSchema : Type := {
  safeParse : JSON -> SafeParseReturn (option JSON);
  zodToJsonSchema : string -> JSON
}.

(** [ToolDefinition].  The handler is given by the completion of the awaited
    call: the content it resolves to, or what it throws or rejects with. *)
Record ToolDefinition : Type := {
  tool_name : string;
  description : option string;
  schema : ZodSchema;
  handler : JSON -> Completion (list ToolResponseContent)
}.

(** An optional property [k?: A] of an object: the key is absent, or it is
    present with a value, which may be [undefined].  Reading [o.k] does not
    tell an absent key from an undefined one; spreading [{ ...o }] does: it
    copies every key that is present. *)
Inductive Property (A : Type) : Type :=
| Absent
| Present (value : option A).
Arguments Absent {A}.
Arguments Present {A} value.

(** [o.k] *)
Definition read {A} (p : Property A) : option A :=
  match p with
  | Absent => None
  | Present value => value
  end.

(** The key [k] of [{ ...base, ...over }]. *)
Definition spread_key {A} (base over : Property A) : Property A :=
  match over with
  | Present _ => over
  | Absent => base
  end.

(** [ServerHooks]: every callback is optional and, like any function, returns
    or throws. *)
Record ServerHooks : Type := {
  onClientConnected : Property (string -> string -> string -> Completion unit);
  onToolRegistered : Property (string -> string -> Completion unit);
  onToolCallStarted : Property (string -> JSON -> Completion unit);
  onToolCallFinished :
    Property (string -> JSON -> list ToolResponseContent -> Z -> Completion unit);
  onToolCallError : Property (string -> JSON -> ErrorOrString -> Z -> Completion unit);
  onToolsListRequested : Property (unit -> Completion unit);
  onServerError : Property (ErrorOrString -> Completion unit)
}.

(** [{}] *)
Definition no_hooks : ServerHooks :=
  {| onClientConnected := Absent; onToolRegistered := Absent; onToolCallStarted := Absent;
     onToolCallFinished := Absent; onToolCallError := Absent;
     onToolsListRequested := Absent; onServerError := Absent |}.

(** The calls that leave the dispatcher, in the order they happen. *)
Inductive Event : Type :=
| ClientConnected (clientName clientVersion protocolVersion : string)
| ToolRegistered (toolName description : string)
| ToolCallStarted (toolName : string) (input : JSON)
| ToolCallFinished (toolName : string) (input : JSON)
    (result : list ToolResponseContent) (elapsedMs : Z)
| ToolCallError (toolName : string) (input : JSON) (error : ErrorOrString) (elapsedMs : Z)
| ToolsListRequested
| HandlerCalled (toolName : string) (input : JSON)
| RouteHandlerCalled (method path : string).

(* ================================================================== *)
(** ** [src/http/types.ts]: error codes and the shapes of the envelope *)

Module ErrorCode.
Definition ParseError : Z := -32700.
Definition InvalidRequest : Z := -32600.
Definition MethodNotFound : Z := -32601.
Definition InvalidParams : Z := -32602.
Definition InternalError : Z := -32603.
Definition NotInitialized : Z := -32002.
End ErrorCode.

(** [JsonRpcId = string | number | null] *)
Inductive JsonRpcId : Type :=
| IdString (s : string)
| IdNumber (n : Z)
| IdNull.

Definition id_to_json (i : JsonRpcId) : JSON :=
  match i with
  | IdString s => JString s
  | IdNumber n => JNum n
  | IdNull => JNull
  end.

(** [z.infer<typeof JsonRpcRequestSchema>]; [jsonrpc] is the literal ['2.0']. *)
Record JsonRpcRequest : Type := {
  id : option JsonRpcId;
  method : string;
  params : option JSON
}.

(** [request.id ?? null] *)
Definition id_or_null (i : option JsonRpcId) : JsonRpcId :=
  match i with Some v => v | None => IdNull end.

Record ClientInfo : Type := { ci_name : string; ci_version : string }.

Record InitializeParams : Type := {
  protocolVersion : string;
  clientInfo : ClientInfo;
  capabilities : option JSON
}.

Record CallToolParams : Type := {
  name : string;
  arguments : option JSON
}.

(** The validators that the three schemas of [types.ts] denote.  An issue is
    the path of the offending key and what is wrong there; only the messages
    that the schemas themselves give ([.min(1, message)]) are text of this
    repository. *)
Module Zod.

Inductive Problem : Type :=
| Required
| InvalidType (expected : string)
| InvalidLiteral
| InvalidUnion
| TooSmall (message : string).

Record Issue : Type := { path : list string; problem : Problem }.

Definition issue (p : list string) (m : Problem) : Issue :=
  {| path := p; problem := m |}.

(** The texts that the zod library makes of the issues of an error:
    [error.message] and [JSON.stringify(error.flatten(), null, 2)].  They
    are the library's, not this repository's, so they are a parameter of
    the model: every statement holds whatever these texts are. *)
Class Rendering : Type := {
  message_of : list Issue -> string;
  flatten_text_of : list Issue -> string
}.

Section Schemas.
Context {zod : Rendering}.

Definition error (issues : list Issue) : ZodError :=
  {| zod_message := message_of issues; zod_flatten_text := flatten_text_of issues |}.

(** The result of validating one key: its value, or the issues found. *)
Definition Checked (A : Type) : Type := (A + list Issue)%type.

Definition issues_of {A} (c : Checked A) : list Issue :=
  match c with inl _ => [] | inr l => l end.

(** [z.string()] under key [k] *)
Definition string_at (p : list string) (v : option JSON) : Checked string :=
  match v with
  | Some (JString s) => inl s
  | None => inr [issue p Required]
  | Some _ => inr [issue p (InvalidType "string")]
  end.

(** [z.string().min(1, msg)] *)
Definition nonempty_string_at (p : list string) (msg : string) (v : option JSON)
  : Checked string :=
  match string_at p v with
  | inl s => if String.eqb s "" then inr [issue p (TooSmall msg)] else inl s
  | inr l => inr l
  end.

(** [z.record(z.unknown()).optional()] *)
Definition optional_record_at (p : list string) (v : option JSON)
  : Checked (option JSON) :=
  match v with
  | None => inl None
  | Some (JObject f) => inl (Some (JObject f))
  | Some _ => inr [issue p (InvalidType "object")]
  end.

(** [JsonRpcRequestSchema] *)
Definition literal_2_0_at (p : list string) (v : option JSON) : Checked unit :=
  match v with
  | Some (JString s) =>
      if String.eqb s "2.0" then inl tt else inr [issue p InvalidLiteral]
  | _ => inr [issue p InvalidLiteral]
  end.

Definition optional_id_at (p : list string) (v : option JSON)
  : Checked (option JsonRpcId) :=
  match v with
  | None => inl None
  | Some (JString s) => inl (Some (IdString s))
  | Some (JNum n) => inl (Some (IdNumber n))
  | Some _ => inr [issue p InvalidUnion]
  end.

Definition optional_params_at (p : list string) (v : option JSON)
  : Checked (option JSON) :=
  match v with
  | None => inl None
  | Some (JObject f) => inl (Some (JObject f))
  | Some (JArray l) => inl (Some (JArray l))
  | Some _ => inr [issue p InvalidUnion]
  end.

Definition JsonRpcRequestSchema (input : JSON) : SafeParseReturn JsonRpcRequest :=
  match input with
  | JObject f =>
      let c_jsonrpc := literal_2_0_at ["jsonrpc"] (Js.lookup "jsonrpc" f) in
      let c_id := optional_id_at ["id"] (Js.lookup "id" f) in
      let c_method := string_at ["method"] (Js.lookup "method" f) in
      let c_params := optional_params_at ["params"] (Js.lookup "params" f) in
      match c_jsonrpc, c_id, c_method, c_params with
      | inl _, inl i, inl m, inl p =>
          SafeParseSuccess {| id := i; method := m; params := p |}
      | _, _, _, _ =>
          SafeParseError
            (error (issues_of c_jsonrpc ++ issues_of c_id ++
                    issues_of c_method ++ issues_of c_params)%list)
      end
  | _ => SafeParseError (error [issue [] (InvalidType "object")])
  end.

(** [InitializeParamsSchema] *)
Definition clientInfo_at (v : option JSON) : Checked ClientInfo :=
  match v with
  | Some (JObject f) =>
      let c_name :=
        nonempty_string_at ["clientInfo"; "name"] "clientInfo.name is required"
          (Js.lookup "name" f) in
      let c_version :=
        nonempty_string_at ["clientInfo"; "version"] "clientInfo.version is required"
          (Js.lookup "version" f) in
      match c_name, c_version with
      | inl n, inl v => inl {| ci_name := n; ci_version := v |}
      | _, _ => inr (issues_of c_name ++ issues_of c_version)%list
      end
  | None => inr [issue ["clientInfo"] Required]
  | Some _ => inr [issue ["clientInfo"] (InvalidType "object")]
  end.

Definition InitializeParamsSchema (input : option JSON)
  : SafeParseReturn InitializeParams :=
  match input with
  | Some (JObject f) =>
      let c_pv :=
        nonempty_string_at ["protocolVersion"] "protocolVersion is required"
          (Js.lookup "protocolVersion" f) in
      let c_ci := clientInfo_at (Js.lookup "clientInfo" f) in
      let c_cap := optional_record_at ["capabilities"] (Js.lookup "capabilities" f) in
      match c_pv, c_ci, c_cap with
      | inl pv, inl ci, inl cap =>
          SafeParseSuccess
            {| protocolVersion := pv; clientInfo := ci; capabilities := cap |}
      | _, _, _ =>
          SafeParseError
            (error (issues_of c_pv ++ issues_of c_ci ++ issues_of c_cap)%list)
      end
  | None => SafeParseError (error [issue [] Required])
  | Some _ => SafeParseError (error [issue [] (InvalidType "object")])
  end.

(** [CallToolParamsSchema] *)
Definition CallToolParamsSchema (input : option JSON) : SafeParseReturn CallToolParams :=
  match input with
  | Some (JObject f) =>
      let c_name :=
        nonempty_string_at ["name"] "Tool name is required" (Js.lookup "name" f) in
      let c_args := optional_record_at ["arguments"] (Js.lookup "arguments" f) in
      match c_name, c_args with
      | inl n, inl a => SafeParseSuccess {| name := n; arguments := a |}
      | _, _ => SafeParseError (error (issues_of c_name ++ issues_of c_args)%list)
      end
  | None => SafeParseError (error [issue [] Required])
  | Some _ => SafeParseError (error [issue [] (InvalidType "object")])
  end.

End Schemas.

End Zod.

(* ================================================================== *)
(** ** JavaScript [Map]: insertion-ordered, one entry per key *)

Section JsMap.
Variables (K V : Type) (eqb : K -> K -> bool).

Definition JsMap : Type := list (K * V).

Fixpoint map_get (k : K) (m : JsMap) : option V :=
  match m with
  | [] => None
  | (k', v) :: rest => if eqb k k' then Some v else map_get k rest
  end.

Definition map_has (k : K) (m : JsMap) : bool :=
  match map_get k m with Some _ => true | None => false end.

(** [m.set(k, v)]: an existing key keeps its place, a new one goes last. *)
Fixpoint map_set (k : K) (v : V) (m : JsMap) : JsMap :=
  match m with
  | [] => [(k, v)]
  | (k', v') :: rest =>
      if eqb k k' then (k', v) :: rest else (k', v') :: map_set k v rest
  end.

Definition map_values (m : JsMap) : list V := map snd m.
Definition map_keys (m : JsMap) : list K := map fst m.

End JsMap.

Arguments map_get {K V} eqb k m.
Arguments map_has {K V} eqb k m.
Arguments map_set {K V} eqb k v m.
Arguments map_values {K V} m.
Arguments map_keys {K V} m.

(* ================================================================== *)
(** ** The HTTP request and response, and the world a request runs in *)

Inductive HeaderValue : Type :=
| HeaderOne (s : string)
| HeaderMany (l : list string).

(** The body of the request as [readRequestBody] meets it: the stream fails,
    [JSON.parse] throws a [SyntaxError], or [JSON.parse] returns a value. *)
Inductive RequestBody : Type :=
| BodyUnreadable (e : Thrown)
| BodyMalformed (message : string)
| BodyParsed (j : JSON).

Record IncomingMessage : Type := {
  req_method : string;
  url : option string;
  origin : option string;
  access_control_request_headers : option HeaderValue;
  req_body : RequestBody
}.

(** The text written by [res.end]: plain text, or [JSON.stringify] of an
    object. *)
Inductive ResponseBody : Type :=
| TextBody (s : string)
| JsonBody (j : JSON).

Record ServerResponse : Type := {
  headers : list (string * string);
  statusCode : option Z;
  body : option ResponseBody;
  finished : bool
}.

Definition new_response : ServerResponse :=
  {| headers := []; statusCode := None; body := None; finished := false |}.

(** [now] is the last reading of the monotonic clock; [ticks] are the
    amounts by which the next readings exceed it. *)
Record World : Type := {
  now : Z;
  ticks : list N;
  trace : list Event;
  res : ServerResponse
}.

Definition new_world (t0 : Z) (ts : list N) : World :=
  {| now := t0; ticks := ts; trace := []; res := new_response |}.

Definition with_res (f : ServerResponse -> ServerResponse) (w : World) : World :=
  {| now := now w; ticks := ticks w; trace := trace w; res := f (res w) |}.

Definition emit (e : Event) : M World unit :=
  modify (fun w =>
    {| now := now w; ticks := ticks w; trace := (trace w ++ [e])%list; res := res w |}).

(** [performance.now()]: the clock moves on by the next tick (by nothing
    when none is left) and is read. *)
Definition next_reading (w : World) : Z :=
  match ticks w with
  | [] => now w
  | d :: _ => now w + Z.of_N d
  end.

Definition advance (w : World) : World :=
  {| now := next_reading w; ticks := tl (ticks w); trace := trace w; res := res w |}.

Definition performance_now : M World Z :=
  fun w => (Normal (next_reading w), advance w).

(** Calling an optional callback [hooks?.onX?.(...)]: a missing one is
    skipped; a present one is recorded and then returns or throws. *)
Definition call_optional {S} (record : Event -> M S unit)
  (h : option (Completion unit)) (e : Event) : M S unit :=
  match h with
  | None => ret tt
  | Some c => record e ;;; lift c
  end.

Definition call_hook : option (Completion unit) -> Event -> M World unit :=
  call_optional emit.

(** A mutable local variable of type [L] around a computation. *)
Definition with_local {S L A} (init : L) (m : M (L * S) A) : M S A :=
  fun s =>
    match m (init, s) with
    | (c, (_, s')) => (c, s')
    end.

Definition outside {S L A} (m : M S A) : M (L * S) A :=
  fun ls =>
    match m (snd ls) with
    | (c, s') => (c, (fst ls, s'))
    end.

Definition get_local {S L} : M (L * S) L := gets fst.
Definition set_local {S L} (l : L) : M (L * S) unit := modify (fun ls => (l, snd ls)).

Definition set_header_in (k v : string) (hs : list (string * string))
  : list (string * string) := map_set String.eqb k v hs.

Definition headers_sent_error : Thrown :=
  ThrownError PlainError "Cannot set headers after they are sent to the client".

(** [res.setHeader(k, v)] *)
Definition setHeader (k v : string) : M World unit :=
  sent <- gets (fun w => finished (res w)) ;;
  if (sent : bool) then throw headers_sent_error
  else modify (with_res (fun r =>
    {| headers := set_header_in k v (headers r); statusCode := statusCode r;
       body := body r; finished := finished r |})).

(** [res.writeHead(status, hs)] *)
Definition writeHead (status : Z) (hs : list (string * string)) : M World unit :=
  sent <- gets (fun w => finished (res w)) ;;
  if (sent : bool) then throw headers_sent_error
  else modify (with_res (fun r =>
    {| headers := fold_left (fun acc kv => set_header_in (fst kv) (snd kv) acc) hs (headers r);
       statusCode := Some status; body := body r; finished := finished r |})).

(** [res.end(b)] *)
Definition end_response (b : option ResponseBody) : M World unit :=
  modify (with_res (fun r =>
    if finished r then r
    else {| headers := headers r; statusCode := statusCode r; body := b;
            finished := true |})).

(* ================================================================== *)
(** ** [src/http/utilities.ts] *)

Definition HTTP_OK : Z := 200.

Definition readRequestBody {zod : Zod.Rendering} (req : IncomingMessage)
  : M World JsonRpcRequest :=
  match req_body req with
  | BodyUnreadable e => throw e
  | BodyMalformed msg => throw (ThrownError SyntaxError msg)
  | BodyParsed parsedBody =>
      match Zod.JsonRpcRequestSchema parsedBody with
      | SafeParseSuccess r => ret r
      | SafeParseError e => throw (ThrownError ZodErrorClass (zod_message e))
      end
  end.

Definition sendError (status : Z) (message : string) : M World unit :=
  writeHead status [("Content-Type", "text/plain")] ;;;
  end_response (Some (TextBody message)).

Definition errorResponse (requestId : JsonRpcId) (code : Z) (message : string) : JSON :=
  JObject [("jsonrpc", JString "2.0");
           ("id", id_to_json requestId);
           ("error", JObject [("code", JNum code); ("message", JString message)])].

Definition sendJsonRpcProtocolError (requestId : JsonRpcId) (code : Z) (message : string)
  : M World unit :=
  writeHead HTTP_OK [("Content-Type", "application/json")] ;;;
  end_response (Some (JsonBody (errorResponse requestId code message))).

Definition jsonResponse (requestId : JsonRpcId) (response : JSON) : JSON :=
  JObject [("jsonrpc", JString "2.0");
           ("id", id_to_json requestId);
           ("result", response)].

Definition sendJsonRpcResponse (requestId : JsonRpcId) (response : JSON) : M World unit :=
  writeHead HTTP_OK [("Content-Type", "application/json")] ;;;
  end_response (Some (JsonBody (jsonResponse requestId response))).

(** [normalizeSchema].  The operator [in] throws a [TypeError] on a value
    that is not an object (a primitive or [null]); an array has neither key.
    Calling [.replace] on a [$ref] that is not a string is a [TypeError]
    too. *)
Definition normalizeSchema (schema : JSON) : Completion Value :=
  match schema with
  | JObject fields =>
      match Js.lookup "$ref" fields, Js.lookup "definitions" fields with
      | Some ref, Some definitions =>
          match ref with
          | JString ref_text =>
              let refKey := Js.replace_first "#/definitions/" ref_text in
              match Js.optional_member definitions refKey with
              | Some resolved =>
                  if Js.is_object resolved then Normal resolved
                  else Normal (Data schema)
              | None => Normal (Data schema)
              end
          | _ => Throw (ThrownError TypeError "$ref.replace is not a function")
          end
      | _, _ => Normal (Data schema)
      end
  | JArray _ => Normal (Data schema)
  | _ =>
      Throw (ThrownError TypeError "Cannot use 'in' operator to search for '$ref'")
  end.

Definition zodSchemaToToolSchema (toolName : string) (sch : ZodSchema)
  : Completion Value :=
  let jsonSchema := zodToJsonSchema sch toolName in
  normalizeSchema jsonSchema.

(* ================================================================== *)
(** ** Options of the transport and the server object *)

Inductive HttpMethod : Type := GET | POST | PUT | DELETE | PATCH | HEAD.

Definition HttpMethod_eqb (a b : HttpMethod) : bool :=
  match a, b with
  | GET, GET | POST, POST | PUT, PUT | DELETE, DELETE | PATCH, PATCH | HEAD, HEAD => true
  | _, _ => false
  end.

Definition HttpMethod_text (m : HttpMethod) : string :=
  match m with
  | GET => "GET" | POST => "POST" | PUT => "PUT"
  | DELETE => "DELETE" | PATCH => "PATCH" | HEAD => "HEAD"
  end.

Definition RouteHandler : Type := IncomingMessage -> M World unit.

Definition MethodMap : Type := JsMap HttpMethod RouteHandler.
Definition RouteTable : Type := JsMap string MethodMap.

(** [string[] | '*'] *)
Inductive AllowedOrigins : Type :=
| Wildcard
| Origins (l : list string).

Module Options.
(** [HttpTransportOptions]; every field is optional. *)
Record t : Type := {
  port : Property Z;
  host : Property string;
  path : Property string;
  hooks : Property ServerHooks;
  allowedOrigins : Property AllowedOrigins;
  customRoutes : Property RouteTable
}.

(** [{}] *)
Definition empty : t :=
  {| port := Absent; host := Absent; path := Absent; hooks := Absent;
     allowedOrigins := Absent; customRoutes := Absent |}.

Definition DEFAULT_HTTP_TRANSPORT_OPTIONS : t :=
  {| port := Present (Some 3000); host := Present (Some "localhost");
     path := Present (Some "/mcp"); hooks := Absent;
     allowedOrigins := Present (Some Wildcard); customRoutes := Absent |}.

(** [{ ...base, ...over }] *)
Definition spread (base over : t) : t :=
  {| port := spread_key (port base) (port over);
     host := spread_key (host base) (host over);
     path := spread_key (path base) (path over);
     hooks := spread_key (hooks base) (hooks over);
     allowedOrigins := spread_key (allowedOrigins base) (allowedOrigins over);
     customRoutes := spread_key (customRoutes base) (customRoutes over) |}.
End Options.

(** [{ ...a, ...b }] on two hook records, each of which may be [undefined]
    (spreading [undefined] copies nothing). *)
Definition spread_hooks (a b : option ServerHooks) : ServerHooks :=
  let base := match a with Some h => h | None => no_hooks end in
  let over := match b with Some h => h | None => no_hooks end in
  {| onClientConnected := spread_key (onClientConnected base) (onClientConnected over);
     onToolRegistered := spread_key (onToolRegistered base) (onToolRegistered over);
     onToolCallStarted := spread_key (onToolCallStarted base) (onToolCallStarted over);
     onToolCallFinished := spread_key (onToolCallFinished base) (onToolCallFinished over);
     onToolCallError := spread_key (onToolCallError base) (onToolCallError over);
     onToolsListRequested :=
       spread_key (onToolsListRequested base) (onToolsListRequested over);
     onServerError := spread_key (onServerError base) (onServerError over) |}.

(** The fields of an [HttpTransport]; its [mcpServer] is passed along with
    it, and its [server] is the listening socket, outside the model. *)
Record HttpTransport : Type := {
  options : Options.t;
  allowedOrigins : AllowedOrigins
}.

Definition normalizeAllowedOrigins (o : Options.t) : AllowedOrigins :=
  match read (Options.allowedOrigins o) with
  | None => Wildcard
  | Some Wildcard => Wildcard
  | Some (Origins l) => Origins l
  end.

(** [new HttpTransport(mcpServer, config)] *)
Definition new_HttpTransport (config : option Options.t) : HttpTransport :=
  let opts :=
    Options.spread Options.DEFAULT_HTTP_TRANSPORT_OPTIONS
      (match config with Some c => c | None => Options.empty end) in
  {| options := opts; allowedOrigins := normalizeAllowedOrigins opts |}.

Module McpServer.
Record t : Type := {
  name : string;
  version : string;
  _tools : JsMap string ToolDefinition;
  _endpoints : RouteTable;
  hooks : option ServerHooks;
  transport : option HttpTransport
}.

(** [new McpServer({ name, version, hooks })] *)
Definition new (name version : option string) (hooks : option ServerHooks) : t :=
  {| name := match name with Some n => n | None => "MyMcpServer" end;
     version := match version with Some v => v | None => "1.0.0" end;
     _tools := []; _endpoints := []; hooks := hooks; transport := None |}.

Definition getTools (this : t) : list ToolDefinition := map_values (_tools this).
Definition getTool (this : t) (n : string) : option ToolDefinition :=
  map_get String.eqb n (_tools this).
Definition hasTool (this : t) (n : string) : bool :=
  map_has String.eqb n (_tools this).
End McpServer.

(* ================================================================== *)
(** ** [src/server.ts]: registration and start *)

(** The server object together with the record of the hooks it has called. *)
Record App : Type := {
  server : McpServer.t;
  notified : list Event
}.

Definition new_app (srv : McpServer.t) : App := {| server := srv; notified := [] |}.

Definition notify (e : Event) : M App unit :=
  modify (fun a => {| server := server a; notified := (notified a ++ [e])%list |}).

Definition update_server (f : McpServer.t -> McpServer.t) : M App unit :=
  modify (fun a => {| server := f (server a); notified := notified a |}).

(** [this.hooks?.slot] *)
Definition server_hook {X} (this : McpServer.t) (slot : ServerHooks -> Property X)
  : option X :=
  match McpServer.hooks this with
  | Some h => read (slot h)
  | None => None
  end.

Definition error (message : string) : Thrown := ThrownError PlainError message.

(** [McpServer.tool] *)
Definition tool (tool : ToolDefinition) : M App unit :=
  this <- gets server ;;
  if map_has String.eqb (tool_name tool) (McpServer._tools this)
  then throw (error ("Tool '" ++ tool_name tool ++ "' is already registered"))
  else
    update_server (fun s =>
      {| McpServer.name := McpServer.name s;
         McpServer.version := McpServer.version s;
         McpServer._tools := map_set String.eqb (tool_name tool) tool (McpServer._tools s);
         McpServer._endpoints := McpServer._endpoints s;
         McpServer.hooks := McpServer.hooks s;
         McpServer.transport := McpServer.transport s |}) ;;;
    let description := match description tool with Some d => d | None => "" end in
    call_optional notify
      (option_map (fun f => f (tool_name tool) description)
         (server_hook this onToolRegistered))
      (ToolRegistered (tool_name tool) description).

Definition set_endpoints (e : RouteTable) (s : McpServer.t) : McpServer.t :=
  {| McpServer.name := McpServer.name s;
     McpServer.version := McpServer.version s;
     McpServer._tools := McpServer._tools s;
     McpServer._endpoints := e;
     McpServer.hooks := McpServer.hooks s;
     McpServer.transport := McpServer.transport s |}.

Definition starts_with_slash (p : string) : bool :=
  match p with
  | String c _ => Ascii.eqb c "/"%char
  | EmptyString => false
  end.

(** [McpServer.route] *)
Definition route (method : HttpMethod) (path : string) (handler : RouteHandler)
  : M App unit :=
  let normalizedPath := if starts_with_slash path then path else "/" ++ path in
  this <- gets server ;;
  let endpoints :=
    if map_has String.eqb normalizedPath (McpServer._endpoints this)
    then McpServer._endpoints this
    else map_set String.eqb normalizedPath [] (McpServer._endpoints this) in
  update_server (set_endpoints endpoints) ;;;
  let methodMap :=
    match map_get String.eqb normalizedPath endpoints with
    | Some m => m
    | None => []
    end in
  if map_has HttpMethod_eqb method methodMap
  then throw (error ("Endpoint '" ++ HttpMethod_text method ++ " " ++ normalizedPath ++
                     "' is already registered"))
  else
    update_server
      (set_endpoints
         (map_set String.eqb normalizedPath
            (map_set HttpMethod_eqb method handler methodMap) endpoints)).

(** The inner loop of [start]: the methods of one path of [customRoutes]. *)
Fixpoint merge_methods (path : string) (entries : list (HttpMethod * RouteHandler))
  (target : MethodMap) : Completion MethodMap :=
  match entries with
  | [] => Normal target
  | (method, handler) :: rest =>
      if map_has HttpMethod_eqb method target
      then Throw (error ("Endpoint '" ++ HttpMethod_text method ++ " " ++ path ++
                         "' is already registered"))
      else merge_methods path rest (map_set HttpMethod_eqb method handler target)
  end.

(** The outer loop of [start]: the paths of [customRoutes]. *)
Fixpoint merge_routes (mcpPath : string) (entries : list (string * MethodMap))
  (mergedRoutes : RouteTable) : Completion RouteTable :=
  match entries with
  | [] => Normal mergedRoutes
  | (path, methodMap) :: rest =>
      if String.eqb path mcpPath
      then Throw (error ("Custom endpoint path cannot match MCP path '" ++ mcpPath ++ "'"))
      else
        let merged :=
          if map_has String.eqb path mergedRoutes then mergedRoutes
          else map_set String.eqb path [] mergedRoutes in
        let target :=
          match map_get String.eqb path merged with Some m => m | None => [] end in
        match merge_methods path methodMap target with
        | Throw t => Throw t
        | Normal target' =>
            merge_routes mcpPath rest (map_set String.eqb path target' merged)
        end
  end.

(** [McpServer.start]; the listening itself is outside the model. *)
Definition start (opts : option Options.t) : M App unit :=
  this <- gets server ;;
  match McpServer.transport this with
  | Some _ => throw (error "Server is already started")
  | None =>
      let given := match opts with Some o => o | None => Options.empty end in
      let mcpPath := match read (Options.path given) with Some p => p | None => "/mcp" end in
      if map_has String.eqb mcpPath (McpServer._endpoints this)
      then throw (error ("Custom endpoint path cannot match MCP path '" ++ mcpPath ++ "'"))
      else
        mergedRoutes <-
          lift (merge_routes mcpPath
                  (match read (Options.customRoutes given) with Some r => r | None => [] end)
                  (McpServer._endpoints this)) ;;
        let finalOptions :=
          {| Options.port := Options.port given;
             Options.host := Options.host given;
             Options.path := Options.path given;
             Options.hooks :=
               Present (Some (spread_hooks (McpServer.hooks this)
                                (read (Options.hooks given))));
             Options.allowedOrigins := Options.allowedOrigins given;
             Options.customRoutes := Present (Some mergedRoutes) |} in
        update_server (fun s =>
          {| McpServer.name := McpServer.name s;
             McpServer.version := McpServer.version s;
             McpServer._tools := McpServer._tools s;
             McpServer._endpoints := McpServer._endpoints s;
             McpServer.hooks := McpServer.hooks s;
             McpServer.transport := Some (new_HttpTransport (Some finalOptions)) |})
  end.

(* ================================================================== *)
(** ** [src/http/http-transport.ts] *)

Section Transport.
Context {zod : Zod.Rendering}.
Variable this : HttpTransport.
Variable mcpServer : McpServer.t.

(** [this.options.hooks?.slot] *)
Definition hook {X} (slot : ServerHooks -> Property X) : option X :=
  match read (Options.hooks (options this)) with
  | Some h => read (slot h)
  | None => None
  end.

Definition elapsedSince (startedAt : Z) : M World Z :=
  t <- performance_now ;;
  ret (t - startedAt).

Definition recordToolSuccess (toolName : string) (rawInput : JSON)
  (result : list ToolResponseContent) (startedAt : Z) : M World unit :=
  elapsed <- elapsedSince startedAt ;;
  call_hook
    (option_map (fun f => f toolName rawInput result elapsed) (hook onToolCallFinished))
    (ToolCallFinished toolName rawInput result elapsed).

Definition recordToolError (toolName : string) (rawInput : JSON)
  (error : ErrorOrString) (startedAt : Z) : M World unit :=
  elapsed <- elapsedSince startedAt ;;
  call_hook
    (option_map (fun f => f toolName rawInput error elapsed) (hook onToolCallError))
    (ToolCallError toolName rawInput error elapsed).

(** [validateToolInput]; [None] is [undefined]. *)
Definition validateToolInput (tool : ToolDefinition) (toolName : string)
  (rawInput : JSON) (start : Z) (requestId : JsonRpcId) : M World (option JSON) :=
  match safeParse (schema tool) rawInput with
  | SafeParseSuccess data => ret data
  | SafeParseError e =>
      let errorStr := zod_flatten_text e in
      recordToolError toolName rawInput (AsString errorStr) start ;;;
      sendJsonRpcProtocolError requestId ErrorCode.InvalidParams
        ("Invalid tool arguments: " ++ errorStr) ;;;
      ret None
  end.

(** [parseToolCallParams]; [None] is [null]. *)
Definition parseToolCallParams (request : JsonRpcRequest)
  : M World (option CallToolParams) :=
  match Zod.CallToolParamsSchema (params request) with
  | SafeParseSuccess data => ret (Some data)
  | SafeParseError e =>
      sendJsonRpcProtocolError IdNull ErrorCode.ParseError
        ("Unable to parse RPC request: " ++ zod_message e) ;;;
      ret None
  end.

Definition content_to_json (c : ToolResponseContent) : JSON :=
  match c with
  | TextToolResponse text => JObject [("type", JString "text"); ("text", JString text)]
  | MediaToolResponse ty data mimeType =>
      JObject [("type", JString (match ty with image => "image" | audio => "audio" end));
               ("data", JString data); ("mimeType", JString mimeType)]
  end.

Definition unknown_error_message : string := "Unknown error occurred while calling tool".

Definition handleToolCall (request : JsonRpcRequest) : M World unit :=
  p <- parseToolCallParams request ;;
  match p with
  | None => ret tt
  | Some params =>
      let requestId := id_or_null (id request) in
      match McpServer.getTool mcpServer (name params) with
      | None =>
          sendJsonRpcProtocolError requestId ErrorCode.InvalidParams
            ("Tool '" ++ name params ++ "' not found")
      | Some tool =>
          let rawInput :=
            match arguments params with Some a => a | None => JObject [] end in
          start <- performance_now ;;
          parsed <- validateToolInput tool (name params) rawInput start requestId ;;
          match parsed with
          | None => ret tt
          | Some parsedInput =>
              call_hook
                (option_map (fun f => f (name params) rawInput) (hook onToolCallStarted))
                (ToolCallStarted (name params) rawInput) ;;;
              try_catch
                (emit (HandlerCalled (name params) parsedInput) ;;;
                 result <- lift (handler tool parsedInput) ;;
                 recordToolSuccess (name params) rawInput result start ;;;
                 sendJsonRpcResponse requestId
                   (JObject [("content", JArray (map content_to_json result))]))
                (fun error =>
                   let responseMessage :=
                     match error with
                     | ThrownError _ message => message
                     | ThrownValue _ => unknown_error_message
                     end in
                   recordToolError (name params) rawInput
                     (match error with
                      | ThrownError cls message => AsError cls message
                      | ThrownValue _ => AsString responseMessage
                      end)
                     start ;;;
                   sendJsonRpcProtocolError requestId ErrorCode.InternalError
                     responseMessage)
          end
      end
  end.

Definition handleInitialize (request : JsonRpcRequest) : M World unit :=
  match Zod.InitializeParamsSchema (params request) with
  | SafeParseError e =>
      sendJsonRpcProtocolError IdNull ErrorCode.ParseError
        ("Unable to parse RPC request: " ++ zod_message e)
  | SafeParseSuccess data =>
      call_hook
        (option_map
           (fun f => f (ci_name (clientInfo data)) (ci_version (clientInfo data))
                       (protocolVersion data))
           (hook onClientConnected))
        (ClientConnected (ci_name (clientInfo data)) (ci_version (clientInfo data))
           (protocolVersion data)) ;;;
      sendJsonRpcResponse (id_or_null (id request))
        (JObject
           [("protocolVersion", JString (protocolVersion data));
            ("serverInfo",
             JObject [("name", JString (McpServer.name mcpServer));
                      ("version", JString (McpServer.version mcpServer))]);
            ("capabilities", JObject [("tools", JObject [])])])
  end.

(** One entry of [tools/list] as [JSON.stringify] writes it; an absent
    description leaves no key in the serialized object. *)
Definition toolDefinition (tool : ToolDefinition) : Completion JSON :=
  match zodSchemaToToolSchema (tool_name tool) (schema tool) with
  | Throw t => Throw t
  | Normal inputSchema =>
      Normal
        (JObject
           (("name", JString (tool_name tool)) ::
            match description tool with
            | Some d => [("description", JString d)]
            | None => []
            end ++ [("inputSchema", Js.stringified inputSchema)])%list)
  end.

(** [tools.map(f)] where [f] can throw. *)
Fixpoint map_completion {A B} (f : A -> Completion B) (l : list A)
  : Completion (list B) :=
  match l with
  | [] => Normal []
  | x :: rest =>
      match f x with
      | Throw t => Throw t
      | Normal y =>
          match map_completion f rest with
          | Throw t => Throw t
          | Normal ys => Normal (y :: ys)
          end
      end
  end.

Definition handleToolsList (request : JsonRpcRequest) : M World unit :=
  call_hook (option_map (fun f => f tt) (hook onToolsListRequested))
    ToolsListRequested ;;;
  let tools := McpServer.getTools mcpServer in
  toolDefinitions <- lift (map_completion toolDefinition tools) ;;
  sendJsonRpcResponse (id_or_null (id request))
    (JObject [("tools", JArray toolDefinitions)]).

Definition sendPreflightResponse (req : IncomingMessage) : M World unit :=
  let headersValue :=
    match access_control_request_headers req with
    | Some (HeaderMany l) => String.concat ", " l
    | Some (HeaderOne v) => v
    | None => "Content-Type, Accept, Mcp-Session-Id"
    end in
  setHeader "Access-Control-Allow-Methods" "POST, OPTIONS" ;;;
  setHeader "Access-Control-Allow-Headers" headersValue ;;;
  match allowedOrigins this with
  | Wildcard => ret tt
  | Origins _ => setHeader "Access-Control-Allow-Credentials" "true"
  end ;;;
  writeHead 204 [] ;;;
  end_response None.

(** The value of a header when it is truthy: present and not empty. *)
Definition truthy_header (h : option string) : option string :=
  match h with
  | Some v => if String.eqb v "" then None else Some v
  | None => None
  end.

Definition ensureCors (req : IncomingMessage) : M World bool :=
  match allowedOrigins this with
  | Wildcard =>
      match truthy_header (origin req) with
      | Some _ =>
          setHeader "Access-Control-Allow-Origin" "*" ;;;
          setHeader "Vary" "Origin"
      | None => ret tt
      end ;;;
      setHeader "Access-Control-Expose-Headers" "Mcp-Session-Id" ;;;
      ret true
  | Origins allowed =>
      match truthy_header (origin req) with
      | None => ret true
      | Some o =>
          if existsb (String.eqb o) allowed
          then
            setHeader "Access-Control-Allow-Origin" o ;;;
            setHeader "Access-Control-Allow-Credentials" "true" ;;;
            setHeader "Access-Control-Expose-Headers" "Mcp-Session-Id" ;;;
            setHeader "Vary" "Origin" ;;;
            ret true
          else
            sendError 403 "Forbidden origin" ;;;
            ret false
      end
  end.

Definition requestPath (req : IncomingMessage) : string :=
  Js.before_char "?"%char (match url req with Some u => u | None => "" end).

Definition canHandle (req : IncomingMessage) : M World bool :=
  if String.eqb (req_method req) "OPTIONS"
  then sendPreflightResponse req ;;; ret false
  else
    if negb (match read (Options.path (options this)) with
             | Some p => String.eqb (requestPath req) p
             | None => false
             end)
    then sendError 404 "Not found" ;;; ret false
    else
      if negb (String.eqb (req_method req) "POST")
      then
        setHeader "Allow" "POST, OPTIONS" ;;;
        sendError 405 "Method not allowed" ;;;
        ret false
      else ret true.

(** The [switch] of [handleHttpRequest]. *)
Definition dispatch (parsedRequest : JsonRpcRequest) (requestId : JsonRpcId)
  : M World unit :=
  if String.eqb (method parsedRequest) "initialize" then handleInitialize parsedRequest
  else if String.eqb (method parsedRequest) "tools/list" then handleToolsList parsedRequest
  else if String.eqb (method parsedRequest) "tools/call" then handleToolCall parsedRequest
  else if String.eqb (method parsedRequest) "ping"
  then sendJsonRpcResponse requestId (JObject [("status", JString "ok")])
  else sendJsonRpcProtocolError requestId ErrorCode.MethodNotFound "Method not found".

(** The [catch] clause of [handleHttpRequest]. *)
Definition respondToError (requestId : JsonRpcId) (error : Thrown) : M World unit :=
  match error with
  | ThrownError SyntaxError _ =>
      sendJsonRpcProtocolError requestId ErrorCode.ParseError "Invalid JSON"
  | ThrownError ZodErrorClass _ =>
      sendJsonRpcProtocolError requestId ErrorCode.InvalidParams "Invalid request format"
  | _ =>
      sendJsonRpcProtocolError requestId ErrorCode.InternalError "Internal server error"
  end.

(** The [try] statement of [handleHttpRequest]; [requestId] is the mutable
    local of the function, [null] until the envelope has been read. *)
Definition tryDispatch (req : IncomingMessage) : M World unit :=
  with_local IdNull
    (try_catch
       (parsedRequest <- outside (readRequestBody req) ;;
        set_local (id_or_null (id parsedRequest)) ;;;
        requestId <- get_local ;;
        outside (dispatch parsedRequest requestId))
       (fun error =>
          requestId <- get_local ;;
          outside (respondToError requestId error))).

Definition handleHttpRequest (req : IncomingMessage) : M World unit :=
  cors <- ensureCors req ;;
  if negb cors then ret tt
  else
    handled <- canHandle req ;;
    if negb handled then ret tt
    else tryDispatch req.

End Transport.

(* ================================================================== *)
(** * Properties *)

Section Properties.
Context {zod : Zod.Rendering}.

(** ** Observing the response *)

Definition unsent (w : World) : Prop := finished (res w) = false.

(** The world after [writeHead(status, {'Content-Type': ct}).end(b)]. *)
Definition respond (status : Z) (ct : string) (b : ResponseBody) (w : World) : World :=
  {| now := now w; ticks := ticks w; trace := trace w;
     res := {| headers := set_header_in "Content-Type" ct (headers (res w));
               statusCode := Some status; body := Some b; finished := true |} |}.

(** The world after [res.setHeader(k, v)]. *)
Definition put_header (k v : string) (w : World) : World :=
  {| now := now w; ticks := ticks w; trace := trace w;
     res := {| headers := set_header_in k v (headers (res w));
               statusCode := statusCode (res w); body := body (res w);
               finished := finished (res w) |} |}.

Definition responded_with (w : World) (status : Z) (b : ResponseBody) : Prop :=
  statusCode (res w) = Some status /\ body (res w) = Some b /\ finished (res w) = true.

(** The [id] member of a JSON-RPC response body. *)
Definition response_id (w : World) : option JSON :=
  match body (res w) with
  | Some (JsonBody (JObject f)) => Js.lookup "id" f
  | _ => None
  end.

(** The [error.code] member of a JSON-RPC response body. *)
Definition response_error_code (w : World) : option JSON :=
  match body (res w) with
  | Some (JsonBody (JObject f)) =>
      match Js.lookup "error" f with
      | Some (JObject e) => Js.lookup "code" e
      | _ => None
      end
  | _ => None
  end.

(** Two worlds that differ at most in the headers set so far. *)
Definition same_but_headers (w w' : World) : Prop :=
  now w' = now w /\ ticks w' = ticks w /\ trace w' = trace w /\
  statusCode (res w') = statusCode (res w) /\ body (res w') = body (res w) /\
  finished (res w') = finished (res w).

(** A [POST] to the MCP path that passes the CORS check and whose body is a
    well-formed JSON-RPC request [r]. *)
Definition arrives (this : HttpTransport) (req : IncomingMessage) (w : World)
  (r : JsonRpcRequest) : Prop :=
  req_method req = "POST" /\
  read (Options.path (options this)) = Some (requestPath req) /\
  fst (ensureCors this req w) = Normal true /\
  exists j : JSON, req_body req = BodyParsed j /\ Zod.JsonRpcRequestSchema j = SafeParseSuccess r.

(** An optional callback that, when present, returns normally on the call
    [call]. *)
Definition returns_normally {X} (h : option X) (call : X -> Completion unit) : Prop :=
  match h with
  | Some f => call f = Normal tt
  | None => True
  end.

(** The events of calling an optional callback. *)
Definition fired {X} (h : option X) (e : Event) : list Event :=
  match h with
  | Some _ => [e]
  | None => []
  end.

(** The world after an event has been recorded. *)
Definition record (e : Event) (w : World) : World :=
  {| now := now w; ticks := ticks w; trace := (trace w ++ [e])%list; res := res w |}.

(** A [POST] to the MCP path that passes the CORS check. *)
Definition post_to_mcp (this : HttpTransport) (req : IncomingMessage) (w : World) : Prop :=
  req_method req = "POST" /\
  read (Options.path (options this)) = Some (requestPath req) /\
  fst (ensureCors this req w) = Normal true.

(** The methods that the dispatcher knows. *)
Definition recognized (m : string) : Prop :=
  m = "initialize" \/ m = "tools/list" \/ m = "tools/call" \/ m = "ping".

(** The [params] of an [initialize] or [tools/call] request fail the schema
    of the method. *)
Definition params_rejected (r : JsonRpcRequest) : bool :=
  (String.eqb (method r) "initialize" &&
   match Zod.InitializeParamsSchema (params r) with
   | SafeParseError _ => true
   | SafeParseSuccess _ => false
   end) ||
  (String.eqb (method r) "tools/call" &&
   match Zod.CallToolParamsSchema (params r) with
   | SafeParseError _ => true
   | SafeParseSuccess _ => false
   end).

(** The id that the answer to [r] carries. *)
Definition answered_id (r : JsonRpcRequest) : JsonRpcId :=
  if params_rejected r then IdNull else id_or_null (id r).

(** The arguments of a [tools/call]: [params.arguments ?? {}]. *)
Definition raw_input (p : CallToolParams) : JSON :=
  match arguments p with Some a => a | None => JObject [] end.

(** The schema of the called tool accepts the arguments and yields
    [undefined]. *)
Definition validates_to_undefined (srv : McpServer.t) (r : JsonRpcRequest) : Prop :=
  exists p tool,
    Zod.CallToolParamsSchema (params r) = SafeParseSuccess p /\
    McpServer.getTool srv (name p) = Some tool /\
    safeParse (schema tool) (raw_input p) = SafeParseSuccess None.

(** Partial-correctness triples with an exceptional postcondition: from a
    world in [P], the computation either returns [a] in a world in [Q a] or
    throws [t] in a world in [E t]. *)
Definition triple {A} (P : World -> Prop) (m : M World A)
  (Q : A -> World -> Prop) (E : Thrown -> World -> Prop) : Prop :=
  forall w, P w ->
    match m w with
    | (Normal a, w') => Q a w'
    | (Throw t, w') => E t w'
    end.

(** Nothing has been written to the response yet. *)
Definition idle (w : World) : Prop := unsent w /\ body (res w) = None.

(** The request [r] has been given its answer: a response with the expected
    id, or, when the schema of the called tool yields [undefined], none. *)
Definition answered (srv : McpServer.t) (r : JsonRpcRequest) (w : World) : Prop :=
  response_id w = Some (id_to_json (answered_id r)) \/
  (method r = "tools/call" /\ validates_to_undefined srv r /\ body (res w) = None).

(** A value has been thrown while answering [r]: the response is still to
    be written, and the params of [r] had passed their schema. *)
Definition pending (r : JsonRpcRequest) (_ : Thrown) (w : World) : Prop :=
  idle w /\ params_rejected r = false.

(** The [n]-th coming reading of the clock, counted from 0. *)
Definition reading (n : nat) (w : World) : Z := next_reading (Nat.iter n advance w).

(** What [handleToolCall] makes of a thrown value: the message of the
    response and the error handed to [onToolCallError]. *)
Definition error_message (t : Thrown) : string :=
  match t with
  | ThrownError _ message => message
  | ThrownValue _ => unknown_error_message
  end.

Definition error_value (t : Thrown) : ErrorOrString :=
  match t with
  | ThrownError cls message => AsError cls message
  | ThrownValue _ => AsString (error_message t)
  end.

(** The success envelope of a tool call: [{ content: result }]. *)
Definition content_result (result : list ToolResponseContent) : JSON :=
  JObject [("content", JArray (map content_to_json result))].

(** The world after the headers of an allowed origin have been set. *)
Definition allow_origin (o : string) (w : World) : World :=
  put_header "Vary" "Origin"
    (put_header "Access-Control-Expose-Headers" "Mcp-Session-Id"
       (put_header "Access-Control-Allow-Credentials" "true"
          (put_header "Access-Control-Allow-Origin" o w))).

(** The value of a response header, if set. *)
Definition response_header (k : string) (w : World) : option string :=
  map_get String.eqb k (headers (res w)).

(** An object or an array: the values [v] with [v && typeof v === 'object'];
    the built-in prototypes are objects. *)
Definition is_container (v : Value) : bool :=
  match v with
  | Data (JObject _) | Data (JArray _) | Builtin _ => true
  | _ => false
  end.

(** [doc] is a [$ref]-plus-[definitions] wrapper and [d] is the object that
    its [$ref] names: the member of [definitions] under the [$ref] without
    its first [#/definitions/]. *)
Inductive wraps : JSON -> Value -> Prop :=
| wraps_definition fields ref definitions d :
    Js.lookup "$ref" fields = Some (JString ref) ->
    Js.lookup "definitions" fields = Some definitions ->
    Js.optional_member definitions (Js.replace_first "#/definitions/" ref) = Some d ->
    is_container d = true ->
    wraps (JObject fields) d.

(** The documents on which the adapter fails: a primitive or [null], and an
    object that has [definitions] and a [$ref] that is not a string. *)
Inductive ill_formed : JSON -> Prop :=
| ill_formed_primitive doc :
    is_container (Data doc) = false -> ill_formed doc
| ill_formed_ref fields v definitions :
    Js.lookup "$ref" fields = Some v ->
    (forall ref, v <> JString ref) ->
    Js.lookup "definitions" fields = Some definitions ->
    ill_formed (JObject fields).

(** Some object inside [j] has a [$ref] key. *)
Fixpoint has_ref (j : JSON) : bool :=
  match j with
  | JArray items => existsb has_ref items
  | JObject fields =>
      (fix in_fields (l : list (string * JSON)) : bool :=
         match l with
         | [] => false
         | (k, v) :: rest => String.eqb k "$ref" || has_ref v || in_fields rest
         end) fields
  | _ => false
  end.

End Properties.

(* ================================================================== *)
(** ** A small server used to exercise the statements *)

Module Fixture.

(** A stand-in for the texts of zod in the examples; the examples do not
    depend on what it writes. *)
#[global] Instance rendering : Zod.Rendering :=
  {| Zod.message_of := fun issues => "[zod: " ++ Js.index_key (length issues) ++ " issue(s)]";
     Zod.flatten_text_of := fun _ => "{}" |}.

Definition diagnostics : ZodError :=
  {| zod_message := "Required";
     zod_flatten_text := "{ formErrors: [], fieldErrors: { text: [ Required ] } }" |}.

(** [z.object({ text: z.string() })] *)
Definition textSchema : ZodSchema :=
  {| safeParse := fun j =>
       match j with
       | JObject f =>
           match Js.lookup "text" f with
           | Some (JString s) => SafeParseSuccess (Some (JObject [("text", JString s)]))
           | _ => SafeParseError diagnostics
           end
       | _ => SafeParseError diagnostics
       end;
     zodToJsonSchema := fun n =>
       JObject
         [("$ref", JString ("#/definitions/" ++ n));
          ("definitions",
           JObject
             [(n, JObject
                    [("type", JString "object");
                     ("properties", JObject [("text", JObject [("type", JString "string")])]);
                     ("required", JArray [JString "text"])])])] |}.

Definition text_of (j : JSON) : string :=
  match j with
  | JObject f => match Js.lookup "text" f with Some (JString s) => s | _ => "" end
  | _ => ""
  end.

Definition echo : ToolDefinition :=
  {| tool_name := "echo"; description := Some "Echo the provided text";
     schema := textSchema;
     handler := fun input => Normal [TextToolResponse (text_of input)] |}.

Definition echo_again : ToolDefinition :=
  {| tool_name := "echo"; description := None;
     schema := textSchema;
     handler := fun input => Normal [] |}.

Definition explode : ToolDefinition :=
  {| tool_name := "explode"; description := None;
     schema := textSchema;
     handler := fun _ => Throw (ThrownError PlainError "boom") |}.

(** A custom route handler: it answers 200 [ok] by itself. *)
Definition health : RouteHandler :=
  fun _ => emit (RouteHandlerCalled "GET" "/health") ;;; sendError 200 "ok".

Definition failing_hook : Completion unit := Throw (ThrownError PlainError "hook failed").

(** [{ k: f }] *)
Definition given {A} (a : A) : Property A := Present (Some a).

(** Hooks of which the one called after the handler throws; the one that
    reports errors returns. *)
Definition finished_hook_throws : ServerHooks :=
  {| onClientConnected := Absent; onToolRegistered := Absent; onToolCallStarted := Absent;
     onToolCallFinished := given (fun _ _ _ _ => failing_hook);
     onToolCallError := given (fun _ _ _ _ => Normal tt);
     onToolsListRequested := Absent; onServerError := Absent |}.

Definition error_hook_throws : ServerHooks :=
  {| onClientConnected := Absent; onToolRegistered := Absent; onToolCallStarted := Absent;
     onToolCallFinished := Absent;
     onToolCallError := given (fun _ _ _ _ => failing_hook);
     onToolsListRequested := Absent; onServerError := Absent |}.

Definition quiet_hooks : ServerHooks :=
  {| onClientConnected := given (fun _ _ _ => Normal tt);
     onToolRegistered := given (fun _ _ => Normal tt);
     onToolCallStarted := given (fun _ _ => Normal tt);
     onToolCallFinished := given (fun _ _ _ _ => Normal tt);
     onToolCallError := given (fun _ _ _ _ => Normal tt);
     onToolsListRequested := given (fun _ => Normal tt);
     onServerError := given (fun _ => Normal tt) |}.

(** [new McpServer({...}).tool(echo).tool(explode).route('GET', 'health', health)] *)
Definition registered (hooks : option ServerHooks) : App :=
  snd ((tool echo ;;; tool explode ;;; route GET "health" health)
         (new_app (McpServer.new (Some "demo") (Some "1.0.0") hooks))).

(** [{ allowedOrigins }], or [{}] without origins. *)
Definition options_with (origins : option AllowedOrigins) : Options.t :=
  {| Options.port := Absent; Options.host := Absent; Options.path := Absent;
     Options.hooks := Absent;
     Options.allowedOrigins := match origins with Some o => given o | None => Absent end;
     Options.customRoutes := Absent |}.

(** [... .start({ allowedOrigins })] *)
Definition started (hooks : option ServerHooks) (origins : option AllowedOrigins) : App :=
  snd (start (Some (options_with origins)) (registered hooks)).

Definition transport_of (a : App) : HttpTransport :=
  match McpServer.transport (server a) with
  | Some t => t
  | None => new_HttpTransport None
  end.

Definition request (m u : string) (o : option string) (b : RequestBody) : IncomingMessage :=
  {| req_method := m; url := Some u; origin := o;
     access_control_request_headers := None; req_body := b |}.

Definition envelope (i : Z) (m : string) (rest : list (string * JSON)) : JSON :=
  JObject ([("jsonrpc", JString "2.0"); ("id", JNum i); ("method", JString m)] ++ rest)%list.

Definition post (j : JSON) : IncomingMessage := request "POST" "/mcp" None (BodyParsed j).

Definition call (i : Z) (toolName : string) (args : list (string * JSON)) : JSON :=
  envelope i "tools/call"
    [("params", JObject [("name", JString toolName); ("arguments", JObject args)])].

(** A body that is JSON but announces another protocol version. *)
Definition wrong_version : JSON :=
  JObject [("jsonrpc", JString "1.0"); ("id", JNum 7); ("method", JString "ping")].

(** [initialize] without [params]. *)
Definition bare_initialize : JSON := envelope 1 "initialize" [].

Definition ping : JSON := envelope 1 "ping" [].

(** Handling [req] on a fresh response, the clock at 0 and moving by 3 and
    then 5 between readings. *)
Definition serve (a : App) (req : IncomingMessage) : World :=
  snd (handleHttpRequest (transport_of a) (server a) req (new_world 0 [3%N; 5%N])).


(** The requests as [JsonRpcRequestSchema] returns them. *)
Definition parsed (i : Z) (m : string) (p : option JSON) : JsonRpcRequest :=
  {| id := Some (IdNumber i); method := m; params := p |}.

Definition parsed_call (i : Z) (toolName : string) (args : list (string * JSON))
  : JsonRpcRequest :=
  parsed i "tools/call"
    (Some (JObject [("name", JString toolName); ("arguments", JObject args)])).

Definition call_params (toolName : string) (args : list (string * JSON)) : CallToolParams :=
  {| name := toolName; arguments := Some (JObject args) |}.

Definition hi : list (string * JSON) := [("text", JString "hi")].

Definition fresh : World := new_world 0 [3%N; 5%N].

(** A schema in which the field [b] reuses the schema of the field [a]:
    the converter describes [b] by a reference into the named root. *)
Definition reusingSchema : ZodSchema :=
  {| safeParse := fun j => SafeParseSuccess (Some j);
     zodToJsonSchema := fun n =>
       JObject
         [("$ref", JString ("#/definitions/" ++ n));
          ("definitions",
           JObject
             [(n, JObject
                    [("type", JString "object");
                     ("properties",
                      JObject
                        [("a", JObject [("type", JString "string")]);
                         ("b", JObject [("$ref",
                                         JString ("#/definitions/" ++ n ++
                                                  "/properties/a"))])])])]);
          ("$schema", JString "http://json-schema.org/draft-07/schema#")] |}.

Definition good_origin : string := "https://good.example".

(** The servers of the examples: without hooks, with hooks that return,
    and with one hook that throws. *)
Definition plain : App := started None None.
Definition observed : App := started (Some quiet_hooks) None.
Definition finished_fails : App := started (Some finished_hook_throws) None.
Definition error_fails : App := started (Some error_hook_throws) None.
Definition guarded : App := started None (Some (Origins [good_origin])).

End Fixture.

(* ================================================================== *)
(** * Further code: the life cycle of the server, the route registry and
      the remaining branches of the dispatcher *)

(** ** [src/server.ts]: [start] with its [await], and [stop] *)

(** [McpServer.start] including [await this.transport.start()]: the
    transport is stored first, then the listening is awaited; [listen] is
    the outcome of that promise (it rejects when the port cannot be bound). *)
Definition start_and_listen (listen : Completion unit) (opts : option Options.t)
  : M App unit :=
  start opts ;;; lift listen.

(** [McpServer.stop]; [close] is the outcome of [await this.transport.stop()]. *)
Definition stop (close : Completion unit) : M App unit :=
  this <- gets server ;;
  match McpServer.transport this with
  | None => throw (error "Server is not started")
  | Some _ =>
      lift close ;;;
      update_server (fun s =>
        {| McpServer.name := McpServer.name s;
           McpServer.version := McpServer.version s;
           McpServer._tools := McpServer._tools s;
           McpServer._endpoints := McpServer._endpoints s;
           McpServer.hooks := McpServer.hooks s;
           McpServer.transport := None |})
  end.

(** ** Reading the registries *)

(** The handler registered for a method on a path, in a table of routes. *)
Definition route_lookup (routes : RouteTable) (path : string) (m : HttpMethod)
  : option RouteHandler :=
  match map_get String.eqb path routes with
  | Some methods => map_get HttpMethod_eqb m methods
  | None => None
  end.

(** The path under which [route] registers: [path.startsWith('/') ? path : `/${path}`]. *)
Definition normalized (path : string) : string :=
  if starts_with_slash path then path else "/" ++ path.

(** The table after [route] has made sure that the path has an entry. *)
Definition with_path (np : string) (routes : RouteTable) : RouteTable :=
  if map_has String.eqb np routes then routes else map_set String.eqb np [] routes.

(** The configured MCP path as [start] computes it: [options?.path ?? '/mcp']. *)
Definition mcp_path (opts : option Options.t) : string :=
  match opts with
  | Some o => match read (Options.path o) with Some p => p | None => "/mcp" end
  | None => "/mcp"
  end.

(** The routes that [start] is given in its options. *)
Definition given_routes (opts : option Options.t) : RouteTable :=
  match opts with
  | Some o => match read (Options.customRoutes o) with Some r => r | None => [] end
  | None => []
  end.


(** Calling [server.tool] on each definition in turn, whatever each call
    returns or throws. *)
Fixpoint register_all (ds : list ToolDefinition) (a : App) : App :=
  match ds with
  | [] => a
  | d :: rest => register_all rest (snd (tool d a))
  end.

(** The states of a server object that a program can reach with the public
    methods, from the constructor on. *)
Inductive reachable : App -> Prop :=
| reach_new n v h : reachable (new_app (McpServer.new n v h))
| reach_tool a d : reachable a -> reachable (snd (tool d a))
| reach_route a m p h : reachable a -> reachable (snd (route m p h a))
| reach_start a listen opts :
    reachable a -> reachable (snd (start_and_listen listen opts a))
| reach_stop a close : reachable a -> reachable (snd (stop close a)).

(** What the registries of a server keep at all times. *)
Record registry_invariant (s : McpServer.t) : Prop := {
  tool_keys_unique : NoDup (map_keys (McpServer._tools s));
  tool_keys_are_names :
    Forall (fun kv => fst kv = tool_name (snd kv)) (McpServer._tools s);
  paths_unique : NoDup (map_keys (McpServer._endpoints s));
  paths_normalized :
    Forall (fun pm => starts_with_slash (fst pm) = true /\ NoDup (map_keys (snd pm)))
      (McpServer._endpoints s);
  mcp_path_is_free :
    match McpServer.transport s with
    | Some tr =>
        exists routes,
          read (Options.customRoutes (options tr)) = Some routes /\
          forall p, read (Options.path (options tr)) = Some p ->
                    map_has String.eqb p routes = false
    | None => True
    end
}.

(** The transport that [start] builds from its options, the hooks of the
    server and the merged routes. *)
Definition started_transport (hooks : option ServerHooks) (opts : option Options.t)
  (mergedRoutes : RouteTable) : HttpTransport :=
  let given := match opts with Some o => o | None => Options.empty end in
  new_HttpTransport
    (Some {| Options.port := Options.port given;
             Options.host := Options.host given;
             Options.path := Options.path given;
             Options.hooks :=
               Present (Some (spread_hooks hooks (read (Options.hooks given))));
             Options.allowedOrigins := Options.allowedOrigins given;
             Options.customRoutes := Present (Some mergedRoutes) |}).

(** The server object with its transport replaced. *)
Definition set_transport (t : option HttpTransport) (s : McpServer.t) : McpServer.t :=
  {| McpServer.name := McpServer.name s;
     McpServer.version := McpServer.version s;
     McpServer._tools := McpServer._tools s;
     McpServer._endpoints := McpServer._endpoints s;
     McpServer.hooks := McpServer.hooks s;
     McpServer.transport := t |}.

(** What a table of routes keeps: one entry per path, every path beginning
    with a slash, one handler per method. *)
Definition routes_ok (routes : RouteTable) : Prop :=
  NoDup (map_keys routes) /\
  Forall (fun pm => starts_with_slash (fst pm) = true /\ NoDup (map_keys (snd pm))) routes.

(* ------------------------------------------------------------------ *)
(** ** The answers of the dispatcher *)

(** The code and the message that the [catch] clause of
    [handleHttpRequest] gives to a thrown value. *)
Definition caught_as (t : Thrown) : Z * string :=
  match t with
  | ThrownError SyntaxError _ => (ErrorCode.ParseError, "Invalid JSON")
  | ThrownError ZodErrorClass _ => (ErrorCode.InvalidParams, "Invalid request format")
  | _ => (ErrorCode.InternalError, "Internal server error")
  end.

Definition caught_response (requestId : JsonRpcId) (t : Thrown) : ResponseBody :=
  JsonBody (errorResponse requestId (fst (caught_as t)) (snd (caught_as t))).



(** The key [path] of the options given to [start]. *)
Definition given_path (opts : option Options.t) : Property string :=
  match opts with
  | Some o => Options.path o
  | None => Absent
  end.

(** The response has been ended with status 200 and a JSON body. *)
Definition json_reply (w : World) : Prop :=
  statusCode (res w) = Some 200 /\ finished (res w) = true /\
  response_header "Content-Type" w = Some "application/json" /\
  exists j, body (res w) = Some (JsonBody j).

(** The response has been ended with the given status and a plain text. *)
Definition text_reply (status : Z) (message : string) (w : World) : Prop :=
  responded_with w status (TextBody message) /\
  response_header "Content-Type" w = Some "text/plain".

(** The response has been ended with status 204 and without a body. *)
Definition empty_reply (w : World) : Prop :=
  statusCode (res w) = Some 204 /\ finished (res w) = true /\ body (res w) = None.

(** The request with another [url]. *)
Definition with_url (u : option string) (req : IncomingMessage) : IncomingMessage :=
  {| req_method := req_method req; url := u; origin := origin req;
     access_control_request_headers := access_control_request_headers req;
     req_body := req_body req |}.

(** The [allowedOrigins] that a configuration carries. *)
Definition configured_origins (config : option Options.t) : option AllowedOrigins :=
  match config with
  | Some c => read (Options.allowedOrigins c)
  | None => None
  end.

(** The value of [Access-Control-Allow-Headers] in the answer to a
    preflight: the requested headers, or the three that the transport
    names. *)
Definition preflight_headers (req : IncomingMessage) : string :=
  match access_control_request_headers req with
  | Some (HeaderMany l) => String.concat ", " l
  | Some (HeaderOne v) => v
  | None => "Content-Type, Accept, Mcp-Session-Id"
  end.

(** The result of [initialize]. *)
Definition initialize_result (srv : McpServer.t) (data : InitializeParams) : JSON :=
  JObject
    [("protocolVersion", JString (protocolVersion data));
     ("serverInfo",
      JObject [("name", JString (McpServer.name srv));
               ("version", JString (McpServer.version srv))]);
     ("capabilities", JObject [("tools", JObject [])])].

(** ** Further examples *)

(** Hooks of which the one called before the handler throws. *)
Definition started_hook_throws : ServerHooks :=
  {| onClientConnected := Absent; onToolRegistered := Absent;
     onToolCallStarted := Fixture.given (fun _ _ => Fixture.failing_hook);
     onToolCallFinished := Fixture.given (fun _ _ _ _ => Normal tt);
     onToolCallError := Fixture.given (fun _ _ _ _ => Normal tt);
     onToolsListRequested := Absent; onServerError := Absent |}.


(** [{ path: undefined }] *)
Definition pathless : Options.t :=
  {| Options.port := Absent; Options.host := Absent; Options.path := Present None;
     Options.hooks := Absent; Options.allowedOrigins := Absent;
     Options.customRoutes := Absent |}.

Definition hello : JSON :=
  Fixture.envelope 1 "initialize"
    [("params",
      JObject [("protocolVersion", JString "2025-03-26");
               ("clientInfo", JObject [("name", JString "cli"); ("version", JString "0.1")])])].

Definition hello_params : InitializeParams :=
  {| protocolVersion := "2025-03-26";
     clientInfo := {| ci_name := "cli"; ci_version := "0.1" |};
     capabilities := None |}.

(** The example server with those hooks. *)
Definition started_fails : App := Fixture.started (Some started_hook_throws) None.

(** The request [r] has been dealt with: a JSON answer has been sent, or,
    when the schema of the called tool yields [undefined], nothing has been
    written at all. *)
Definition settled {zod : Zod.Rendering} (srv : McpServer.t) (r : JsonRpcRequest)
  (w : World) : Prop :=
  json_reply w \/
  (method r = "tools/call" /\ validates_to_undefined srv r /\ idle w).
(* ================================================================== *)
(** ** Lemmas on the response and on the way to the dispatcher *)

Lemma same_but_headers_refl w : same_but_headers w w.
Proof. repeat split. Qed.

Lemma respond_responded status ct b w : responded_with (respond status ct b w) status b.
Proof. repeat split. Qed.

Lemma setHeader_unsent k v w :
  unsent w -> setHeader k v w = (Normal tt, put_header k v w).
Proof.
  unfold unsent, setHeader, bind, gets, modify, throw. intros H. rewrite H.
  reflexivity.
Qed.

Lemma put_header_same k v w : same_but_headers w (put_header k v w).
Proof. repeat split. Qed.

Lemma same_but_headers_trans w1 w2 w3 :
  same_but_headers w1 w2 -> same_but_headers w2 w3 -> same_but_headers w1 w3.
Proof.
  unfold same_but_headers. intros (a & b & c & d & e & f) (a' & b' & c' & d' & e' & f').
  repeat split; congruence.
Qed.

Lemma same_but_headers_unsent w w' : same_but_headers w w' -> unsent w -> unsent w'.
Proof. unfold same_but_headers, unsent. intros (_ & _ & _ & _ & _ & f) H. congruence. Qed.

Lemma sendError_unsent status message w :
  unsent w -> sendError status message w = (Normal tt, respond status "text/plain" (TextBody message) w).
Proof.
  unfold unsent, sendError, writeHead, end_response, bind, gets, modify, throw.
  intros H. rewrite H. unfold with_res, respond. cbn. rewrite H. reflexivity.
Qed.

Lemma sendJsonRpcProtocolError_unsent requestId code message w :
  unsent w ->
  sendJsonRpcProtocolError requestId code message w =
  (Normal tt, respond 200 "application/json" (JsonBody (errorResponse requestId code message)) w).
Proof.
  unfold unsent, sendJsonRpcProtocolError, writeHead, end_response, bind, gets, modify, throw.
  intros H. rewrite H. unfold with_res, respond. cbn. rewrite H. reflexivity.
Qed.

Lemma sendJsonRpcResponse_unsent requestId response w :
  unsent w ->
  sendJsonRpcResponse requestId response w =
  (Normal tt, respond 200 "application/json" (JsonBody (jsonResponse requestId response)) w).
Proof.
  unfold unsent, sendJsonRpcResponse, writeHead, end_response, bind, gets, modify, throw.
  intros H. rewrite H. unfold with_res, respond. cbn. rewrite H. reflexivity.
Qed.

(** ** How a request reaches the dispatcher *)

Ltac unsent_now := unfold unsent in *; cbn; assumption.

Ltac send :=
  first
    [ rewrite sendJsonRpcProtocolError_unsent by unsent_now
    | rewrite sendJsonRpcResponse_unsent by unsent_now
    | rewrite sendError_unsent by unsent_now
    | rewrite setHeader_unsent by unsent_now ].

Lemma ensureCors_passes this req w w1 :
  unsent w -> ensureCors this req w = (Normal true, w1) -> same_but_headers w w1.
Proof.
  intros Hw. unfold ensureCors.
  destruct (allowedOrigins this) as [|allowed].
  - destruct (truthy_header (origin req)); unfold bind, ret; repeat send;
      intros E; inversion E; subst;
      repeat (eapply same_but_headers_trans; [|apply put_header_same]);
      apply same_but_headers_refl.
  - destruct (truthy_header (origin req)) as [o|].
    + destruct (existsb (String.eqb o) allowed); unfold bind, ret; repeat send;
        intros E; inversion E; subst.
      repeat (eapply same_but_headers_trans; [|apply put_header_same]);
        apply same_but_headers_refl.
    + unfold ret. intros E; inversion E; subst. apply same_but_headers_refl.
Qed.

Lemma canHandle_post this req w :
  req_method req = "POST" ->
  read (Options.path (options this)) = Some (requestPath req) ->
  canHandle this req w = (Normal true, w).
Proof.
  intros Hm Hp. unfold canHandle. rewrite Hm, Hp, String.eqb_refl. reflexivity.
Qed.

Lemma tryDispatch_parsed {zod : Zod.Rendering} this srv req r j w :
  req_body req = BodyParsed j ->
  Zod.JsonRpcRequestSchema j = SafeParseSuccess r ->
  tryDispatch this srv req w =
  try_catch (dispatch this srv r (id_or_null (id r)))
            (respondToError (id_or_null (id r))) w.
Proof.
  intros Hb Hj.
  unfold tryDispatch, with_local, try_catch, bind, outside, readRequestBody,
    set_local, get_local, gets, modify, ret.
  rewrite Hb, Hj. cbn.
  destruct (dispatch this srv r (id_or_null (id r)) w) as [[a|t] w']; cbn.
  - reflexivity.
  - destruct (respondToError (id_or_null (id r)) t w'); reflexivity.
Qed.

Lemma handleHttpRequest_post {zod : Zod.Rendering} this srv req w :
  unsent w -> post_to_mcp this req w ->
  exists w1,
    same_but_headers w w1 /\
    handleHttpRequest this srv req w = tryDispatch this srv req w1.
Proof.
  intros Hw (Hm & Hp & Hc).
  destruct (ensureCors this req w) as [c w1] eqn:E. cbn in Hc. subst c.
  exists w1. split; [eapply ensureCors_passes; eassumption|].
  unfold handleHttpRequest, bind. rewrite E. cbn.
  rewrite (canHandle_post _ _ _ Hm Hp). reflexivity.
Qed.

Lemma handleHttpRequest_arrives {zod : Zod.Rendering} this srv req w r :
  unsent w -> arrives this req w r ->
  exists w1,
    same_but_headers w w1 /\
    handleHttpRequest this srv req w =
    try_catch (dispatch this srv r (id_or_null (id r)))
              (respondToError (id_or_null (id r))) w1.
Proof.
  intros Hw (Hm & Hp & Hc & j & Hb & Hj).
  destruct (@handleHttpRequest_post _ this srv req w Hw (conj Hm (conj Hp Hc)))
    as (w1 & Hs & ->).
  exists w1. split; [assumption|].
  eapply tryDispatch_parsed; eassumption.
Qed.

Lemma tryDispatch_malformed {zod : Zod.Rendering} this srv req message w :
  req_body req = BodyMalformed message -> unsent w ->
  tryDispatch this srv req w =
  (Normal tt,
   respond 200 "application/json"
     (JsonBody (errorResponse IdNull ErrorCode.ParseError "Invalid JSON")) w).
Proof.
  intros Hb Hw.
  unfold tryDispatch, with_local, try_catch, bind, outside, readRequestBody,
    set_local, get_local, gets, modify, ret, throw, respondToError.
  rewrite Hb. cbn. send. reflexivity.
Qed.

Lemma tryDispatch_misshapen {zod : Zod.Rendering} this srv req j e w :
  req_body req = BodyParsed j -> Zod.JsonRpcRequestSchema j = SafeParseError e ->
  unsent w ->
  tryDispatch this srv req w =
  (Normal tt,
   respond 200 "application/json"
     (JsonBody (errorResponse IdNull ErrorCode.InvalidParams "Invalid request format")) w).
Proof.
  intros Hb Hj Hw.
  unfold tryDispatch, with_local, try_catch, bind, outside, readRequestBody,
    set_local, get_local, gets, modify, ret, throw, respondToError.
  rewrite Hb, Hj. cbn. send. reflexivity.
Qed.

Lemma call_hook_run h e w :
  call_hook h e w =
  match h with
  | Some c => (c, record e w)
  | None => (Normal tt, w)
  end.
Proof. destruct h; reflexivity. Qed.

Lemma respondToError_unsent rid t w :
  unsent w ->
  exists c m,
    respondToError rid t w =
    (Normal tt, respond 200 "application/json" (JsonBody (errorResponse rid c m)) w).
Proof.
  intros Hw. unfold respondToError.
  destruct t as [[| | |] message|v]; send; eauto.
Qed.

(** ** Rules for triples *)

Section Triples.
Context {A B : Type}.

Lemma triple_ret (a : A) (P : World -> Prop) Q E :
  (forall w, P w -> Q a w) -> triple P (ret a) Q E.
Proof. intros H w Hw. apply H, Hw. Qed.

Lemma triple_bind (m : M World A) (k : A -> M World B) P Q' Q E :
  triple P m Q' E -> (forall a, triple (Q' a) (k a) Q E) -> triple P (bind m k) Q E.
Proof.
  intros Hm Hk w Hw. unfold bind. specialize (Hm w Hw).
  destruct (m w) as [[a|t] w']; [apply Hk, Hm | exact Hm].
Qed.

Lemma triple_try_catch (m : M World A) (h : Thrown -> M World A) P Q E' E :
  triple P m Q E' -> (forall t, triple (E' t) (h t) Q E) ->
  triple P (try_catch m h) Q E.
Proof.
  intros Hm Hh w Hw. unfold try_catch. specialize (Hm w Hw).
  destruct (m w) as [[a|t] w']; [exact Hm | apply Hh, Hm].
Qed.

Lemma triple_weaken (m : M World A) (P P' : World -> Prop) (Q Q' : A -> World -> Prop)
  (E E' : Thrown -> World -> Prop) :
  triple P' m Q' E' ->
  (forall w, P w -> P' w) -> (forall a w, Q' a w -> Q a w) ->
  (forall t w, E' t w -> E t w) ->
  triple P m Q E.
Proof.
  intros Hm HP HQ HE w Hw. specialize (Hm w (HP w Hw)).
  destruct (m w) as [[a|t] w']; [apply HQ, Hm | apply HE, Hm].
Qed.

Lemma triple_bind_ret (a : A) (k : A -> M World B) P Q E :
  triple P (k a) Q E -> triple P (bind (ret a) k) Q E.
Proof. intros H w Hw. exact (H w Hw). Qed.

Lemma triple_lift (c : Completion A) (P : World -> Prop) :
  triple P (lift c) (fun _ => P) (fun _ => P).
Proof. intros w Hw. unfold lift. destruct c; exact Hw. Qed.

End Triples.

Lemma triple_call_hook h e :
  triple idle (call_hook h e) (fun _ => idle) (fun _ => idle).
Proof.
  intros w Hw. rewrite call_hook_run. destruct h as [[a|t]|]; exact Hw.
Qed.

Lemma triple_emit e : triple idle (emit e) (fun _ => idle) (fun _ _ => False).
Proof. intros w Hw. exact Hw. Qed.

Lemma triple_performance_now :
  triple idle performance_now (fun _ => idle) (fun _ _ => False).
Proof. intros w Hw. exact Hw. Qed.

Lemma triple_sendJsonRpcProtocolError rid code message :
  triple idle (sendJsonRpcProtocolError rid code message)
    (fun _ w => response_id w = Some (id_to_json rid)) (fun _ _ => False).
Proof. intros w [Hw _]. send. reflexivity. Qed.

Lemma triple_sendJsonRpcResponse rid response :
  triple idle (sendJsonRpcResponse rid response)
    (fun _ w => response_id w = Some (id_to_json rid)) (fun _ _ => False).
Proof. intros w [Hw _]. send. reflexivity. Qed.


Lemma triple_recordToolError this toolName rawInput error startedAt :
  triple idle (recordToolError this toolName rawInput error startedAt)
    (fun _ => idle) (fun _ => idle).
Proof.
  intros w Hw. unfold recordToolError, elapsedSince, bind, performance_now, ret.
  rewrite call_hook_run.
  destruct (hook this onToolCallError) as [f|]; cbn [option_map]; [|exact Hw].
  destruct (f _ _ _ _); exact Hw.
Qed.

Lemma triple_recordToolSuccess this toolName rawInput result startedAt :
  triple idle (recordToolSuccess this toolName rawInput result startedAt)
    (fun _ => idle) (fun _ => idle).
Proof.
  intros w Hw. unfold recordToolSuccess, elapsedSince, bind, performance_now, ret.
  rewrite call_hook_run.
  destruct (hook this onToolCallFinished) as [f|]; cbn [option_map]; [|exact Hw].
  destruct (f _ _ _ _); exact Hw.
Qed.

(** ** The clock *)

Lemma next_reading_le w : now w <= next_reading w.
Proof. unfold next_reading. destruct (ticks w); lia. Qed.

Lemma reading_succ n w : reading (S n) w = next_reading (advance (Nat.iter n advance w)).
Proof. reflexivity. Qed.

Lemma reading_monotone n w : reading n w <= reading (S n) w.
Proof.
  rewrite reading_succ. unfold reading.
  apply (next_reading_le (advance (Nat.iter n advance w))).
Qed.

Lemma iter_advance_clock n w w' :
  now w = now w' -> ticks w = ticks w' ->
  now (Nat.iter n advance w) = now (Nat.iter n advance w') /\
  ticks (Nat.iter n advance w) = ticks (Nat.iter n advance w').
Proof.
  intros Hn Ht. induction n as [|n [IHn IHt]]; [split; assumption|].
  change (Nat.iter (S n) advance w) with (advance (Nat.iter n advance w)).
  change (Nat.iter (S n) advance w') with (advance (Nat.iter n advance w')).
  set (a := Nat.iter n advance w) in *. set (b := Nat.iter n advance w') in *.
  unfold advance, next_reading; cbn [now ticks]. rewrite IHn, IHt. split; reflexivity.
Qed.

Lemma reading_clock n w w' :
  now w = now w' -> ticks w = ticks w' -> reading n w = reading n w'.
Proof.
  intros Hn Ht. destruct (iter_advance_clock n w w' Hn Ht) as [Hn' Ht'].
  unfold reading, next_reading. rewrite Hn', Ht'. reflexivity.
Qed.

(** The world in which the dispatcher runs for a request that has arrived on
    a fresh response: nothing is written or recorded yet, and the clock is
    as at the start. *)
Lemma arrives_fresh {zod : Zod.Rendering} this srv req t0 ts r :
  arrives this req (new_world t0 ts) r ->
  exists w,
    unsent w /\ trace w = [] /\
    (forall n, reading n w = reading n (new_world t0 ts)) /\
    handleHttpRequest this srv req (new_world t0 ts) =
    try_catch (dispatch this srv r (id_or_null (id r)))
              (respondToError (id_or_null (id r))) w.
Proof.
  intros Ha.
  destruct (@handleHttpRequest_arrives _ this srv req (new_world t0 ts) r eq_refl Ha)
    as (w & (Hn & Hk & Ht & _ & _ & Hf) & ->).
  exists w. repeat split; try assumption.
  intros n. apply reading_clock; assumption.
Qed.

Lemma bind_ret {S A B} (a : A) (k : A -> M S B) s : bind (ret a) k s = k a s.
Proof. reflexivity. Qed.

Lemma bind_performance_now {B} (k : Z -> M World B) w :
  bind performance_now k w = k (next_reading w) (advance w).
Proof. reflexivity. Qed.

(** [handleToolCall] once the params, the tool and the outcome of the
    validation are known. *)
Lemma handleToolCall_rejected {zod : Zod.Rendering} this srv r p tool e w :
  Zod.CallToolParamsSchema (params r) = SafeParseSuccess p ->
  McpServer.getTool srv (name p) = Some tool ->
  safeParse (schema tool) (raw_input p) = SafeParseError e ->
  handleToolCall this srv r w =
  bind (recordToolError this (name p) (raw_input p) (AsString (zod_flatten_text e))
          (reading 0 w))
       (fun _ =>
          sendJsonRpcProtocolError (id_or_null (id r)) ErrorCode.InvalidParams
            ("Invalid tool arguments: " ++ zod_flatten_text e))
       (advance w).
Proof.
  intros Hp Ht Hv. unfold raw_input in *.
  unfold handleToolCall, parseToolCallParams. rewrite Hp, bind_ret. cbv beta iota zeta.
  rewrite Ht, bind_performance_now. unfold validateToolInput. rewrite Hv.
  unfold bind, ret, reading. change (Nat.iter 0 advance w) with w.
  destruct (recordToolError _ _ _ _ _ _) as [[[]|t] w1]; [|reflexivity].
  destruct (sendJsonRpcProtocolError _ _ _ _) as [[[]|t] w2]; reflexivity.
Qed.

Lemma handleToolCall_accepted {zod : Zod.Rendering} this srv r p tool input w :
  Zod.CallToolParamsSchema (params r) = SafeParseSuccess p ->
  McpServer.getTool srv (name p) = Some tool ->
  safeParse (schema tool) (raw_input p) = SafeParseSuccess (Some input) ->
  handleToolCall this srv r w =
  bind (call_hook (option_map (fun f => f (name p) (raw_input p)) (hook this onToolCallStarted))
          (ToolCallStarted (name p) (raw_input p)))
       (fun _ =>
          try_catch
            (bind (emit (HandlerCalled (name p) input)) (fun _ =>
             bind (lift (handler tool input)) (fun result =>
             bind (recordToolSuccess this (name p) (raw_input p) result (reading 0 w)) (fun _ =>
             sendJsonRpcResponse (id_or_null (id r)) (content_result result)))))
            (fun error =>
               bind (recordToolError this (name p) (raw_input p) (error_value error)
                       (reading 0 w))
                    (fun _ =>
                       sendJsonRpcProtocolError (id_or_null (id r)) ErrorCode.InternalError
                         (error_message error))))
       (advance w).
Proof.
  intros Hp Ht Hv. unfold raw_input in *.
  unfold handleToolCall, parseToolCallParams. rewrite Hp, bind_ret. cbv beta iota zeta.
  rewrite Ht, bind_performance_now. unfold validateToolInput. rewrite Hv, bind_ret.
  reflexivity.
Qed.

(** Running the two recorders. *)
Lemma recordToolError_run this toolName rawInput error startedAt w :
  recordToolError this toolName rawInput error startedAt w =
  let elapsed := next_reading w - startedAt in
  match hook this onToolCallError with
  | Some f =>
      (f toolName rawInput error elapsed,
       record (ToolCallError toolName rawInput error elapsed) (advance w))
  | None => (Normal tt, advance w)
  end.
Proof.
  unfold recordToolError, elapsedSince, bind, performance_now, ret. cbv beta iota zeta.
  rewrite call_hook_run. destruct (hook this onToolCallError); reflexivity.
Qed.

Lemma recordToolSuccess_run this toolName rawInput result startedAt w :
  recordToolSuccess this toolName rawInput result startedAt w =
  let elapsed := next_reading w - startedAt in
  match hook this onToolCallFinished with
  | Some f =>
      (f toolName rawInput result elapsed,
       record (ToolCallFinished toolName rawInput result elapsed) (advance w))
  | None => (Normal tt, advance w)
  end.
Proof.
  unfold recordToolSuccess, elapsedSince, bind, performance_now, ret. cbv beta iota zeta.
  rewrite call_hook_run. destruct (hook this onToolCallFinished); reflexivity.
Qed.

Lemma respondToError_caught rid t w :
  unsent w ->
  respondToError rid t w =
  (Normal tt, respond 200 "application/json" (caught_response rid t) w).
Proof.
  intros Hw. unfold respondToError, caught_response, caught_as.
  destruct t as [[| | |] message|v]; send; reflexivity.
Qed.

(* ================================================================== *)
(** ** tools/call: the tool is not registered *)

(** C6.  A [tools/call] that names a tool absent from the registry is answered
    with [InvalidParams] (-32602) and the message [Tool '<name>' not found];
    no hook is called and no handler runs. *)
Theorem tools_call_unknown_tool {zod : Zod.Rendering} this srv req t0 ts r p :
  arrives this req (new_world t0 ts) r ->
  method r = "tools/call" ->
  Zod.CallToolParamsSchema (params r) = SafeParseSuccess p ->
  McpServer.getTool srv (name p) = None ->
  let w' := snd (handleHttpRequest this srv req (new_world t0 ts)) in
  responded_with w' 200
    (JsonBody (errorResponse (id_or_null (id r)) ErrorCode.InvalidParams
                 ("Tool '" ++ name p ++ "' not found"))) /\
  trace w' = [].
Proof.
  intros Ha Hm Hp Ht.
  destruct (@handleHttpRequest_arrives _ this srv req (new_world t0 ts) r eq_refl Ha)
    as (w1 & Hs & ->).
  assert (Hu : unsent w1) by (eapply same_but_headers_unsent; [eassumption|reflexivity]).
  unfold try_catch, dispatch. rewrite Hm. cbn [String.eqb Ascii.eqb Bool.eqb].
  unfold handleToolCall, parseToolCallParams, bind, ret. rewrite Hp, Ht.
  send. cbn. split; [repeat split|].
  destruct Hs as (_ & _ & Htr & _). exact Htr.
Qed.

(** A call of a tool that is not registered, on the fixture. *)
Lemma tools_call_unknown_tool_witness :
  responded_with
    (Fixture.serve (Fixture.started None None) (Fixture.post (Fixture.call 3 "missing" [])))
    200
    (JsonBody (errorResponse (IdNumber 3) ErrorCode.InvalidParams "Tool 'missing' not found")) /\
  trace (Fixture.serve (Fixture.started None None)
           (Fixture.post (Fixture.call 3 "missing" []))) = [].
Proof.
  refine (@tools_call_unknown_tool _
            (Fixture.transport_of (Fixture.started None None))
            (server (Fixture.started None None))
            (Fixture.post (Fixture.call 3 "missing" [])) 0 [3%N; 5%N]
            {| id := Some (IdNumber 3); method := "tools/call";
               params := Some (JObject [("name", JString "missing");
                                        ("arguments", JObject [])]) |}
            {| name := "missing"; arguments := Some (JObject []) |} _ _ _ _).
  - repeat split. exists (Fixture.call 3 "missing" []). split; reflexivity.
  - reflexivity.
  - reflexivity.
  - reflexivity.
Defined.

(* ================================================================== *)
(** ** The envelope: malformed JSON and malformed shape *)

(** C1, as the code has it.  A [POST] to the MCP path whose body is JSON but
    not a JSON-RPC request is answered with [InvalidParams] (-32602) and the
    message [Invalid request format]; a body that is not JSON is answered with
    [ParseError] (-32700).  In both answers the id is [null]: the id of the
    request is only read off a body that has passed validation. *)
Theorem malformed_envelope {zod : Zod.Rendering} this srv req t0 ts :
  post_to_mcp this req (new_world t0 ts) ->
  let w' := snd (handleHttpRequest this srv req (new_world t0 ts)) in
  (forall j e,
      req_body req = BodyParsed j -> Zod.JsonRpcRequestSchema j = SafeParseError e ->
      responded_with w' 200
        (JsonBody (errorResponse IdNull ErrorCode.InvalidParams "Invalid request format")) /\
      trace w' = []) /\
  (forall message,
      req_body req = BodyMalformed message ->
      responded_with w' 200
        (JsonBody (errorResponse IdNull ErrorCode.ParseError "Invalid JSON")) /\
      trace w' = []).
Proof.
  intros Hp.
  destruct (@handleHttpRequest_post _ this srv req (new_world t0 ts) eq_refl Hp)
    as (w1 & Hs & ->).
  assert (Hu : unsent w1) by (eapply same_but_headers_unsent; [eassumption|reflexivity]).
  destruct Hs as (_ & _ & Htr & _). cbn in Htr.
  split.
  - intros j e Hb Hj. rewrite (tryDispatch_misshapen _ _ _ Hb Hj Hu).
    split; [apply respond_responded | exact Htr].
  - intros message Hb. rewrite (tryDispatch_malformed _ _ _ Hb Hu).
    split; [apply respond_responded | exact Htr].
Qed.

(* ================================================================== *)
(** ** The id of the answer *)

Lemma params_rejected_other {zod : Zod.Rendering} r :
  method r = "tools/list" \/ method r = "ping" -> params_rejected r = false.
Proof. unfold params_rejected. intros [-> | ->]; reflexivity. Qed.

Lemma params_rejected_initialize {zod : Zod.Rendering} r :
  method r = "initialize" ->
  params_rejected r =
  match Zod.InitializeParamsSchema (params r) with
  | SafeParseError _ => true
  | SafeParseSuccess _ => false
  end.
Proof.
  unfold params_rejected. intros ->. cbn.
  destruct (Zod.InitializeParamsSchema (params r)); reflexivity.
Qed.

Lemma params_rejected_call {zod : Zod.Rendering} r :
  method r = "tools/call" ->
  params_rejected r =
  match Zod.CallToolParamsSchema (params r) with
  | SafeParseError _ => true
  | SafeParseSuccess _ => false
  end.
Proof. unfold params_rejected. intros ->. reflexivity. Qed.

(** An answer carrying the id of the request is the expected one when the
    params were not rejected. *)
Lemma answered_with_request_id {zod : Zod.Rendering} srv r w :
  params_rejected r = false ->
  response_id w = Some (id_to_json (id_or_null (id r))) -> answered srv r w.
Proof. intros Hr Hw. left. unfold answered_id. rewrite Hr. exact Hw. Qed.

Lemma answered_with_null {zod : Zod.Rendering} srv r w :
  params_rejected r = true -> response_id w = Some JNull -> answered srv r w.
Proof. intros Hr Hw. left. unfold answered_id. rewrite Hr. exact Hw. Qed.

Ltac never_thrown :=
  let H := fresh in intros ? ? H; exact (False_ind _ H).

Ltac hook_step r Hr :=
  eapply triple_weaken;
  [ apply triple_call_hook
  | intros ? Hw; exact Hw
  | intros ? ? Hw; exact Hw
  | intros ? ? Hw; exact (conj Hw Hr) ].

Section IdOfTheAnswer.
Context {zod : Zod.Rendering}.
Variables (this : HttpTransport) (srv : McpServer.t) (r : JsonRpcRequest).

Lemma answer_request_id rid code message :
  params_rejected r = false -> rid = id_or_null (id r) ->
  triple idle (sendJsonRpcProtocolError rid code message)
    (fun _ => answered srv r) (pending r).
Proof.
  intros Hr ->.
  eapply triple_weaken; [apply triple_sendJsonRpcProtocolError| | |].
  - intros w Hw; exact Hw.
  - intros ? w Hw. apply answered_with_request_id; assumption.
  - never_thrown.
Qed.

Lemma answer_null code message :
  params_rejected r = true ->
  triple idle (sendJsonRpcProtocolError IdNull code message)
    (fun _ => answered srv r) (pending r).
Proof.
  intros Hr.
  eapply triple_weaken; [apply triple_sendJsonRpcProtocolError| | |].
  - intros w Hw; exact Hw.
  - intros ? w Hw. apply answered_with_null; assumption.
  - never_thrown.
Qed.

Lemma answer_result response :
  params_rejected r = false ->
  triple idle (sendJsonRpcResponse (id_or_null (id r)) response)
    (fun _ => answered srv r) (pending r).
Proof.
  intros Hr.
  eapply triple_weaken; [apply triple_sendJsonRpcResponse| | |].
  - intros w Hw; exact Hw.
  - intros ? w Hw. apply answered_with_request_id; assumption.
  - never_thrown.
Qed.

Lemma triple_handleInitialize :
  method r = "initialize" ->
  triple idle (handleInitialize this srv r) (fun _ => answered srv r) (pending r).
Proof.
  intros Hm. pose proof (params_rejected_initialize r Hm) as Hr.
  unfold handleInitialize.
  destruct (Zod.InitializeParamsSchema (params r)) as [data|e].
  - eapply triple_bind with (Q' := fun _ => idle).
    + hook_step r Hr.
    + intros _. apply answer_result, Hr.
  - apply answer_null, Hr.
Qed.

Lemma triple_handleToolsList :
  method r = "tools/list" ->
  triple idle (handleToolsList this srv r) (fun _ => answered srv r) (pending r).
Proof.
  intros Hm. pose proof (params_rejected_other r (or_introl Hm)) as Hr.
  unfold handleToolsList.
  eapply triple_bind with (Q' := fun _ => idle).
  - hook_step r Hr.
  - intros _. eapply triple_bind with (Q' := fun _ => idle).
    + eapply triple_weaken; [apply (triple_lift _ idle)| | |].
      * intros w Hw; exact Hw.
      * intros ? ? Hw; exact Hw.
      * intros ? ? Hw; exact (conj Hw Hr).
    + intros defs. apply answer_result, Hr.
Qed.

Lemma triple_handleToolCall :
  method r = "tools/call" ->
  triple idle (handleToolCall this srv r) (fun _ => answered srv r) (pending r).
Proof.
  intros Hm. pose proof (params_rejected_call r Hm) as Hr.
  unfold handleToolCall, parseToolCallParams.
  destruct (Zod.CallToolParamsSchema (params r)) as [p|e] eqn:Ep.
  2:{ eapply triple_bind with (Q' := fun p w => p = None /\ answered srv r w).
      - eapply triple_bind with (Q' := fun _ => answered srv r).
        + apply answer_null, Hr.
        + intros _. apply triple_ret. intros w Hw. split; [reflexivity | exact Hw].
      - intros p. apply triple_weaken with
          (P' := fun w => p = None /\ answered srv r w)
          (Q' := fun _ => answered srv r) (E' := pending r); auto.
        intros w [-> Hw]. exact Hw. }
  apply triple_bind_ret. cbv beta iota zeta.
  destruct (McpServer.getTool srv (name p)) as [tool|] eqn:Et.
  2:{ apply answer_request_id; [exact Hr | reflexivity]. }
  eapply triple_bind with (Q' := fun _ => idle).
  { eapply triple_weaken; [apply triple_performance_now| | |]; auto. never_thrown. }
  intros start.
  eapply triple_bind with
    (Q' := fun parsed w =>
             match parsed with Some _ => idle w | None => answered srv r w end).
  - unfold validateToolInput.
    destruct (safeParse (schema tool)
                match arguments p with Some a => a | None => JObject [] end)
      as [[input|]|e] eqn:Ev.
    + apply triple_ret. auto.
    + apply triple_ret. intros w [Hu Hb]. right. split; [exact Hm|]. split; [|exact Hb].
      exists p, tool. repeat split; assumption.
    + eapply triple_bind with (Q' := fun _ => idle).
      * eapply triple_weaken; [apply triple_recordToolError| | |]; auto.
        intros ? ? Hw; exact (conj Hw Hr).
      * intros _. eapply triple_bind with (Q' := fun _ => answered srv r).
        -- apply answer_request_id; [exact Hr | reflexivity].
        -- intros _. apply triple_ret. auto.
  - intros [input|]; [|apply triple_ret; auto].
    eapply triple_bind with (Q' := fun _ => idle); [hook_step r Hr|].
    intros _. eapply triple_try_catch with (E' := fun _ => idle).
    + eapply triple_bind with (Q' := fun _ => idle).
      { eapply triple_weaken; [apply triple_emit| | |]; auto. never_thrown. }
      intros _. eapply triple_bind with (Q' := fun _ => idle).
      { apply triple_lift. }
      intros result. eapply triple_bind with (Q' := fun _ => idle).
      { apply triple_recordToolSuccess. }
      intros _. eapply triple_weaken; [apply answer_result, Hr| | |]; auto.
      intros ? ? [Hw _]; exact Hw.
    + intros t. eapply triple_bind with (Q' := fun _ => idle).
      * eapply triple_weaken; [apply triple_recordToolError| | |]; auto.
        intros ? ? Hw; exact (conj Hw Hr).
      * intros _. apply answer_request_id; [exact Hr | reflexivity].
Qed.

End IdOfTheAnswer.

Lemma triple_dispatch {zod : Zod.Rendering} this srv r :
  recognized (method r) ->
  triple idle (dispatch this srv r (id_or_null (id r))) (fun _ => answered srv r) (pending r).
Proof.
  intros [Hm | [Hm | [Hm | Hm]]]; unfold dispatch; rewrite Hm; cbn [String.eqb Ascii.eqb Bool.eqb].
  - apply triple_handleInitialize, Hm.
  - apply triple_handleToolsList, Hm.
  - apply triple_handleToolCall, Hm.
  - apply answer_result, params_rejected_other. right. exact Hm.
Qed.

(** The id of the answer to a well-formed request with one of the four
    methods: the id of the request ([null] when it has none) on every path
    but two, the answers of [handleInitialize] and [parseToolCallParams] to
    params that fail the schema of the method, which carry the id [null];
    the one call that is left without any answer is a [tools/call] whose
    tool schema accepts the arguments and yields [undefined]. *)
Lemma id_of_the_answer {zod : Zod.Rendering} this srv req t0 ts r :
  arrives this req (new_world t0 ts) r ->
  recognized (method r) ->
  let w' := snd (handleHttpRequest this srv req (new_world t0 ts)) in
  response_id w' = Some (id_to_json (if params_rejected r then IdNull else id_or_null (id r))) \/
  (method r = "tools/call" /\ validates_to_undefined srv r /\ body (res w') = None).
Proof.
  intros Ha Hm.
  destruct (@handleHttpRequest_arrives _ this srv req (new_world t0 ts) r eq_refl Ha)
    as (w1 & Hs & ->).
  assert (Hi : idle w1).
  { destruct Hs as (_ & _ & _ & _ & Hb & Hf). split; [exact Hf | exact Hb]. }
  assert (H : triple idle
                (try_catch (dispatch this srv r (id_or_null (id r)))
                           (respondToError (id_or_null (id r))))
                (fun _ => answered srv r) (fun _ _ => False)).
  { eapply triple_try_catch; [apply triple_dispatch, Hm|].
    intros t w [[Hw _] Hr].
    destruct (respondToError_unsent (id_or_null (id r)) t Hw) as (c & m & ->).
    apply answered_with_request_id; [exact Hr | reflexivity]. }
  specialize (H w1 Hi). cbn zeta.
  destruct (try_catch _ _ w1) as [[a|t] w2]; [exact H | destruct H].
Qed.

(* ================================================================== *)
(** ** tools/call: from the arguments to the answer *)

Ltac to_handleToolCall Hm :=
  unfold dispatch; rewrite Hm; cbn [String.eqb Ascii.eqb Bool.eqb].

Ltac respond_to_error :=
  match goal with
  | |- context [respondToError ?i ?t ?w] =>
      let c := fresh "c" in
      let m := fresh "m" in
      let H := fresh "H" in
      destruct (@respondToError_unsent i t w) as (c & m & H); [unsent_now | rewrite H]
  end.

(** C5, as the code has it.  When the arguments of a [tools/call] fail the
    schema of the named tool, [onToolCallError] is called, if present, with
    the serialized diagnostics and the time elapsed since the start reading;
    neither [onToolCallStarted] nor the handler is called; and, provided
    that hook returns normally, the answer is [InvalidParams] (-32602) with
    the diagnostics in its message. *)
Theorem tools_call_invalid_arguments {zod : Zod.Rendering} this srv req t0 ts r p tool e :
  arrives this req (new_world t0 ts) r ->
  method r = "tools/call" ->
  Zod.CallToolParamsSchema (params r) = SafeParseSuccess p ->
  McpServer.getTool srv (name p) = Some tool ->
  safeParse (schema tool) (raw_input p) = SafeParseError e ->
  let w' := snd (handleHttpRequest this srv req (new_world t0 ts)) in
  let elapsed := reading 1 (new_world t0 ts) - reading 0 (new_world t0 ts) in
  let diagnostics := AsString (zod_flatten_text e) in
  trace w' =
    fired (hook this onToolCallError)
      (ToolCallError (name p) (raw_input p) diagnostics elapsed) /\
  (forall n i, ~ In (HandlerCalled n i) (trace w')) /\
  (forall n i, ~ In (ToolCallStarted n i) (trace w')) /\
  (returns_normally (hook this onToolCallError)
     (fun f => f (name p) (raw_input p) diagnostics elapsed) ->
   responded_with w' 200
     (JsonBody (errorResponse (id_or_null (id r)) ErrorCode.InvalidParams
                  ("Invalid tool arguments: " ++ zod_flatten_text e)))).
Proof.
  intros Ha Hm Hp Ht Hv.
  destruct (arrives_fresh srv Ha) as (w & Hu & Htr & Hrd & ->).
  cbv zeta. rewrite <- (Hrd 0%nat), <- (Hrd 1%nat).
  unfold try_catch. to_handleToolCall Hm.
  rewrite (handleToolCall_rejected this srv r w Hp Ht Hv).
  unfold bind. rewrite recordToolError_run. cbv zeta.
  change (next_reading (advance w)) with (reading 1 w).
  destruct (hook this onToolCallError) as [f|]; cbn [fired returns_normally].
  - destruct (f _ _ _ _) as [[]|t] eqn:Ef.
    + send. cbn. rewrite Htr. cbn.
      split; [reflexivity|]. split; [intros n i [Hin|[]]; discriminate Hin|].
      split; [intros n i [Hin|[]]; discriminate Hin|]. intros _. repeat split.
    + respond_to_error. cbn. rewrite Htr. cbn.
      split; [reflexivity|]. split; [intros n i [Hin|[]]; discriminate Hin|].
      split; [intros n i [Hin|[]]; discriminate Hin|]. intros Hn. discriminate Hn.
  - send. cbn. rewrite Htr.
    split; [reflexivity|]. split; [intros n i []|].
    split; [intros n i []|]. intros _. repeat split.
Qed.

(** C7, as the code has it.  When the handler of a [tools/call] raises,
    [onToolCallError] is called, if present, with the raised error (an
    [Error] as it is, anything else as the fallback message) and an elapsed
    time that is not negative; and, provided that hook returns normally, the
    answer is [InternalError] (-32603) with the message of the error (the
    fallback message when what was raised is not an [Error]). *)
Theorem tools_call_handler_raises {zod : Zod.Rendering} this srv req t0 ts r p tool input t :
  arrives this req (new_world t0 ts) r ->
  method r = "tools/call" ->
  Zod.CallToolParamsSchema (params r) = SafeParseSuccess p ->
  McpServer.getTool srv (name p) = Some tool ->
  safeParse (schema tool) (raw_input p) = SafeParseSuccess (Some input) ->
  returns_normally (hook this onToolCallStarted) (fun f => f (name p) (raw_input p)) ->
  handler tool input = Throw t ->
  let w' := snd (handleHttpRequest this srv req (new_world t0 ts)) in
  let elapsed := reading 1 (new_world t0 ts) - reading 0 (new_world t0 ts) in
  trace w' =
    (fired (hook this onToolCallStarted) (ToolCallStarted (name p) (raw_input p)) ++
     [HandlerCalled (name p) input] ++
     fired (hook this onToolCallError)
       (ToolCallError (name p) (raw_input p) (error_value t) elapsed))%list /\
  0 <= elapsed /\
  (returns_normally (hook this onToolCallError)
     (fun f => f (name p) (raw_input p) (error_value t) elapsed) ->
   responded_with w' 200
     (JsonBody (errorResponse (id_or_null (id r)) ErrorCode.InternalError
                  (error_message t)))).
Proof.
  intros Ha Hm Hp Ht Hv Hs Hh.
  pose proof (reading_monotone 0 (new_world t0 ts)) as Hmono.
  destruct (arrives_fresh srv Ha) as (w & Hu & Htr & Hrd & E).
  cbv zeta. rewrite <- (Hrd 0%nat), <- (Hrd 1%nat) in Hmono |- *.
  clear Hrd Ha.
  assert (Hrun : forall w1, unsent w1 -> reading 0 w1 = reading 1 w ->
            try_catch
              (try_catch
                 (bind (emit (HandlerCalled (name p) input)) (fun _ =>
                  bind (lift (handler tool input)) (fun result =>
                  bind (recordToolSuccess this (name p) (raw_input p) result
                          (reading 0 w)) (fun _ =>
                  sendJsonRpcResponse (id_or_null (id r)) (content_result result)))))
                 (fun error =>
                    bind (recordToolError this (name p) (raw_input p)
                            (error_value error) (reading 0 w))
                         (fun _ =>
                            sendJsonRpcProtocolError (id_or_null (id r))
                              ErrorCode.InternalError (error_message error))))
              (respondToError (id_or_null (id r))) w1 =
            try_catch
              (bind (recordToolError this (name p) (raw_input p) (error_value t)
                       (reading 0 w))
                    (fun _ =>
                       sendJsonRpcProtocolError (id_or_null (id r))
                         ErrorCode.InternalError (error_message t)))
              (respondToError (id_or_null (id r)))
              (record (HandlerCalled (name p) input) w1)).
  { intros w1 Hu1 Hr1. unfold try_catch, bind at 1 2, emit, modify, lift.
    rewrite Hh. reflexivity. }
  assert (Hend : forall w1, unsent w1 -> reading 0 w1 = reading 1 w ->
            let w' :=
              snd (try_catch
                     (bind (recordToolError this (name p) (raw_input p) (error_value t)
                              (reading 0 w))
                           (fun _ =>
                              sendJsonRpcProtocolError (id_or_null (id r))
                                ErrorCode.InternalError (error_message t)))
                     (respondToError (id_or_null (id r))) w1) in
            trace w' =
              (trace w1 ++
               fired (hook this onToolCallError)
                 (ToolCallError (name p) (raw_input p) (error_value t)
                    (reading 1 w - reading 0 w)))%list /\
            (returns_normally (hook this onToolCallError)
               (fun f => f (name p) (raw_input p) (error_value t)
                           (reading 1 w - reading 0 w)) ->
             responded_with w' 200
               (JsonBody (errorResponse (id_or_null (id r)) ErrorCode.InternalError
                            (error_message t))))).
  { intros w1 Hu1 Hr1. cbv zeta. unfold try_catch, bind.
    rewrite recordToolError_run. cbv zeta.
    change (next_reading w1) with (reading 0 w1). rewrite Hr1.
    destruct (hook this onToolCallError) as [f|]; cbn [fired returns_normally].
    - destruct (f _ _ _ _) as [[]|t1] eqn:Ef.
      + send. cbn. split; [reflexivity|]. intros _. repeat split.
      + respond_to_error. cbn. split; [reflexivity|]. intros Hn. discriminate Hn.
    - send. cbn. rewrite app_nil_r. split; [reflexivity|]. intros _. repeat split. }
  assert (Eall : handleHttpRequest this srv req (new_world t0 ts) =
            try_catch
              (bind (recordToolError this (name p) (raw_input p) (error_value t)
                       (reading 0 w))
                    (fun _ =>
                       sendJsonRpcProtocolError (id_or_null (id r))
                         ErrorCode.InternalError (error_message t)))
              (respondToError (id_or_null (id r)))
              (record (HandlerCalled (name p) input)
                 (match hook this onToolCallStarted with
                  | Some _ => record (ToolCallStarted (name p) (raw_input p)) (advance w)
                  | None => advance w
                  end))).
  { rewrite E. unfold try_catch at 1. to_handleToolCall Hm.
    rewrite (handleToolCall_accepted this srv r w Hp Ht Hv).
    unfold bind at 1. rewrite call_hook_run.
    destruct (hook this onToolCallStarted) as [f|]; cbn [option_map returns_normally] in *.
    - rewrite Hs. apply Hrun; [unsent_now | reflexivity].
    - apply Hrun; [unsent_now | reflexivity]. }
  rewrite Eall.
  destruct (Hend (record (HandlerCalled (name p) input)
                 (match hook this onToolCallStarted with
                  | Some _ => record (ToolCallStarted (name p) (raw_input p)) (advance w)
                  | None => advance w
                  end))) as [H1 H2].
  - destruct (hook this onToolCallStarted); unsent_now.
  - destruct (hook this onToolCallStarted); reflexivity.
  - split; [|split; [lia | exact H2]].
    cbv zeta in H1. rewrite H1.
    destruct (hook this onToolCallStarted); cbn [trace record advance fired];
      rewrite Htr; cbn [app]; rewrite <- ?app_assoc; reflexivity.
Qed.

(** C4, as the code has it.  When the handler of a [tools/call] completes,
    the answer is the success envelope [{ content: result }] provided the
    hooks called on the way ([onToolCallStarted], [onToolCallFinished])
    return normally.  A failure of a hook is not swallowed: when
    [onToolCallFinished] throws, [onToolCallError] is called, if present,
    with what the hook threw and the time elapsed at its call; then, when
    that hook is absent or returns, the call is answered like a failure of
    the handler, with [InternalError] (-32603) and the message of what
    [onToolCallFinished] threw, and when it throws as well, with the answer
    of the [catch] clause of [handleHttpRequest] for what it threw. *)
Theorem tools_call_success {zod : Zod.Rendering} this srv req t0 ts r p tool input result :
  arrives this req (new_world t0 ts) r ->
  method r = "tools/call" ->
  Zod.CallToolParamsSchema (params r) = SafeParseSuccess p ->
  McpServer.getTool srv (name p) = Some tool ->
  safeParse (schema tool) (raw_input p) = SafeParseSuccess (Some input) ->
  returns_normally (hook this onToolCallStarted) (fun f => f (name p) (raw_input p)) ->
  handler tool input = Normal result ->
  let w' := snd (handleHttpRequest this srv req (new_world t0 ts)) in
  let elapsed := reading 1 (new_world t0 ts) - reading 0 (new_world t0 ts) in
  let later := reading 2 (new_world t0 ts) - reading 0 (new_world t0 ts) in
  let so_far :=
    (fired (hook this onToolCallStarted) (ToolCallStarted (name p) (raw_input p)) ++
     [HandlerCalled (name p) input] ++
     fired (hook this onToolCallFinished)
       (ToolCallFinished (name p) (raw_input p) result elapsed))%list in
  (returns_normally (hook this onToolCallFinished)
     (fun f => f (name p) (raw_input p) result elapsed) ->
   responded_with w' 200
     (JsonBody (jsonResponse (id_or_null (id r)) (content_result result))) /\
   trace w' = so_far) /\
  (forall f t,
      hook this onToolCallFinished = Some f ->
      f (name p) (raw_input p) result elapsed = Throw t ->
      trace w' =
        (so_far ++
         fired (hook this onToolCallError)
           (ToolCallError (name p) (raw_input p) (error_value t) later))%list /\
      (returns_normally (hook this onToolCallError)
         (fun g => g (name p) (raw_input p) (error_value t) later) ->
       responded_with w' 200
         (JsonBody (errorResponse (id_or_null (id r)) ErrorCode.InternalError
                      (error_message t)))) /\
      (forall g t2,
          hook this onToolCallError = Some g ->
          g (name p) (raw_input p) (error_value t) later = Throw t2 ->
          responded_with w' 200 (caught_response (id_or_null (id r)) t2))).
Proof.
  intros Ha Hm Hp Ht Hv Hs Hh.
  destruct (arrives_fresh srv Ha) as (w & Hu & Htr & Hrd & E).
  cbv zeta. rewrite <- (Hrd 0%nat), <- (Hrd 1%nat), <- (Hrd 2%nat).
  clear Hrd Ha.
  set (w1 := match hook this onToolCallStarted with
             | Some _ => record (ToolCallStarted (name p) (raw_input p)) (advance w)
             | None => advance w
             end).
  assert (Hu1 : unsent w1) by (subst w1; destruct (hook this onToolCallStarted); unsent_now).
  assert (Hr1 : reading 0 w1 = reading 1 w /\ reading 1 w1 = reading 2 w)
    by (subst w1; destruct (hook this onToolCallStarted); split; reflexivity).
  assert (Ht1 : trace w1 =
                fired (hook this onToolCallStarted)
                  (ToolCallStarted (name p) (raw_input p))).
  { subst w1. destruct (hook this onToolCallStarted); cbn [trace record advance fired];
      rewrite Htr; reflexivity. }
  assert (Eall : handleHttpRequest this srv req (new_world t0 ts) =
            try_catch
              (try_catch
                 (bind (recordToolSuccess this (name p) (raw_input p) result (reading 0 w))
                    (fun _ =>
                       sendJsonRpcResponse (id_or_null (id r)) (content_result result)))
                 (fun error =>
                    bind (recordToolError this (name p) (raw_input p)
                            (error_value error) (reading 0 w))
                         (fun _ =>
                            sendJsonRpcProtocolError (id_or_null (id r))
                              ErrorCode.InternalError (error_message error))))
              (respondToError (id_or_null (id r)))
              (record (HandlerCalled (name p) input) w1)).
  { rewrite E. unfold try_catch at 1. to_handleToolCall Hm.
    rewrite (handleToolCall_accepted this srv r w Hp Ht Hv).
    unfold bind at 1. rewrite call_hook_run. subst w1.
    destruct (hook this onToolCallStarted) as [f|]; cbn [option_map returns_normally] in *.
    - rewrite Hs. unfold try_catch, bind at 1 2, emit, modify, lift. rewrite Hh. reflexivity.
    - unfold try_catch, bind at 1 2, emit, modify, lift. rewrite Hh. reflexivity. }
  rewrite Eall. clear Eall E.
  destruct Hr1 as [Hr0 Hr1]. clearbody w1.
  unfold try_catch, bind. rewrite recordToolSuccess_run. cbv zeta.
  change (next_reading (record (HandlerCalled (name p) input) w1)) with (reading 0 w1).
  rewrite Hr0.
  destruct (hook this onToolCallFinished) as [f|]; cbn [fired returns_normally].
  - split.
    + intros Hf. rewrite Hf. send. cbn. rewrite Ht1, <- app_assoc.
      split; [repeat split | reflexivity].
    + intros f' t Ef Hthrow. injection Ef as <-. rewrite Hthrow.
      rewrite recordToolError_run. cbv zeta.
      change (next_reading
                (record (ToolCallFinished (name p) (raw_input p) result
                           (reading 1 w - reading 0 w))
                   (advance (record (HandlerCalled (name p) input) w1))))
        with (reading 1 w1).
      rewrite Hr1.
      destruct (hook this onToolCallError) as [g|]; cbn [fired returns_normally].
      * destruct (g _ _ _ _) as [[]|t2] eqn:Eg.
        -- send. cbn. rewrite Ht1, <- !app_assoc.
           split; [reflexivity|]. split; [intros _; repeat split|].
           intros g' t2' Eg' Hthrow2. injection Eg' as <-.
           rewrite Eg in Hthrow2. discriminate Hthrow2.
        -- rewrite respondToError_caught by unsent_now. cbn. rewrite Ht1, <- !app_assoc.
           split; [reflexivity|]. split; [intros Hn; discriminate Hn|].
           intros g' t2' Eg' Hthrow2. injection Eg' as <-.
           rewrite Eg in Hthrow2. injection Hthrow2 as <-. repeat split.
      * send. cbn. rewrite Ht1, app_nil_r, <- !app_assoc.
        split; [reflexivity|]. split; [intros _; repeat split|].
        intros g t2 Eg. discriminate Eg.
  - split.
    + intros _. send. cbn. rewrite Ht1.
      split; [repeat split | reflexivity].
    + intros f t Ef. discriminate Ef.
Qed.

(* ================================================================== *)
(** ** The statements on the example server *)

Ltac arrival :=
  split; [reflexivity|];
  split; [reflexivity|];
  split; [reflexivity|];
  eexists; split; reflexivity.

(** C1: a body with the wrong protocol version and a recoverable id 7 is
    answered with -32602 and the id [null], not with -32700 and 7. *)
Lemma wrong_version_is_not_a_parse_error :
  post_to_mcp (Fixture.transport_of Fixture.plain) (Fixture.post Fixture.wrong_version)
    Fixture.fresh /\
  Zod.JsonRpcRequestSchema Fixture.wrong_version =
    SafeParseError (Zod.error [Zod.issue ["jsonrpc"] Zod.InvalidLiteral]) /\
  Js.get_member Fixture.wrong_version "id" = Some (JNum 7) /\
  response_error_code (Fixture.serve Fixture.plain (Fixture.post Fixture.wrong_version)) =
    Some (JNum ErrorCode.InvalidParams) /\
  response_error_code (Fixture.serve Fixture.plain (Fixture.post Fixture.wrong_version)) <>
    Some (JNum ErrorCode.ParseError) /\
  response_id (Fixture.serve Fixture.plain (Fixture.post Fixture.wrong_version)) =
    Some JNull.
Proof.
  split; [repeat split|]. split; [reflexivity|]. split; [reflexivity|].
  split; [reflexivity|]. split; [|reflexivity].
  vm_compute. discriminate.
Qed.

Lemma malformed_envelope_witness :
  responded_with (Fixture.serve Fixture.plain (Fixture.post Fixture.wrong_version)) 200
    (JsonBody (errorResponse IdNull ErrorCode.InvalidParams "Invalid request format")) /\
  trace (Fixture.serve Fixture.plain (Fixture.post Fixture.wrong_version)) = [].
Proof.
  refine (proj1 (@malformed_envelope _ (Fixture.transport_of Fixture.plain)
                   (server Fixture.plain) (Fixture.post Fixture.wrong_version)
                   0 [3%N; 5%N] _) Fixture.wrong_version _ _ _).
  - repeat split.
  - reflexivity.
  - reflexivity.
Defined.

(** C3.  The id of the request is lost on two sibling lines.  [initialize]
    with the id 1 and without params is a well-formed request with one of
    the four methods, and the [ParseError] that answers it carries the id
    [null], not 1; so does the answer to a [tools/call] without params.
    The same handlers use the id of the request on their other paths: the
    result of [initialize], the answer for an unknown tool, and the answer
    of the [catch] clause when a hook throws. *)
Theorem parse_error_answers_drop_the_request_id :
  arrives (Fixture.transport_of Fixture.plain) (Fixture.post Fixture.bare_initialize)
    Fixture.fresh (Fixture.parsed 1 "initialize" None) /\
  recognized (method (Fixture.parsed 1 "initialize" None)) /\
  response_error_code (Fixture.serve Fixture.plain (Fixture.post Fixture.bare_initialize)) =
    Some (JNum ErrorCode.ParseError) /\
  response_id (Fixture.serve Fixture.plain (Fixture.post Fixture.bare_initialize)) =
    Some JNull /\
  response_id (Fixture.serve Fixture.plain (Fixture.post Fixture.bare_initialize)) <>
    Some (id_to_json (id_or_null (id (Fixture.parsed 1 "initialize" None)))) /\
  response_id
    (Fixture.serve Fixture.plain (Fixture.post (Fixture.envelope 2 "tools/call" []))) =
    Some JNull /\
  response_id (Fixture.serve Fixture.plain (Fixture.post hello)) = Some (JNum 1) /\
  response_id
    (Fixture.serve Fixture.plain (Fixture.post (Fixture.call 3 "missing" []))) =
    Some (JNum 3) /\
  response_id
    (Fixture.serve started_fails (Fixture.post (Fixture.call 2 "echo" Fixture.hi))) =
    Some (JNum 2).
Proof.
  split; [arrival|]. split; [left; reflexivity|]. split; [reflexivity|].
  split; [reflexivity|]. split; [vm_compute; discriminate|].
  repeat split.
Qed.

(** C4: the handler of [echo] completes, [onToolCallFinished] throws,
    [onToolCallError] is called with what it threw, and the answer is an
    error instead of the success envelope. *)
Lemma failing_finished_hook_changes_the_response :
  handler Fixture.echo (JObject Fixture.hi) = Normal [TextToolResponse "hi"] /\
  trace (Fixture.serve Fixture.finished_fails
           (Fixture.post (Fixture.call 2 "echo" Fixture.hi))) =
    [HandlerCalled "echo" (JObject Fixture.hi);
     ToolCallFinished "echo" (JObject Fixture.hi) [TextToolResponse "hi"] 5;
     ToolCallError "echo" (JObject Fixture.hi) (AsError PlainError "hook failed") 5] /\
  body (res (Fixture.serve Fixture.finished_fails
               (Fixture.post (Fixture.call 2 "echo" Fixture.hi)))) =
    Some (JsonBody (errorResponse (IdNumber 2) ErrorCode.InternalError "hook failed")) /\
  body (res (Fixture.serve Fixture.finished_fails
               (Fixture.post (Fixture.call 2 "echo" Fixture.hi)))) <>
    Some (JsonBody (jsonResponse (IdNumber 2) (content_result [TextToolResponse "hi"]))).
Proof.
  split; [reflexivity|]. split; [reflexivity|]. split; [reflexivity|].
  vm_compute. discriminate.
Qed.

Lemma tools_call_success_witness :
  responded_with
    (Fixture.serve Fixture.observed (Fixture.post (Fixture.call 2 "echo" Fixture.hi))) 200
    (JsonBody (jsonResponse (IdNumber 2) (content_result [TextToolResponse "hi"]))) /\
  trace (Fixture.serve Fixture.observed (Fixture.post (Fixture.call 2 "echo" Fixture.hi))) =
    [ToolCallStarted "echo" (JObject Fixture.hi);
     HandlerCalled "echo" (JObject Fixture.hi);
     ToolCallFinished "echo" (JObject Fixture.hi) [TextToolResponse "hi"] 5].
Proof.
  refine (proj1 (@tools_call_success _ (Fixture.transport_of Fixture.observed)
                   (server Fixture.observed)
                   (Fixture.post (Fixture.call 2 "echo" Fixture.hi)) 0 [3%N; 5%N]
                   (Fixture.parsed_call 2 "echo" Fixture.hi)
                   (Fixture.call_params "echo" Fixture.hi) Fixture.echo
                   (JObject Fixture.hi) [TextToolResponse "hi"] _ _ _ _ _ _ _) _).
  - arrival.
  - reflexivity.
  - reflexivity.
  - reflexivity.
  - reflexivity.
  - reflexivity.
  - reflexivity.
  - reflexivity.
Defined.

(** C5: the arguments of the call fail the schema of [echo],
    [onToolCallError] throws, and the answer is [InternalError] instead of
    [InvalidParams]. *)
Lemma failing_error_hook_hides_the_diagnostics :
  safeParse (schema Fixture.echo) (JObject []) = SafeParseError Fixture.diagnostics /\
  response_error_code
    (Fixture.serve Fixture.error_fails (Fixture.post (Fixture.call 2 "echo" []))) =
    Some (JNum ErrorCode.InternalError) /\
  body (res (Fixture.serve Fixture.error_fails (Fixture.post (Fixture.call 2 "echo" [])))) <>
    Some (JsonBody
            (errorResponse (IdNumber 2) ErrorCode.InvalidParams
               ("Invalid tool arguments: " ++ zod_flatten_text Fixture.diagnostics))).
Proof.
  split; [reflexivity|]. split; [reflexivity|].
  vm_compute. discriminate.
Qed.

Lemma tools_call_invalid_arguments_witness :
  trace (Fixture.serve Fixture.observed (Fixture.post (Fixture.call 2 "echo" []))) =
    [ToolCallError "echo" (JObject [])
       (AsString (zod_flatten_text Fixture.diagnostics)) 5] /\
  responded_with
    (Fixture.serve Fixture.observed (Fixture.post (Fixture.call 2 "echo" []))) 200
    (JsonBody
       (errorResponse (IdNumber 2) ErrorCode.InvalidParams
          ("Invalid tool arguments: " ++ zod_flatten_text Fixture.diagnostics))).
Proof.
  destruct (@tools_call_invalid_arguments _ (Fixture.transport_of Fixture.observed)
              (server Fixture.observed) (Fixture.post (Fixture.call 2 "echo" []))
              0 [3%N; 5%N] (Fixture.parsed_call 2 "echo" [])
              (Fixture.call_params "echo" []) Fixture.echo Fixture.diagnostics)
    as (Htrace & _ & _ & Hanswer).
  - arrival.
  - reflexivity.
  - reflexivity.
  - reflexivity.
  - reflexivity.
  - split; [exact Htrace | apply Hanswer; reflexivity].
Defined.

(** C7: the handler of [explode] raises [boom], [onToolCallError] throws,
    and the answer does not carry the message of the raised error. *)
Lemma failing_error_hook_hides_the_raised_message :
  handler Fixture.explode (JObject Fixture.hi) = Throw (ThrownError PlainError "boom") /\
  In (HandlerCalled "explode" (JObject Fixture.hi))
    (trace (Fixture.serve Fixture.error_fails
              (Fixture.post (Fixture.call 2 "explode" Fixture.hi)))) /\
  body (res (Fixture.serve Fixture.error_fails
               (Fixture.post (Fixture.call 2 "explode" Fixture.hi)))) =
    Some (JsonBody
            (errorResponse (IdNumber 2) ErrorCode.InternalError "Internal server error")) /\
  body (res (Fixture.serve Fixture.error_fails
               (Fixture.post (Fixture.call 2 "explode" Fixture.hi)))) <>
    Some (JsonBody (errorResponse (IdNumber 2) ErrorCode.InternalError "boom")).
Proof.
  split; [reflexivity|]. split; [vm_compute; auto|]. split; [reflexivity|].
  vm_compute. discriminate.
Qed.

Lemma tools_call_handler_raises_witness :
  trace (Fixture.serve Fixture.observed
           (Fixture.post (Fixture.call 2 "explode" Fixture.hi))) =
    [ToolCallStarted "explode" (JObject Fixture.hi);
     HandlerCalled "explode" (JObject Fixture.hi);
     ToolCallError "explode" (JObject Fixture.hi) (AsError PlainError "boom") 5] /\
  responded_with
    (Fixture.serve Fixture.observed (Fixture.post (Fixture.call 2 "explode" Fixture.hi)))
    200 (JsonBody (errorResponse (IdNumber 2) ErrorCode.InternalError "boom")).
Proof.
  destruct (@tools_call_handler_raises _ (Fixture.transport_of Fixture.observed)
              (server Fixture.observed)
              (Fixture.post (Fixture.call 2 "explode" Fixture.hi))
              0 [3%N; 5%N] (Fixture.parsed_call 2 "explode" Fixture.hi)
              (Fixture.call_params "explode" Fixture.hi) Fixture.explode
              (JObject Fixture.hi) (ThrownError PlainError "boom"))
    as (Htrace & _ & Hanswer).
  - arrival.
  - reflexivity.
  - reflexivity.
  - reflexivity.
  - reflexivity.
  - reflexivity.
  - reflexivity.
  - split; [exact Htrace | apply Hanswer; reflexivity].
Defined.

(* ================================================================== *)
(** ** Paths other than the MCP path *)

(** Whatever routes the transport was given, a request that is not a
    preflight and whose path is not the MCP path is answered 404. *)
Lemma other_path_is_not_found {zod : Zod.Rendering} this srv req w :
  unsent w ->
  fst (ensureCors this req w) = Normal true ->
  req_method req <> "OPTIONS" ->
  read (Options.path (options this)) <> Some (requestPath req) ->
  exists w1,
    same_but_headers w w1 /\
    handleHttpRequest this srv req w =
    (Normal tt, respond 404 "text/plain" (TextBody "Not found") w1).
Proof.
  intros Hw Hc Hm Hp.
  destruct (ensureCors this req w) as [c w1] eqn:E. cbn in Hc. subst c.
  pose proof (ensureCors_passes _ _ Hw E) as Hs.
  exists w1. split; [exact Hs|].
  unfold handleHttpRequest, bind. rewrite E. cbn [negb].
  unfold canHandle.
  destruct (String.eqb (req_method req) "OPTIONS") eqn:Eo.
  { apply String.eqb_eq in Eo. contradiction. }
  assert (Hne : match read (Options.path (options this)) with
                | Some p => String.eqb (requestPath req) p
                | None => false
                end = false).
  { destruct (read (Options.path (options this))) as [p|]; [|reflexivity].
    destruct (String.eqb (requestPath req) p) eqn:Ep; [|reflexivity].
    apply String.eqb_eq in Ep. subst p. contradiction. }
  rewrite Hne. cbn [negb]. unfold bind, ret.
  rewrite sendError_unsent by (eapply same_but_headers_unsent; eassumption).
  reflexivity.
Qed.

(** C2, on the example server: [GET /health] is registered with
    [server.route] and handed to the transport in [customRoutes], yet the
    request is answered 404 and the handler of the route is not called; the
    handler would have answered 200. *)
Theorem registered_route_is_answered_404 :
  match read (Options.customRoutes (options (Fixture.transport_of Fixture.plain))) with
  | Some routes =>
      match map_get String.eqb "/health" routes with
      | Some methods => map_get HttpMethod_eqb GET methods
      | None => None
      end
  | None => None
  end = Some Fixture.health /\
  read (Options.path (options (Fixture.transport_of Fixture.plain))) = Some "/mcp" /\
  responded_with
    (Fixture.serve Fixture.plain (Fixture.request "GET" "/health" None (BodyParsed JNull)))
    404 (TextBody "Not found") /\
  trace (Fixture.serve Fixture.plain
           (Fixture.request "GET" "/health" None (BodyParsed JNull))) = [] /\
  statusCode
    (res (snd (Fixture.health (Fixture.request "GET" "/health" None (BodyParsed JNull))
                 Fixture.fresh))) = Some 200.
Proof. repeat split. Qed.

(* ================================================================== *)
(** ** CORS under an allow-list *)

Lemma truthy_header_some h o :
  truthy_header h = Some o <-> h = Some o /\ o <> "".
Proof.
  unfold truthy_header. destruct h as [v|].
  - destruct (String.eqb v "") eqn:E.
    + apply String.eqb_eq in E. subst v. split; [discriminate|].
      intros [H Hne]. injection H as <-. contradiction.
    + apply String.eqb_neq in E. split.
      * intros H. injection H as <-. split; [reflexivity | exact E].
      * intros [H _]. exact H.
  - split; [discriminate | intros [H _]; discriminate H].
Qed.

Lemma truthy_header_none h :
  truthy_header h = None <-> h = None \/ h = Some "".
Proof.
  unfold truthy_header. destruct h as [v|].
  - destruct (String.eqb v "") eqn:E.
    + apply String.eqb_eq in E. subst v. split; auto.
    + apply String.eqb_neq in E. split; [discriminate|].
      intros [H|H]; [discriminate H|]. injection H as ->. contradiction.
  - split; auto.
Qed.

Lemma includes_In o allowed : existsb (String.eqb o) allowed = true <-> In o allowed.
Proof.
  rewrite existsb_exists. split.
  - intros (x & Hx & E). apply String.eqb_eq in E. subst x. exact Hx.
  - intros H. exists o. split; [exact H | apply String.eqb_refl].
Qed.

(** C8, as the code has it.  Under an allow-list, on a fresh response: a
    request without an [Origin] header, or with an empty one, passes with no
    header set; a request whose non-empty [Origin] is in the list passes with
    the origin echoed in [Access-Control-Allow-Origin] and with
    [Access-Control-Allow-Credentials: true]; a request with any other
    non-empty [Origin] is answered 403 without
    [Access-Control-Allow-Origin], and nothing else is done with it. *)
Theorem cors_allow_list {zod : Zod.Rendering} this srv req t0 ts allowed :
  allowedOrigins this = Origins allowed ->
  (origin req = None \/ origin req = Some "" ->
   ensureCors this req (new_world t0 ts) = (Normal true, new_world t0 ts)) /\
  (forall o, origin req = Some o -> o <> "" -> In o allowed ->
     ensureCors this req (new_world t0 ts) =
       (Normal true, allow_origin o (new_world t0 ts)) /\
     response_header "Access-Control-Allow-Origin" (allow_origin o (new_world t0 ts)) =
       Some o /\
     response_header "Access-Control-Allow-Credentials"
       (allow_origin o (new_world t0 ts)) = Some "true") /\
  (forall o, origin req = Some o -> o <> "" -> ~ In o allowed ->
     let rejected := respond 403 "text/plain" (TextBody "Forbidden origin") (new_world t0 ts) in
     ensureCors this req (new_world t0 ts) = (Normal false, rejected) /\
     handleHttpRequest this srv req (new_world t0 ts) = (Normal tt, rejected) /\
     responded_with rejected 403 (TextBody "Forbidden origin") /\
     response_header "Access-Control-Allow-Origin" rejected = None /\
     trace rejected = []).
Proof.
  intros Hpolicy.
  assert (Hpass : forall o, origin req = Some o -> o <> "" ->
            truthy_header (origin req) = Some o).
  { intros o Ho Hne. apply truthy_header_some. split; assumption. }
  split; [|split].
  - intros H. apply truthy_header_none in H.
    unfold ensureCors. rewrite Hpolicy, H. reflexivity.
  - intros o Ho Hne Hin. apply includes_In in Hin.
    unfold ensureCors. rewrite Hpolicy, (Hpass o Ho Hne), Hin.
    split; [reflexivity|]. split; reflexivity.
  - intros o Ho Hne Hout.
    assert (Hx : existsb (String.eqb o) allowed = false).
    { destruct (existsb (String.eqb o) allowed) eqn:E; [|reflexivity].
      apply includes_In in E. contradiction. }
    cbv zeta. unfold handleHttpRequest, ensureCors, bind.
    rewrite Hpolicy, (Hpass o Ho Hne), Hx.
    split; [reflexivity|]. split; [reflexivity|]. split; [apply respond_responded|].
    split; reflexivity.
Qed.

(** C8: against the allow-list [[https://good.example]], a request whose
    [Origin] header is present and empty is not answered 403: it is handled
    like a request without the header. *)
Lemma empty_origin_is_not_rejected :
  allowedOrigins (Fixture.transport_of Fixture.guarded) = Origins [Fixture.good_origin] /\
  origin (Fixture.request "POST" "/mcp" (Some "") (BodyParsed Fixture.ping)) = Some "" /\
  ~ In "" [Fixture.good_origin] /\
  fst (ensureCors (Fixture.transport_of Fixture.guarded)
         (Fixture.request "POST" "/mcp" (Some "") (BodyParsed Fixture.ping))
         Fixture.fresh) = Normal true /\
  statusCode
    (res (Fixture.serve Fixture.guarded
            (Fixture.request "POST" "/mcp" (Some "") (BodyParsed Fixture.ping)))) =
    Some 200 /\
  statusCode
    (res (Fixture.serve Fixture.guarded
            (Fixture.request "POST" "/mcp" (Some "") (BodyParsed Fixture.ping)))) <>
    Some 403.
Proof.
  split; [reflexivity|]. split; [reflexivity|].
  split; [intros [H|[]]; discriminate H|].
  split; [reflexivity|]. split; [reflexivity|].
  vm_compute. discriminate.
Qed.

Lemma cors_allow_list_witness :
  handleHttpRequest (Fixture.transport_of Fixture.guarded) (server Fixture.guarded)
    (Fixture.request "POST" "/mcp" (Some "https://evil.example") (BodyParsed Fixture.ping))
    Fixture.fresh =
  (Normal tt, respond 403 "text/plain" (TextBody "Forbidden origin") Fixture.fresh) /\
  response_header "Access-Control-Allow-Origin"
    (respond 403 "text/plain" (TextBody "Forbidden origin") Fixture.fresh) = None.
Proof.
  destruct (@cors_allow_list _ (Fixture.transport_of Fixture.guarded) (server Fixture.guarded)
              (Fixture.request "POST" "/mcp" (Some "https://evil.example")
                 (BodyParsed Fixture.ping))
              0 [3%N; 5%N] [Fixture.good_origin] eq_refl) as (_ & _ & Hreject).
  destruct (Hreject "https://evil.example" eq_refl) as (_ & Hstop & _ & Hheader & _).
  - discriminate.
  - intros [H|[]]. discriminate H.
  - split; [exact Hstop | exact Hheader].
Defined.

(* ================================================================== *)
(** ** The tool registry *)

Lemma map_get_set_same {V} (k : string) (v : V) m :
  map_has String.eqb k m = false ->
  map_get String.eqb k (map_set String.eqb k v m) = Some v.
Proof.
  unfold map_has. induction m as [|[k' v'] m IH]; cbn.
  - intros _. rewrite String.eqb_refl. reflexivity.
  - destruct (String.eqb k k') eqn:E; [discriminate|].
    intros H. cbn. rewrite E. apply IH, H.
Qed.


Lemma map_keys_set_fresh {V} (k : string) (v : V) m :
  map_has String.eqb k m = false ->
  count_occ string_dec (map_keys (map_set String.eqb k v m)) k = 1%nat.
Proof.
  unfold map_has. induction m as [|[k' v'] m IH].
  - intros _. change (map_keys (map_set String.eqb k v [])) with [k].
    apply count_occ_cons_eq. reflexivity.
  - cbn [map_get map_set]. destruct (String.eqb k k') eqn:E; [discriminate|].
    intros H. apply String.eqb_neq in E.
    change (map_keys ((k', v') :: map_set String.eqb k v m))
      with (k' :: map_keys (map_set String.eqb k v m)).
    rewrite count_occ_cons_neq by congruence. apply IH, H.
Qed.

Lemma tool_run_fresh a d :
  McpServer.hasTool (server a) (tool_name d) = false ->
  tool d a =
  (match server_hook (server a) onToolRegistered with
   | Some f => f (tool_name d) (match description d with Some t => t | None => "" end)
   | None => Normal tt
   end,
   {| server :=
        {| McpServer.name := McpServer.name (server a);
           McpServer.version := McpServer.version (server a);
           McpServer._tools :=
             map_set String.eqb (tool_name d) d (McpServer._tools (server a));
           McpServer._endpoints := McpServer._endpoints (server a);
           McpServer.hooks := McpServer.hooks (server a);
           McpServer.transport := McpServer.transport (server a) |};
      notified :=
        (notified a ++
         fired (server_hook (server a) onToolRegistered)
           (ToolRegistered (tool_name d)
              (match description d with Some t => t | None => "" end)))%list |}).
Proof.
  unfold McpServer.hasTool. intros Hfresh.
  unfold tool, bind, gets, update_server, modify, call_optional, notify, lift.
  rewrite Hfresh. cbn.
  destruct (server_hook (server a) onToolRegistered) as [f|]; cbn.
  - reflexivity.
  - rewrite app_nil_r. destruct a; reflexivity.
Qed.

Lemma tool_run_taken a d :
  McpServer.hasTool (server a) (tool_name d) = true ->
  tool d a = (Throw (error ("Tool '" ++ tool_name d ++ "' is already registered")), a).
Proof.
  unfold McpServer.hasTool. intros Htaken.
  unfold tool, bind, gets, throw. cbn [fst snd]. rewrite Htaken. reflexivity.
Qed.

(** C9.  Registering a tool under a name that is taken throws and changes
    neither the registry nor the record of the hooks called.  Registering a
    tool under a free name records the definition and calls
    [onToolRegistered], if present; a second registration under that name
    then fails, and the registry still has exactly one definition under the
    name, the first. *)
Theorem duplicate_tool_is_refused a d :
  (McpServer.hasTool (server a) (tool_name d) = true ->
   tool d a = (Throw (error ("Tool '" ++ tool_name d ++ "' is already registered")), a)) /\
  (McpServer.hasTool (server a) (tool_name d) = false ->
   let description1 := match description d with Some t => t | None => "" end in
   let a1 := snd (tool d a) in
   McpServer.getTool (server a1) (tool_name d) = Some d /\
   notified a1 =
     (notified a ++
      fired (server_hook (server a) onToolRegistered)
        (ToolRegistered (tool_name d) description1))%list /\
   (returns_normally (server_hook (server a) onToolRegistered)
      (fun f => f (tool_name d) description1) ->
    fst (tool d a) = Normal tt) /\
   forall d2,
     tool_name d2 = tool_name d ->
     let a2 := snd (tool d2 a1) in
     fst (tool d2 a1) =
       Throw (error ("Tool '" ++ tool_name d ++ "' is already registered")) /\
     a2 = a1 /\
     McpServer.getTool (server a2) (tool_name d) = Some d /\
     count_occ string_dec (map_keys (McpServer._tools (server a2))) (tool_name d) = 1%nat).
Proof.
  split; [apply tool_run_taken|].
  intros Hfresh. cbv zeta. rewrite (tool_run_fresh a d Hfresh).
  cbn [fst snd server notified McpServer._tools].
  unfold McpServer.hasTool in Hfresh.
  pose proof (map_get_set_same (tool_name d) d _ Hfresh) as Hget.
  split; [exact Hget|]. split; [reflexivity|]. split.
  - destruct (server_hook (server a) onToolRegistered); cbn; auto.
  - intros d2 Hname. rewrite tool_run_taken.
    + rewrite Hname. cbn [fst snd server McpServer._tools].
      split; [reflexivity|]. split; [reflexivity|]. split; [exact Hget|].
      apply map_keys_set_fresh, Hfresh.
    + unfold McpServer.hasTool, map_has. cbn [server McpServer._tools].
      rewrite Hname. unfold McpServer.getTool in Hget. cbn in Hget. rewrite Hget.
      reflexivity.
Qed.

Lemma duplicate_tool_is_refused_witness :
  McpServer.getTool
    (server (snd (tool Fixture.echo_again
                    (snd (tool Fixture.echo
                            (new_app (McpServer.new None None (Some Fixture.quiet_hooks))))))))
    "echo" = Some Fixture.echo /\
  notified (snd (tool Fixture.echo
                   (new_app (McpServer.new None None (Some Fixture.quiet_hooks))))) =
    [ToolRegistered "echo" "Echo the provided text"] /\
  fst (tool Fixture.echo_again
         (snd (tool Fixture.echo
                 (new_app (McpServer.new None None (Some Fixture.quiet_hooks)))))) =
    Throw (error "Tool 'echo' is already registered").
Proof.
  destruct (proj2 (@duplicate_tool_is_refused
                     (new_app (McpServer.new None None (Some Fixture.quiet_hooks)))
                     Fixture.echo) eq_refl)
    as (_ & Hnotified & _ & Hsecond).
  destruct (Hsecond Fixture.echo_again eq_refl) as (Hthrow & _ & Hget & _).
  split; [exact Hget|]. split; [exact Hnotified | exact Hthrow].
Defined.

(* ================================================================== *)
(** ** The schema adapter *)

Lemma drop_prefix_app pat s : Js.drop_prefix pat (pat ++ s) = Some s.
Proof.
  induction pat as [|c pat IH]; [reflexivity|].
  cbn. rewrite Ascii.eqb_refl. exact IH.
Qed.

(** Removing the prefix [#/definitions/] from a reference into the
    definitions leaves the name of the definition. *)
Lemma replace_first_prefix pat s : Js.replace_first pat (pat ++ s) = s.
Proof.
  destruct (pat ++ s) as [|c rest] eqn:E.
  - destruct pat; [cbn in E; subst s; reflexivity | discriminate E].
  - pose proof (drop_prefix_app pat s) as H. rewrite E in H.
    cbn [Js.replace_first]. rewrite H. reflexivity.
Qed.

Lemma is_container_spec d : Js.is_object d = is_container d.
Proof.
  destruct d as [[| [|] | n | s | l | f] | p]; cbn; try reflexivity.
  - destruct (n =? 0); reflexivity.
  - destruct (String.eqb s ""); reflexivity.
Qed.

Lemma wraps_resolved doc d : wraps doc d -> normalizeSchema doc = Normal d.
Proof.
  intros [fields ref definitions d' Hr Hd Hm Hc]. unfold normalizeSchema.
  rewrite Hr, Hd, Hm, is_container_spec, Hc. reflexivity.
Qed.

(** C10, as the code has it.  When the converted document is a
    [$ref]-plus-[definitions] wrapper whose [$ref] names a definition that
    is an object, the adapter returns that definition as it stands: a [$ref]
    inside the definition is kept.  The definition is looked up the way
    JavaScript reads a property, so that the name [__proto__], when
    [definitions] has no entry of that name, yields the built-in prototype
    of [definitions].  A document that is a primitive or [null], or that has
    [definitions] and a [$ref] that is not a string, makes the adapter throw
    a [TypeError].  In every other case the adapter returns the converted
    document unchanged. *)
Theorem schema_adapter_inlines_one_level toolName sch :
  let doc := zodToJsonSchema sch toolName in
  (forall d, wraps doc d -> zodSchemaToToolSchema toolName sch = Normal d) /\
  (forall fields name definitions d,
      doc = JObject fields ->
      Js.lookup "$ref" fields = Some (JString ("#/definitions/" ++ name)) ->
      Js.lookup "definitions" fields = Some (JObject definitions) ->
      Js.lookup name definitions = Some (JObject d) ->
      zodSchemaToToolSchema toolName sch = Normal (Data (JObject d))) /\
  (forall fields definitions p,
      doc = JObject fields ->
      Js.lookup "$ref" fields = Some (JString "#/definitions/__proto__") ->
      Js.lookup "definitions" fields = Some definitions ->
      Js.get_member definitions "__proto__" = None ->
      Js.prototype_of definitions = Some p ->
      zodSchemaToToolSchema toolName sch = Normal (Builtin p)) /\
  (ill_formed doc ->
   exists message,
     zodSchemaToToolSchema toolName sch = Throw (ThrownError TypeError message)) /\
  ((forall d, ~ wraps doc d) -> ~ ill_formed doc ->
   zodSchemaToToolSchema toolName sch = Normal (Data doc)).
Proof.
  cbv zeta. unfold zodSchemaToToolSchema.
  split; [intros d; apply wraps_resolved|]. split; [|split; [|split]].
  - intros fields name definitions d Hdoc Hr Hd Hn. apply wraps_resolved. rewrite Hdoc.
    eapply wraps_definition; [exact Hr | exact Hd | | reflexivity].
    rewrite replace_first_prefix. unfold Js.optional_member. cbn [Js.get_member].
    rewrite Hn. reflexivity.
  - intros fields definitions p Hdoc Hr Hd Hown Hp. apply wraps_resolved. rewrite Hdoc.
    eapply wraps_definition; [exact Hr | exact Hd | | reflexivity].
    change "#/definitions/__proto__" with ("#/definitions/" ++ "__proto__").
    rewrite replace_first_prefix. unfold Js.optional_member.
    rewrite Hown, Hp. reflexivity.
  - intros [doc Hc | fields v definitions Hr Hv Hd].
    + destruct doc as [| b | n | s | l | f]; try discriminate Hc; eexists; reflexivity.
    + unfold normalizeSchema. rewrite Hr, Hd.
      destruct v as [| b | n | s | l | f]; try (eexists; reflexivity).
      exfalso. apply (Hv s). reflexivity.
  - intros Hnone Hwell.
    destruct (zodToJsonSchema sch toolName) as [| b | n | s | l | fields];
      try reflexivity;
      try (exfalso; apply Hwell; apply ill_formed_primitive; reflexivity).
    unfold normalizeSchema.
    destruct (Js.lookup "$ref" fields) as [v|] eqn:Hr; [|reflexivity].
    destruct (Js.lookup "definitions" fields) as [definitions|] eqn:Hd; [|reflexivity].
    destruct v as [| b | n | ref | l | f];
      try (exfalso; apply Hwell;
           eapply ill_formed_ref; [exact Hr | intros ref; discriminate | exact Hd]).
    destruct (Js.optional_member definitions (Js.replace_first "#/definitions/" ref))
      as [d|] eqn:Hm; [|reflexivity].
    rewrite is_container_spec.
    destruct (is_container d) eqn:Hc; [|reflexivity].
    exfalso. apply (Hnone d). eapply wraps_definition; eassumption.
Qed.

(** C10: the converter describes the field [b] of the example schema by a
    reference into the named root; the adapter returns the root definition,
    in which that reference is still present. *)
Lemma inlined_definition_keeps_inner_refs :
  wraps (zodToJsonSchema Fixture.reusingSchema "pair")
    (Data
       (JObject
          [("type", JString "object");
           ("properties",
            JObject
              [("a", JObject [("type", JString "string")]);
               ("b", JObject [("$ref", JString "#/definitions/pair/properties/a")])])])) /\
  zodSchemaToToolSchema "pair" Fixture.reusingSchema =
    Normal
      (Data
         (JObject
            [("type", JString "object");
             ("properties",
              JObject
                [("a", JObject [("type", JString "string")]);
                 ("b", JObject [("$ref", JString "#/definitions/pair/properties/a")])])])) /\
  match zodSchemaToToolSchema "pair" Fixture.reusingSchema with
  | Normal (Data d) => has_ref d
  | _ => false
  end = true.
Proof.
  split; [|split; reflexivity].
  eapply wraps_definition; reflexivity.
Qed.

Lemma schema_adapter_inlines_one_level_witness :
  zodSchemaToToolSchema "echo" Fixture.textSchema =
    Normal
      (Data
         (JObject
            [("type", JString "object");
             ("properties", JObject [("text", JObject [("type", JString "string")])]);
             ("required", JArray [JString "text"])])).
Proof.
  refine (proj1 (proj2 (@schema_adapter_inlines_one_level "echo" Fixture.textSchema))
            _ "echo" _ _ eq_refl eq_refl eq_refl eq_refl).
Defined.

(* ================================================================== *)
(** * Further properties *)

(** ** JavaScript [Map]: lookups after [set] *)

Section JsMapFacts.
Variables (K V : Type) (eqb : K -> K -> bool).
Hypothesis eqb_spec : forall a b, eqb a b = true <-> a = b.

Lemma eqb_same k : eqb k k = true.
Proof. apply eqb_spec. reflexivity. Qed.

Lemma eqb_other k k' : k <> k' -> eqb k k' = false.
Proof.
  intros H. destruct (eqb k k') eqn:E; [|reflexivity].
  apply eqb_spec in E. contradiction.
Qed.

Lemma map_get_set_eq k (v : V) m : map_get eqb k (map_set eqb k v m) = Some v.
Proof.
  induction m as [|[k' v'] m IH]; cbn.
  - rewrite eqb_same. reflexivity.
  - destruct (eqb k k') eqn:E; cbn; rewrite E; [reflexivity | exact IH].
Qed.

Lemma map_get_set_neq k k' (v : V) m :
  k <> k' -> map_get eqb k (map_set eqb k' v m) = map_get eqb k m.
Proof.
  intros Hne. induction m as [|[k0 v0] m IH]; cbn.
  - rewrite (eqb_other Hne). reflexivity.
  - destruct (eqb k' k0) eqn:E; cbn.
    + apply eqb_spec in E. subst k0. rewrite (eqb_other Hne). reflexivity.
    + destruct (eqb k k0); [reflexivity | exact IH].
Qed.

Lemma map_has_In k (m : JsMap K V) : map_has eqb k m = true <-> In k (map_keys m).
Proof.
  unfold map_has. induction m as [|[k' v'] m IH]; cbn.
  - split; [discriminate | intros []].
  - destruct (eqb k k') eqn:E.
    + apply eqb_spec in E. subst k'. split; auto.
    + split.
      * intros H. right. apply IH, H.
      * intros [H|H]; [subst k'; rewrite eqb_same in E; discriminate | apply IH, H].
Qed.

Lemma map_keys_set k (v : V) m :
  map_keys (map_set eqb k v m) =
  if map_has eqb k m then map_keys m else (map_keys m ++ [k])%list.
Proof.
  unfold map_has. induction m as [|[k' v'] m IH]; cbn; [reflexivity|].
  destruct (eqb k k') eqn:E; cbn; [reflexivity|].
  change (map fst (map_set eqb k v m)) with (map_keys (map_set eqb k v m)).
  rewrite IH. destruct (map_get eqb k m); reflexivity.
Qed.

Lemma map_values_set_fresh k (v : V) m :
  map_has eqb k m = false -> map_values (map_set eqb k v m) = (map_values m ++ [v])%list.
Proof.
  unfold map_has. induction m as [|[k' v'] m IH]; cbn; [reflexivity|].
  destruct (eqb k k') eqn:E; [discriminate|]. intros H. cbn.
  change (map snd (map_set eqb k v m)) with (map_values (map_set eqb k v m)).
  rewrite (IH H). reflexivity.
Qed.

Lemma map_keys_set_NoDup k (v : V) m :
  NoDup (map_keys m) -> NoDup (map_keys (map_set eqb k v m)).
Proof.
  intros Hm. rewrite map_keys_set. destruct (map_has eqb k m) eqn:E; [exact Hm|].
  apply NoDup_app; [exact Hm | repeat constructor; intros [] |].
  intros x Hx [<-|[]]. apply map_has_In in Hx. congruence.
Qed.

Lemma map_set_entries k (v : V) m kv :
  In kv (map_set eqb k v m) -> In kv m \/ (eqb k (fst kv) = true /\ snd kv = v).
Proof.
  induction m as [|[k' v'] m IH]; cbn.
  - intros [<-|[]]. right. cbn. split; [apply eqb_same | reflexivity].
  - destruct (eqb k k') eqn:E; cbn.
    + intros [<-|H]; [right; cbn; auto | left; right; exact H].
    + intros [<-|H]; [left; left; reflexivity|].
      destruct (IH H) as [H'|H']; [left; right; exact H' | right; exact H'].
Qed.

Lemma map_get_In k (v : V) m :
  map_get eqb k m = Some v -> In (k, v) m.
Proof.
  induction m as [|[k' v'] m IH]; cbn; [discriminate|].
  destruct (eqb k k') eqn:E.
  - apply eqb_spec in E. subst k'. intros H. injection H as <-. left. reflexivity.
  - intros H. right. apply IH, H.
Qed.

End JsMapFacts.

Lemma HttpMethod_eqb_spec a b : HttpMethod_eqb a b = true <-> a = b.
Proof. destruct a, b; cbn; split; intros H; try reflexivity; discriminate H. Qed.

Lemma path_get_set_eq {V} k (v : V) m :
  map_get String.eqb k (map_set String.eqb k v m) = Some v.
Proof. apply map_get_set_eq, String.eqb_eq. Qed.

Lemma path_get_set_neq {V} k k' (v : V) m :
  k <> k' -> map_get String.eqb k (map_set String.eqb k' v m) = map_get String.eqb k m.
Proof. apply map_get_set_neq, String.eqb_eq. Qed.

Lemma method_get_set_eq {V} k (v : V) m :
  map_get HttpMethod_eqb k (map_set HttpMethod_eqb k v m) = Some v.
Proof. apply map_get_set_eq, HttpMethod_eqb_spec. Qed.

Lemma method_get_set_neq {V} k k' (v : V) m :
  k <> k' ->
  map_get HttpMethod_eqb k (map_set HttpMethod_eqb k' v m) = map_get HttpMethod_eqb k m.
Proof. apply map_get_set_neq, HttpMethod_eqb_spec. Qed.

(* ================================================================== *)
(** ** [McpServer.route] *)

Lemma normalized_starts_with_slash p : starts_with_slash (normalized p) = true.
Proof.
  unfold normalized. destruct (starts_with_slash p) eqn:E; [exact E | reflexivity].
Qed.

Lemma app_eta (a : App) : {| server := server a; notified := notified a |} = a.
Proof. destruct a; reflexivity. Qed.

Lemma set_endpoints_same s : set_endpoints (McpServer._endpoints s) s = s.
Proof. destruct s; reflexivity. Qed.

Lemma route_lookup_with_path np routes p m :
  route_lookup (with_path np routes) p m = route_lookup routes p m.
Proof.
  unfold with_path, route_lookup.
  destruct (map_has String.eqb np routes) eqn:E; [reflexivity|].
  destruct (String.eqb p np) eqn:Ep.
  - apply String.eqb_eq in Ep. subst p.
    rewrite path_get_set_eq. unfold map_has in E.
    destruct (map_get String.eqb np routes); [discriminate | reflexivity].
  - apply String.eqb_neq in Ep.
    rewrite path_get_set_neq by exact Ep. reflexivity.
Qed.

Lemma route_run a m p h :
  route m p h a =
  let np := normalized p in
  let routes := with_path np (McpServer._endpoints (server a)) in
  let methods := match map_get String.eqb np routes with Some ms => ms | None => [] end in
  if map_has HttpMethod_eqb m methods
  then (Throw (error ("Endpoint '" ++ HttpMethod_text m ++ " " ++ np ++
                      "' is already registered")),
        {| server := set_endpoints routes (server a); notified := notified a |})
  else (Normal tt,
        {| server :=
             set_endpoints
               (map_set String.eqb np (map_set HttpMethod_eqb m h methods) routes)
               (server a);
           notified := notified a |}).
Proof.
  unfold route, bind, gets, update_server, modify, throw. cbn.
  fold (normalized p). fold (with_path (normalized p) (McpServer._endpoints (server a))).
  destruct (map_has HttpMethod_eqb m _); reflexivity.
Qed.

Lemma map_has_route_lookup routes np m :
  map_has HttpMethod_eqb m
    (match map_get String.eqb np routes with Some ms => ms | None => [] end) =
  match route_lookup routes np m with Some _ => true | None => false end.
Proof.
  unfold route_lookup, map_has. cbv beta delta [MethodMap RouteTable JsMap] in *.
  destruct (map_get String.eqb np routes); reflexivity.
Qed.

(** X1.  [route] registers under the normalized path.  When the method is taken
    on that path the call throws and changes nothing; otherwise it returns,
    the handler is found under the normalized path and the method, every
    other route is as before, and neither the tools nor the hooks are
    touched. *)
Theorem route_registers_under_normalized_path a m p h :
  (route_lookup (McpServer._endpoints (server a)) (normalized p) m <> None ->
   route m p h a =
     (Throw (error ("Endpoint '" ++ HttpMethod_text m ++ " " ++ normalized p ++
                    "' is already registered")), a)) /\
  (route_lookup (McpServer._endpoints (server a)) (normalized p) m = None ->
   fst (route m p h a) = Normal tt /\
   route_lookup (McpServer._endpoints (server (snd (route m p h a)))) (normalized p) m =
     Some h /\
   (forall p' m', (p', m') <> (normalized p, m) ->
      route_lookup (McpServer._endpoints (server (snd (route m p h a)))) p' m' =
      route_lookup (McpServer._endpoints (server a)) p' m') /\
   McpServer._tools (server (snd (route m p h a))) = McpServer._tools (server a) /\
   McpServer.transport (server (snd (route m p h a))) = McpServer.transport (server a) /\
   notified (snd (route m p h a)) = notified a).
Proof.
  rewrite route_run. cbv zeta. rewrite map_has_route_lookup, route_lookup_with_path.
  set (np := normalized p). set (routes := with_path np (McpServer._endpoints (server a))).
  split.
  - intros Htaken.
    destruct (route_lookup (McpServer._endpoints (server a)) np m) as [h0|] eqn:E;
      [|contradiction].
    assert (Hhas : map_has String.eqb np (McpServer._endpoints (server a)) = true).
    { unfold route_lookup in E. unfold map_has.
      destruct (map_get String.eqb np (McpServer._endpoints (server a)));
        [reflexivity | discriminate]. }
    subst routes. unfold with_path. rewrite Hhas, set_endpoints_same, app_eta. reflexivity.
  - intros Hfree. rewrite Hfree. cbn [fst snd server notified].
    split; [reflexivity|]. split; [|split; [|split; [|split]]].
    + unfold route_lookup. cbn. cbv beta delta [MethodMap RouteTable JsMap] in *.
      rewrite path_get_set_eq. apply method_get_set_eq.
    + intros p' m' Hne.
      rewrite <- (route_lookup_with_path np (McpServer._endpoints (server a)) p' m').
      fold routes.
      unfold route_lookup at 1. cbn. cbv beta delta [MethodMap RouteTable JsMap] in *.
      destruct (String.eqb p' np) eqn:Ep.
      * apply String.eqb_eq in Ep. subst p'.
        rewrite path_get_set_eq.
        assert (Hm : m' <> m) by (intros ->; apply Hne; reflexivity).
        rewrite method_get_set_neq by exact Hm.
        unfold route_lookup. cbv beta delta [MethodMap RouteTable JsMap] in *.
        destruct (map_get String.eqb np routes); reflexivity.
      * apply String.eqb_neq in Ep.
        rewrite path_get_set_neq by exact Ep. reflexivity.
    + destruct (server a); reflexivity.
    + destruct (server a); reflexivity.
    + reflexivity.
Qed.

(* ================================================================== *)
(** ** [McpServer.start]: conflicts and the merged routes *)

Ltac plain_maps := cbv beta delta [MethodMap RouteTable JsMap] in *.

Ltac case_option :=
  match goal with
  | |- context [match ?x with Some _ => _ | None => _ end] => destruct x eqn:?
  end.

Lemma start_run opts a :
  start opts a =
  match McpServer.transport (server a) with
  | Some _ => (Throw (error "Server is already started"), a)
  | None =>
      if map_has String.eqb (mcp_path opts) (McpServer._endpoints (server a))
      then (Throw (error ("Custom endpoint path cannot match MCP path '" ++
                          mcp_path opts ++ "'")), a)
      else
        match merge_routes (mcp_path opts) (given_routes opts)
                (McpServer._endpoints (server a)) with
        | Throw t => (Throw t, a)
        | Normal mergedRoutes =>
            (Normal tt,
             {| server :=
                  set_transport
                    (Some (started_transport (McpServer.hooks (server a)) opts mergedRoutes))
                    (server a);
                notified := notified a |})
        end
  end.
Proof.
  unfold start, bind, gets, throw, lift, update_server, modify. cbn [fst snd].
  destruct (McpServer.transport (server a)); [reflexivity|].
  unfold mcp_path, given_routes, started_transport, set_transport.
  destruct opts as [o|]; cbv beta iota zeta.
  - destruct (map_has String.eqb _ (McpServer._endpoints (server a))); [reflexivity|].
    destruct (merge_routes _ _ _); reflexivity.
  - cbn [Options.path Options.customRoutes Options.empty].
    destruct (map_has String.eqb _ (McpServer._endpoints (server a))); [reflexivity|].
    destruct (merge_routes _ _ _); reflexivity.
Qed.

Lemma merge_methods_spec path entries : forall target merged,
  merge_methods path entries target = Normal merged ->
  (forall m h, map_get HttpMethod_eqb m target = Some h ->
               map_get HttpMethod_eqb m merged = Some h) /\
  (forall m h, In (m, h) entries -> map_get HttpMethod_eqb m merged = Some h) /\
  (forall m h, map_get HttpMethod_eqb m merged = Some h ->
               map_get HttpMethod_eqb m target = Some h \/ In (m, h) entries).
Proof.
  induction entries as [|[m0 h0] rest IH]; intros target merged; cbn [merge_methods].
  - intros E. injection E as <-. repeat split; auto. intros m h [].
  - destruct (map_has HttpMethod_eqb m0 target) eqn:Hhas; [discriminate|].
    intros E. destruct (IH _ _ E) as (Hkeep & Hnew & Hfrom).
    assert (Hset : forall m h, map_get HttpMethod_eqb m target = Some h ->
              map_get HttpMethod_eqb m (map_set HttpMethod_eqb m0 h0 target) = Some h).
    { intros m h Hm. rewrite method_get_set_neq; [exact Hm|].
      intros ->. unfold map_has in Hhas. rewrite Hm in Hhas. discriminate. }
    split; [|split].
    + intros m h Hm. apply Hkeep, Hset, Hm.
    + intros m h [Hin|Hin].
      * injection Hin as <- <-. apply Hkeep, method_get_set_eq.
      * apply Hnew, Hin.
    + intros m h Hm. destruct (Hfrom m h Hm) as [Hm'|Hin]; [|right; right; exact Hin].
      destruct (HttpMethod_eqb m m0) eqn:Em.
      * apply HttpMethod_eqb_spec in Em. subst m0.
        rewrite method_get_set_eq in Hm'. injection Hm' as <-. right. left. reflexivity.
      * left. rewrite method_get_set_neq in Hm'; [exact Hm'|].
        intros ->. destruct m0; discriminate Em.
Qed.

Lemma merge_methods_conflict path entries : forall target m h,
  In (m, h) entries -> map_has HttpMethod_eqb m target = true ->
  exists t, merge_methods path entries target = Throw t.
Proof.
  induction entries as [|[m0 h0] rest IH]; intros target m h; [intros []|].
  intros Hin Hhas. cbn [merge_methods].
  destruct (map_has HttpMethod_eqb m0 target) eqn:H0; [eexists; reflexivity|].
  destruct Hin as [Hin|Hin].
  - injection Hin as -> ->. congruence.
  - apply (IH _ m h Hin). unfold map_has in *.
    destruct (map_get HttpMethod_eqb m target) as [h1|] eqn:Em; [|discriminate].
    rewrite method_get_set_neq; [rewrite Em; reflexivity|].
    intros ->. rewrite Em in H0. discriminate.
Qed.

Lemma route_lookup_set routes path methods p m :
  route_lookup (map_set String.eqb path methods routes) p m =
  if String.eqb p path then map_get HttpMethod_eqb m methods else route_lookup routes p m.
Proof.
  unfold route_lookup. plain_maps. destruct (String.eqb p path) eqn:E.
  - apply String.eqb_eq in E. subst p. rewrite path_get_set_eq. reflexivity.
  - apply String.eqb_neq in E. rewrite path_get_set_neq by exact E. reflexivity.
Qed.

Lemma route_lookup_target routes path m :
  map_get HttpMethod_eqb m
    (match map_get String.eqb path (with_path path routes) with
     | Some ms => ms
     | None => []
     end) = route_lookup routes path m.
Proof.
  rewrite <- (route_lookup_with_path path routes path m).
  unfold route_lookup. plain_maps. case_option; reflexivity.
Qed.

Lemma map_has_with_path np routes p :
  p <> np -> map_has String.eqb p (with_path np routes) = map_has String.eqb p routes.
Proof.
  intros Hne. unfold with_path, map_has.
  destruct (map_get String.eqb np routes); [reflexivity|].
  rewrite path_get_set_neq by exact Hne. reflexivity.
Qed.

Lemma merge_routes_spec mcp entries : forall routes merged,
  merge_routes mcp entries routes = Normal merged ->
  (forall p m h, route_lookup routes p m = Some h -> route_lookup merged p m = Some h) /\
  (forall p ms m h, In (p, ms) entries -> In (m, h) ms ->
                    route_lookup merged p m = Some h) /\
  (forall p m h, route_lookup merged p m = Some h ->
                 route_lookup routes p m = Some h \/
                 exists ms, In (p, ms) entries /\ In (m, h) ms) /\
  map_has String.eqb mcp merged = map_has String.eqb mcp routes.
Proof.
  induction entries as [|[path methods] rest IH]; intros routes merged; cbn [merge_routes].
  - intros E. injection E as <-. repeat split; auto. intros p ms m h [].
  - destruct (String.eqb path mcp) eqn:Emcp; [discriminate|].
    apply String.eqb_neq in Emcp.
    fold (with_path path routes).
    destruct (merge_methods path methods _) as [target'|t] eqn:Em; [|discriminate].
    intros E. destruct (IH _ _ E) as (Hkeep & Hnew & Hfrom & Hmcp).
    destruct (merge_methods_spec _ _ _ Em) as (Mkeep & Mnew & Mfrom).
    assert (Hstep : forall p m,
              route_lookup (map_set String.eqb path target' (with_path path routes)) p m =
              if String.eqb p path then map_get HttpMethod_eqb m target'
              else route_lookup routes p m).
    { intros p m. rewrite route_lookup_set, route_lookup_with_path. reflexivity. }
    split; [|split; [|split]].
    + intros p m h Hl. apply Hkeep. rewrite Hstep.
      destruct (String.eqb p path) eqn:Ep; [|exact Hl].
      apply String.eqb_eq in Ep. subst p. apply Mkeep.
      rewrite route_lookup_target. exact Hl.
    + intros p ms m h [Hin|Hin] Hm.
      * injection Hin as <- <-. apply Hkeep. rewrite Hstep, String.eqb_refl.
        apply Mnew, Hm.
      * apply (Hnew p ms m h Hin Hm).
    + intros p m h Hl. destruct (Hfrom p m h Hl) as [Hl'|(ms & Hin & Hm)].
      * rewrite Hstep in Hl'. destruct (String.eqb p path) eqn:Ep.
        -- apply String.eqb_eq in Ep. subst p.
           destruct (Mfrom m h Hl') as [Ht|Hm].
           ++ left. rewrite route_lookup_target in Ht. exact Ht.
           ++ right. exists methods. split; [left; reflexivity | exact Hm].
        -- left. exact Hl'.
      * right. exists ms. split; [right; exact Hin | exact Hm].
    + rewrite Hmcp. unfold map_has at 1. plain_maps.
      rewrite path_get_set_neq by (intros ->; apply Emcp; reflexivity).
      apply map_has_with_path. intros ->. apply Emcp. reflexivity.
Qed.

Lemma merge_routes_mcp_path mcp entries : forall routes ms,
  In (mcp, ms) entries -> exists t, merge_routes mcp entries routes = Throw t.
Proof.
  induction entries as [|[path methods] rest IH]; intros routes ms; [intros []|].
  intros Hin. cbn [merge_routes].
  destruct (String.eqb path mcp) eqn:E; [eexists; reflexivity|].
  destruct Hin as [Hin|Hin].
  - injection Hin as -> _. rewrite String.eqb_refl in E. discriminate.
  - destruct (merge_methods path methods _); [|eexists; reflexivity].
    apply (IH _ ms Hin).
Qed.

Lemma merge_routes_conflict mcp entries : forall routes p ms m h,
  In (p, ms) entries -> In (m, h) ms -> route_lookup routes p m <> None ->
  exists t, merge_routes mcp entries routes = Throw t.
Proof.
  induction entries as [|[path methods] rest IH]; intros routes p ms m h; [intros []|].
  intros Hin Hm Htaken. cbn [merge_routes].
  destruct (String.eqb path mcp) eqn:E; [eexists; reflexivity|].
  fold (with_path path routes).
  destruct (merge_methods path methods _) as [target'|t] eqn:Em; [|eexists; reflexivity].
  destruct Hin as [Hin|Hin].
  - injection Hin as -> ->.
    destruct (merge_methods_conflict p ms
                (match map_get String.eqb p (with_path p routes) with
                 | Some x => x
                 | None => []
                 end) m h Hm) as [t Ht].
    + unfold map_has. rewrite route_lookup_target.
      destruct (route_lookup routes p m); [reflexivity | contradiction].
    + pose proof (eq_trans (eq_sym Em) Ht) as Hboth. discriminate Hboth.
  - apply (IH _ p ms m h Hin Hm).
    rewrite route_lookup_set, route_lookup_with_path.
    destruct (String.eqb p path) eqn:Ep; [|exact Htaken].
    apply String.eqb_eq in Ep. subst path.
    destruct (route_lookup routes p m) as [h0|] eqn:El; [|contradiction].
    destruct (merge_methods_spec _ _ _ Em) as (Mkeep & _ & _).
    rewrite (Mkeep m h0); [discriminate|].
    rewrite route_lookup_target. exact El.
Qed.

(** X2.  [start] throws, and leaves the server as it was, when the server is
    already started, when a registered route sits on the MCP path, when a
    route of the options sits on the MCP path, and when a route of the
    options is already registered on the server for the same path and
    method. *)
Theorem start_refuses_conflicts a opts :
  (McpServer.transport (server a) <> None ->
   start opts a = (Throw (error "Server is already started"), a)) /\
  (McpServer.transport (server a) = None ->
   map_has String.eqb (mcp_path opts) (McpServer._endpoints (server a)) = true ->
   start opts a =
     (Throw (error ("Custom endpoint path cannot match MCP path '" ++
                    mcp_path opts ++ "'")), a)) /\
  (McpServer.transport (server a) = None ->
   (exists ms, In (mcp_path opts, ms) (given_routes opts)) ->
   exists t, start opts a = (Throw t, a)) /\
  (McpServer.transport (server a) = None ->
   (exists p ms m h,
       In (p, ms) (given_routes opts) /\ In (m, h) ms /\
       route_lookup (McpServer._endpoints (server a)) p m <> None) ->
   exists t, start opts a = (Throw t, a)).
Proof.
  rewrite start_run. split; [|split; [|split]].
  - destruct (McpServer.transport (server a)); [reflexivity | intros H; contradiction].
  - intros -> ->. reflexivity.
  - intros -> (ms & Hin).
    destruct (map_has String.eqb _ _); [eexists; reflexivity|].
    destruct (merge_routes_mcp_path _ _ (McpServer._endpoints (server a)) _ Hin) as [t ->].
    eexists; reflexivity.
  - intros -> (p & ms & m & h & Hin & Hm & Htaken).
    destruct (map_has String.eqb _ _); [eexists; reflexivity|].
    destruct (merge_routes_conflict (mcp_path opts) _ _ _ _ _ _ Hin Hm Htaken) as [t ->].
    eexists; reflexivity.
Qed.

Lemma started_transport_path hooks opts merged :
  read (Options.path (options (started_transport hooks opts merged))) =
  match given_path opts with
  | Absent => Some "/mcp"
  | Present value => value
  end.
Proof.
  unfold started_transport, given_path. destruct opts as [o|]; cbn; [|reflexivity].
  destruct (Options.path o); reflexivity.
Qed.

Lemma started_transport_path_checked hooks opts merged p :
  read (Options.path (options (started_transport hooks opts merged))) = Some p ->
  p = mcp_path opts.
Proof.
  rewrite started_transport_path. unfold given_path, mcp_path.
  destruct opts as [o|]; [|intros E; injection E as <-; reflexivity].
  destruct (Options.path o) as [|value]; cbn [read].
  - intros E; injection E as <-; reflexivity.
  - intros ->. reflexivity.
Qed.

Lemma started_transport_routes hooks opts merged :
  read (Options.customRoutes (options (started_transport hooks opts merged))) = Some merged.
Proof. reflexivity. Qed.

Lemma route_lookup_absent routes p m :
  map_has String.eqb p routes = false -> route_lookup routes p m = None.
Proof.
  unfold map_has, route_lookup. plain_maps. case_option; [discriminate | reflexivity].
Qed.

Lemma start_returns a opts :
  fst (start opts a) = Normal tt ->
  exists merged,
    McpServer.transport (server a) = None /\
    map_has String.eqb (mcp_path opts) (McpServer._endpoints (server a)) = false /\
    merge_routes (mcp_path opts) (given_routes opts) (McpServer._endpoints (server a)) =
      Normal merged /\
    snd (start opts a) =
      {| server :=
           set_transport
             (Some (started_transport (McpServer.hooks (server a)) opts merged))
             (server a);
         notified := notified a |}.
Proof.
  rewrite start_run.
  destruct (McpServer.transport (server a)); [discriminate|].
  destruct (map_has String.eqb (mcp_path opts) (McpServer._endpoints (server a)));
    [discriminate|].
  destruct (merge_routes _ _ _) as [merged|t]; [|discriminate].
  intros _. exists merged. repeat split.
Qed.

(** X3.  When [start] returns, the transport it stores holds one table of
    routes in which every route of the server and every route of the
    options is found with its handler and nothing else is, and in which the
    path that [start] checked (the [path] of the options, [/mcp] when that
    is [undefined]) has no route; the registries of the server are
    untouched.  The path on which the transport answers is the [path] of
    the options when that key is present and [/mcp] when it is absent: for
    a key that is present with the value [undefined] the transport has no
    path at all, although the checks of [start] used [/mcp]. *)
Theorem start_merges_routes a opts :
  fst (start opts a) = Normal tt ->
  exists tr merged,
    McpServer.transport (server (snd (start opts a))) = Some tr /\
    read (Options.customRoutes (options tr)) = Some merged /\
    read (Options.path (options tr)) =
      match given_path opts with
      | Absent => Some "/mcp"
      | Present value => value
      end /\
    (forall p m h,
        route_lookup (McpServer._endpoints (server a)) p m = Some h ->
        route_lookup merged p m = Some h) /\
    (forall p ms m h,
        In (p, ms) (given_routes opts) -> In (m, h) ms ->
        route_lookup merged p m = Some h) /\
    (forall p m h,
        route_lookup merged p m = Some h ->
        route_lookup (McpServer._endpoints (server a)) p m = Some h \/
        exists ms, In (p, ms) (given_routes opts) /\ In (m, h) ms) /\
    (forall m, route_lookup merged (mcp_path opts) m = None) /\
    McpServer._tools (server (snd (start opts a))) = McpServer._tools (server a) /\
    McpServer._endpoints (server (snd (start opts a))) = McpServer._endpoints (server a) /\
    notified (snd (start opts a)) = notified a.
Proof.
  intros Hok. destruct (start_returns a opts Hok) as (merged & Hnone & Hfree & Em & ->).
  exists (started_transport (McpServer.hooks (server a)) opts merged), merged.
  cbn [fst snd server notified].
  destruct (merge_routes_spec _ _ _ Em) as (Hkeep & Hnew & Hfrom & Hmcp).
  split; [reflexivity|]. split; [apply started_transport_routes|].
  split; [apply started_transport_path|].
  split; [exact Hkeep|]. split; [exact Hnew|]. split; [exact Hfrom|].
  split; [intros m; apply route_lookup_absent; congruence|].
  repeat split.
Qed.

(* ================================================================== *)
(** ** The life cycle: [start], a failed [listen], [stop] *)

Lemma start_and_listen_state listen opts a :
  snd (start_and_listen listen opts a) = snd (start opts a).
Proof.
  unfold start_and_listen, bind, lift. destruct (start opts a) as [[[]|t] a']; reflexivity.
Qed.

Lemma start_and_listen_outcome listen opts a :
  fst (start opts a) = Normal tt -> fst (start_and_listen listen opts a) = listen.
Proof.
  unfold start_and_listen, bind, lift. destruct (start opts a) as [[[]|t] a']; cbn;
    [reflexivity | discriminate].
Qed.

Lemma stop_run close a :
  stop close a =
  match McpServer.transport (server a) with
  | None => (Throw (error "Server is not started"), a)
  | Some _ =>
      match close with
      | Normal _ => (Normal tt, {| server := set_transport None (server a);
                                   notified := notified a |})
      | Throw t => (Throw t, a)
      end
  end.
Proof.
  unfold stop, bind, gets, throw, lift, update_server, modify. cbn [fst snd].
  destruct (McpServer.transport (server a)); [|reflexivity].
  destruct close; reflexivity.
Qed.

Lemma set_transport_back t s :
  McpServer.transport s = None -> set_transport None (set_transport t s) = s.
Proof. destruct s; cbn. intros ->. reflexivity. Qed.

(** X4.  [stop] on a server that is not started throws and changes nothing; when
    closing the transport fails the server stays started; and stopping a
    server right after a successful [start] gives back the server object
    as it was before the start, so that it can be started again. *)
Theorem stop_undoes_start a opts close :
  (McpServer.transport (server a) = None ->
   stop close a = (Throw (error "Server is not started"), a)) /\
  (forall t, McpServer.transport (server a) <> None -> close = Throw t ->
             stop close a = (Throw t, a)) /\
  (McpServer.transport (server a) = None -> fst (start opts a) = Normal tt ->
   stop (Normal tt) (snd (start opts a)) = (Normal tt, a)).
Proof.
  split; [|split].
  - intros H. rewrite stop_run, H. reflexivity.
  - intros t H ->. rewrite stop_run.
    destruct (McpServer.transport (server a)); [reflexivity | contradiction].
  - intros Hnone. rewrite start_run, stop_run, Hnone.
    destruct (map_has String.eqb _ _); [discriminate|].
    destruct (merge_routes _ _ _); [|discriminate].
    intros _. cbn [fst snd server notified set_transport McpServer.transport].
    fold (set_transport
            (Some (started_transport (McpServer.hooks (server a)) opts a0)) (server a)).
    rewrite set_transport_back by exact Hnone. rewrite app_eta. reflexivity.
Qed.

(** X5.  The transport is stored before the listening is awaited: when the
    listening fails after the checks of [start] have passed, [start] throws
    what the listening threw, the server nevertheless counts as started,
    and every further [start] throws [Server is already started]. *)
Theorem failed_listen_leaves_server_started a opts t :
  fst (start opts a) = Normal tt ->
  fst (start_and_listen (Throw t) opts a) = Throw t /\
  McpServer.transport (server (snd (start_and_listen (Throw t) opts a))) <> None /\
  (forall listen opts',
      start_and_listen listen opts' (snd (start_and_listen (Throw t) opts a)) =
      (Throw (error "Server is already started"), snd (start_and_listen (Throw t) opts a))).
Proof.
  intros Hok. split; [apply start_and_listen_outcome, Hok|].
  rewrite start_and_listen_state.
  destruct (start_returns a opts Hok) as (merged & _ & _ & _ & Hstate).
  rewrite Hstate. split; [discriminate|].
  intros listen opts'. unfold start_and_listen, bind. rewrite start_run. reflexivity.
Qed.

(* ================================================================== *)
(** ** The tool registry over time *)

Lemma tool_state a d :
  server (snd (tool d a)) =
  if McpServer.hasTool (server a) (tool_name d) then server a
  else
    {| McpServer.name := McpServer.name (server a);
       McpServer.version := McpServer.version (server a);
       McpServer._tools := map_set String.eqb (tool_name d) d (McpServer._tools (server a));
       McpServer._endpoints := McpServer._endpoints (server a);
       McpServer.hooks := McpServer.hooks (server a);
       McpServer.transport := McpServer.transport (server a) |}.
Proof.
  destruct (McpServer.hasTool (server a) (tool_name d)) eqn:E.
  - rewrite (tool_run_taken a d E). reflexivity.
  - rewrite (tool_run_fresh a d E). reflexivity.
Qed.

Lemma tool_keeps_getTool a d n t :
  McpServer.getTool (server a) n = Some t ->
  McpServer.getTool (server (snd (tool d a))) n = Some t.
Proof.
  intros Hn. rewrite tool_state.
  destruct (McpServer.hasTool (server a) (tool_name d)) eqn:E; [exact Hn|].
  unfold McpServer.getTool in *. cbn [McpServer._tools].
  rewrite path_get_set_neq; [exact Hn|].
  intros ->. unfold McpServer.hasTool, map_has in E. rewrite Hn in E. discriminate.
Qed.

Lemma register_all_keeps_getTool ds : forall a n t,
  McpServer.getTool (server a) n = Some t ->
  McpServer.getTool (server (register_all ds a)) n = Some t.
Proof.
  induction ds as [|d rest IH]; intros a n t Hn; [exact Hn|].
  cbn [register_all]. apply IH, tool_keeps_getTool, Hn.
Qed.

(** X6.  Registering tools with distinct names that are not yet taken appends
    them to the list of tools in the order of the calls, and each of them
    is then found under its name. *)
Theorem tools_are_listed_in_registration_order ds : forall a,
  NoDup (map tool_name ds) ->
  (forall d, In d ds -> McpServer.hasTool (server a) (tool_name d) = false) ->
  McpServer.getTools (server (register_all ds a)) =
    (McpServer.getTools (server a) ++ ds)%list /\
  (forall d, In d ds ->
     McpServer.getTool (server (register_all ds a)) (tool_name d) = Some d).
Proof.
  induction ds as [|d rest IH]; intros a Hnames Hfresh.
  - cbn. rewrite app_nil_r. split; [reflexivity | intros d []].
  - cbn [register_all]. inversion Hnames as [|x l Hnotin Hrest]; subst.
    assert (Hd : McpServer.hasTool (server a) (tool_name d) = false)
      by (apply Hfresh; left; reflexivity).
    assert (Hstate := tool_state a d). rewrite Hd in Hstate.
    destruct (IH (snd (tool d a)) Hrest) as [Hlist Hfound].
    { intros d' Hin. rewrite Hstate. unfold McpServer.hasTool, map_has.
      cbn [McpServer._tools].
      rewrite path_get_set_neq.
      - apply (Hfresh d'). right. exact Hin.
      - intros Heq. apply Hnotin. rewrite <- Heq. apply in_map, Hin. }
    split.
    + rewrite Hlist, Hstate. unfold McpServer.getTools. cbn [McpServer._tools].
      rewrite map_values_set_fresh by exact Hd.
      rewrite <- app_assoc. reflexivity.
    + intros d' [<-|Hin]; [|apply Hfound, Hin].
      apply register_all_keeps_getTool. rewrite Hstate.
      unfold McpServer.getTool. cbn [McpServer._tools]. apply path_get_set_eq.
Qed.

(* ================================================================== *)
(** ** What the registries keep *)

Lemma routes_ok_set np ms routes :
  routes_ok routes -> starts_with_slash np = true -> NoDup (map_keys ms) ->
  routes_ok (map_set String.eqb np ms routes).
Proof.
  intros [Hkeys Hall] Hslash Hms. split.
  - apply (@map_keys_set_NoDup _ _ _ String.eqb_eq), Hkeys.
  - apply Forall_forall. intros kv Hin.
    destruct (@map_set_entries _ _ _ String.eqb_eq _ _ _ _ Hin) as [Hold|[Hk Hv]].
    + rewrite Forall_forall in Hall. apply Hall, Hold.
    + apply String.eqb_eq in Hk. rewrite <- Hk, Hv. split; assumption.
Qed.

Lemma routes_ok_with_path np routes :
  routes_ok routes -> starts_with_slash np = true -> routes_ok (with_path np routes).
Proof.
  intros Hok Hslash. unfold with_path.
  destruct (map_has String.eqb np routes); [exact Hok|].
  apply routes_ok_set; [exact Hok | exact Hslash | constructor].
Qed.

Lemma routes_ok_methods np routes :
  routes_ok routes ->
  NoDup (map_keys (match map_get String.eqb np routes with Some ms => ms | None => [] end)).
Proof.
  intros [_ Hall]. plain_maps.
  destruct (map_get String.eqb np routes) as [ms|] eqn:E; [|constructor].
  apply (@map_get_In _ _ _ String.eqb_eq) in E. rewrite Forall_forall in Hall.
  apply (Hall (np, ms) E).
Qed.

Lemma invariant_new n v h : registry_invariant (McpServer.new n v h).
Proof. split; cbn; try constructor. Qed.

Lemma invariant_tool a d :
  registry_invariant (server a) -> registry_invariant (server (snd (tool d a))).
Proof.
  intros Hinv. rewrite tool_state.
  destruct (McpServer.hasTool (server a) (tool_name d)); [exact Hinv|].
  destruct Hinv as [Hkeys Hnames Hpaths Hnorm Hmcp]. split; cbn; try assumption.
  - apply (@map_keys_set_NoDup _ _ _ String.eqb_eq), Hkeys.
  - apply Forall_forall. intros kv Hin.
    destruct (@map_set_entries _ _ _ String.eqb_eq _ _ _ _ Hin) as [Hold|[Hk Hv]].
    + rewrite Forall_forall in Hnames. apply Hnames, Hold.
    + apply String.eqb_eq in Hk. rewrite <- Hk, Hv. reflexivity.
Qed.

Lemma invariant_set_endpoints routes s :
  registry_invariant s -> routes_ok routes -> registry_invariant (set_endpoints routes s).
Proof.
  intros [Hkeys Hnames Hpaths Hnorm Hmcp] [Hroutes Hall].
  split; cbn; assumption.
Qed.

Lemma invariant_route a m p h :
  registry_invariant (server a) -> registry_invariant (server (snd (route m p h a))).
Proof.
  intros Hinv.
  assert (Hok : routes_ok (with_path (normalized p) (McpServer._endpoints (server a)))).
  { apply routes_ok_with_path; [|apply normalized_starts_with_slash].
    destruct Hinv. split; assumption. }
  rewrite route_run. cbv zeta.
  destruct (map_has HttpMethod_eqb m _); cbn [snd server].
  - apply invariant_set_endpoints; assumption.
  - apply invariant_set_endpoints; [exact Hinv|].
    apply routes_ok_set; [exact Hok | apply normalized_starts_with_slash |].
    apply (@map_keys_set_NoDup _ _ _ HttpMethod_eqb_spec), routes_ok_methods, Hok.
Qed.

Lemma invariant_start a opts :
  registry_invariant (server a) -> registry_invariant (server (snd (start opts a))).
Proof.
  intros Hinv. rewrite start_run.
  destruct (McpServer.transport (server a)); [exact Hinv|].
  destruct (map_has String.eqb (mcp_path opts) (McpServer._endpoints (server a))) eqn:Hfree;
    [exact Hinv|].
  destruct (merge_routes _ _ _) as [merged|t] eqn:Em; [|exact Hinv].
  destruct Hinv as [Hkeys Hnames Hpaths Hnorm _].
  split; cbn [server set_transport McpServer._tools McpServer._endpoints
              McpServer.transport]; try assumption.
  exists merged. split; [apply started_transport_routes|].
  intros p Hp. apply started_transport_path_checked in Hp. subst p.
  destruct (merge_routes_spec _ _ _ Em) as (_ & _ & _ & Hmcp). congruence.
Qed.

Lemma invariant_stop a close :
  registry_invariant (server a) -> registry_invariant (server (snd (stop close a))).
Proof.
  intros Hinv. rewrite stop_run.
  destruct (McpServer.transport (server a)); [|exact Hinv].
  destruct close; [|exact Hinv].
  destruct Hinv as [Hkeys Hnames Hpaths Hnorm _]. split; cbn; try assumption. exact I.
Qed.

(** X7.  Whatever sequence of [tool], [route], [start] and [stop] calls a program
    makes on a new server, and whichever of them throw: the tools are keyed
    by their own names, one per name; the paths of the routes begin with a
    slash and have one entry each, with one handler per method; and a
    started transport holds a table of routes that has no entry for the
    path on which the transport answers. *)
Theorem reachable_servers_keep_the_invariant a :
  reachable a -> registry_invariant (server a).
Proof.
  induction 1 as [n v h | a d _ IH | a m p h _ IH | a listen opts _ IH | a close _ IH].
  - apply invariant_new.
  - apply invariant_tool, IH.
  - apply invariant_route, IH.
  - rewrite start_and_listen_state. apply invariant_start, IH.
  - apply invariant_stop, IH.
Qed.

Lemma reachable_servers_keep_the_invariant_witness :
  registry_invariant (server Fixture.plain).
Proof.
  apply reachable_servers_keep_the_invariant.
  change Fixture.plain with
    (snd (start_and_listen (Normal tt)
            (Some (Fixture.options_with None))
            (snd (route GET "health" Fixture.health
                    (snd (tool Fixture.explode
                            (snd (tool Fixture.echo
                                    (new_app (McpServer.new (Some "demo") (Some "1.0.0")
                                                None)))))))))).
  repeat constructor.
Defined.

(* ================================================================== *)
(** * The remaining branches of the dispatcher *)

Lemma not_recognized m :
  ~ recognized m ->
  String.eqb m "initialize" = false /\ String.eqb m "tools/list" = false /\
  String.eqb m "tools/call" = false /\ String.eqb m "ping" = false.
Proof.
  intros H. repeat split; apply String.eqb_neq; intros E; apply H; unfold recognized; auto.
Qed.

(** ** [ping] and the methods that the dispatcher does not know *)

(** X10.  A well-formed request whose method is none of [initialize],
    [tools/list], [tools/call] and [ping] is answered with [MethodNotFound]
    (-32601), the message [Method not found] and the id of the request; no
    hook is called. *)
Theorem unknown_method_is_not_found {zod : Zod.Rendering} this srv req t0 ts r :
  arrives this req (new_world t0 ts) r ->
  ~ recognized (method r) ->
  let w' := snd (handleHttpRequest this srv req (new_world t0 ts)) in
  responded_with w' 200
    (JsonBody (errorResponse (id_or_null (id r)) ErrorCode.MethodNotFound
                 "Method not found")) /\
  trace w' = [].
Proof.
  intros Ha Hm. destruct (arrives_fresh srv Ha) as (w & Hu & Htr & _ & ->).
  destruct (not_recognized Hm) as (E1 & E2 & E3 & E4).
  cbv zeta. unfold try_catch, dispatch. rewrite E1, E2, E3, E4.
  send. cbn. split; [repeat split | exact Htr].
Qed.

Lemma unknown_method_is_not_found_witness :
  responded_with
    (Fixture.serve Fixture.plain (Fixture.post (Fixture.envelope 4 "resources/list" [])))
    200
    (JsonBody (errorResponse (IdNumber 4) ErrorCode.MethodNotFound "Method not found")) /\
  trace (Fixture.serve Fixture.plain
           (Fixture.post (Fixture.envelope 4 "resources/list" []))) = [].
Proof.
  refine (@unknown_method_is_not_found _ (Fixture.transport_of Fixture.plain)
            (server Fixture.plain) (Fixture.post (Fixture.envelope 4 "resources/list" []))
            0 [3%N; 5%N] (Fixture.parsed 4 "resources/list" None) _ _).
  - arrival.
  - intros [H|[H|[H|H]]]; discriminate H.
Defined.

(** X11.  [ping] is answered with the result [{ status: 'ok' }] and the id of the
    request, whatever its params are; no hook is called. *)
Theorem ping_is_answered_ok {zod : Zod.Rendering} this srv req t0 ts r :
  arrives this req (new_world t0 ts) r ->
  method r = "ping" ->
  let w' := snd (handleHttpRequest this srv req (new_world t0 ts)) in
  responded_with w' 200
    (JsonBody (jsonResponse (id_or_null (id r)) (JObject [("status", JString "ok")]))) /\
  trace w' = [].
Proof.
  intros Ha Hm. destruct (arrives_fresh srv Ha) as (w & Hu & Htr & _ & ->).
  cbv zeta. unfold try_catch, dispatch. rewrite Hm. cbn [String.eqb Ascii.eqb Bool.eqb].
  send. cbn. split; [repeat split | exact Htr].
Qed.

Lemma ping_is_answered_ok_witness :
  responded_with (Fixture.serve Fixture.observed (Fixture.post Fixture.ping)) 200
    (JsonBody (jsonResponse (IdNumber 1) (JObject [("status", JString "ok")]))) /\
  trace (Fixture.serve Fixture.observed (Fixture.post Fixture.ping)) = [].
Proof.
  refine (@ping_is_answered_ok _ (Fixture.transport_of Fixture.observed)
            (server Fixture.observed) (Fixture.post Fixture.ping)
            0 [3%N; 5%N] (Fixture.parsed 1 "ping" None) _ _).
  - arrival.
  - reflexivity.
Defined.

(** ** [initialize] *)

(** X12.  An [initialize] whose params pass [InitializeParamsSchema] calls
    [onClientConnected], if present, once, with the name and the version of
    the client and the protocol version; when the hook returns, the answer
    echoes the protocol version of the client and carries the name and the
    version of the server and the capability [tools]; when the hook throws,
    the answer is the one of the [catch] clause for what was thrown, with
    the id of the request. *)
Theorem initialize_is_answered {zod : Zod.Rendering} this srv req t0 ts r data :
  arrives this req (new_world t0 ts) r ->
  method r = "initialize" ->
  Zod.InitializeParamsSchema (params r) = SafeParseSuccess data ->
  let w' := snd (handleHttpRequest this srv req (new_world t0 ts)) in
  let connected f :=
    f (ci_name (clientInfo data)) (ci_version (clientInfo data)) (protocolVersion data) in
  trace w' =
    fired (hook this onClientConnected)
      (ClientConnected (ci_name (clientInfo data)) (ci_version (clientInfo data))
         (protocolVersion data)) /\
  (returns_normally (hook this onClientConnected) connected ->
   responded_with w' 200
     (JsonBody (jsonResponse (id_or_null (id r)) (initialize_result srv data)))) /\
  (forall f t, hook this onClientConnected = Some f -> connected f = Throw t ->
     responded_with w' 200 (caught_response (id_or_null (id r)) t)).
Proof.
  intros Ha Hm Hp. destruct (arrives_fresh srv Ha) as (w & Hu & Htr & _ & ->).
  cbv zeta. unfold try_catch, dispatch. rewrite Hm. cbn [String.eqb Ascii.eqb Bool.eqb].
  unfold handleInitialize. rewrite Hp. unfold bind. rewrite call_hook_run.
  destruct (hook this onClientConnected) as [f|]; cbn [option_map fired returns_normally].
  - destruct (f _ _ _) as [[]|t] eqn:Ef.
    + send. cbn. rewrite Htr. split; [reflexivity|]. split.
      * intros _. repeat split.
      * intros f' t' E. injection E as <-. rewrite Ef. discriminate.
    + rewrite respondToError_caught by unsent_now. cbn. rewrite Htr.
      split; [reflexivity|]. split.
      * intros E. discriminate E.
      * intros f' t' E. injection E as <-. rewrite Ef. intros E. injection E as <-.
        repeat split.
  - send. cbn. split; [exact Htr|]. split.
    + intros _. repeat split.
    + intros f t E. discriminate E.
Qed.

Lemma initialize_is_answered_witness :
  trace (Fixture.serve Fixture.observed (Fixture.post hello)) =
    [ClientConnected "cli" "0.1" "2025-03-26"] /\
  responded_with (Fixture.serve Fixture.observed (Fixture.post hello)) 200
    (JsonBody (jsonResponse (IdNumber 1)
                 (initialize_result (server Fixture.observed) hello_params))).
Proof.
  destruct (@initialize_is_answered _ (Fixture.transport_of Fixture.observed)
              (server Fixture.observed) (Fixture.post hello) 0 [3%N; 5%N]
              (Fixture.parsed 1 "initialize"
                 (Some (JObject
                          [("protocolVersion", JString "2025-03-26");
                           ("clientInfo",
                            JObject [("name", JString "cli");
                                     ("version", JString "0.1")])])))
              hello_params) as (Htrace & Hanswer & _).
  - arrival.
  - reflexivity.
  - reflexivity.
  - split; [exact Htrace | apply Hanswer; reflexivity].
Defined.

(** X13.  An [initialize] or a [tools/call] whose params fail the schema of the
    method is answered with [ParseError] (-32700), the id [null] and a
    message made of [Unable to parse RPC request: ] and the message of the
    validation error; no hook is called, the registry is not consulted and
    no handler runs.  Absent params fail both schemas. *)
Theorem bad_params_are_a_parse_error {zod : Zod.Rendering} this srv req t0 ts r :
  arrives this req (new_world t0 ts) r ->
  let w' := snd (handleHttpRequest this srv req (new_world t0 ts)) in
  let parse_error e :=
    responded_with w' 200
      (JsonBody (errorResponse IdNull ErrorCode.ParseError
                   ("Unable to parse RPC request: " ++ zod_message e))) /\
    trace w' = [] in
  (method r = "initialize" ->
   forall e, Zod.InitializeParamsSchema (params r) = SafeParseError e -> parse_error e) /\
  (method r = "tools/call" ->
   forall e, Zod.CallToolParamsSchema (params r) = SafeParseError e -> parse_error e) /\
  (params r = None ->
   (exists e, Zod.InitializeParamsSchema (params r) = SafeParseError e) /\
   (exists e, Zod.CallToolParamsSchema (params r) = SafeParseError e)).
Proof.
  intros Ha. destruct (arrives_fresh srv Ha) as (w & Hu & Htr & _ & ->).
  cbv zeta. split; [|split].
  - intros Hm e He. unfold try_catch, dispatch. rewrite Hm.
    cbn [String.eqb Ascii.eqb Bool.eqb]. unfold handleInitialize. rewrite He.
    send. cbn. split; [repeat split | exact Htr].
  - intros Hm e He. unfold try_catch, dispatch. rewrite Hm.
    cbn [String.eqb Ascii.eqb Bool.eqb].
    unfold handleToolCall, parseToolCallParams, bind, ret. rewrite He.
    send. cbn. split; [repeat split | exact Htr].
  - intros ->. split; eexists; reflexivity.
Qed.

Lemma bad_params_are_a_parse_error_witness :
  response_error_code
    (Fixture.serve Fixture.observed (Fixture.post Fixture.bare_initialize)) =
    Some (JNum ErrorCode.ParseError) /\
  response_id (Fixture.serve Fixture.observed (Fixture.post Fixture.bare_initialize)) =
    Some JNull /\
  trace (Fixture.serve Fixture.observed (Fixture.post Fixture.bare_initialize)) = [].
Proof.
  destruct (proj1 (@bad_params_are_a_parse_error _ (Fixture.transport_of Fixture.observed)
                     (server Fixture.observed) (Fixture.post Fixture.bare_initialize)
                     0 [3%N; 5%N] (Fixture.parsed 1 "initialize" None) ltac:(arrival))
              eq_refl (Zod.error [Zod.issue [] Zod.Required]) eq_refl)
    as ((_ & Hbody & _) & Htrace).
  unfold response_error_code, response_id, Fixture.serve. rewrite Hbody.
  split; [reflexivity|]. split; [reflexivity | exact Htrace].
Defined.

(** ** A body that cannot be read *)

(** X14.  When reading the body of a [POST] to the MCP path fails, the answer is
    the one of the [catch] clause for the error of the stream, with the id
    [null]; no hook is called. *)
Theorem unreadable_body_is_caught {zod : Zod.Rendering} this srv req t0 ts e :
  post_to_mcp this req (new_world t0 ts) ->
  req_body req = BodyUnreadable e ->
  let w' := snd (handleHttpRequest this srv req (new_world t0 ts)) in
  responded_with w' 200 (caught_response IdNull e) /\ trace w' = [].
Proof.
  intros Hp Hb.
  destruct (@handleHttpRequest_post _ this srv req (new_world t0 ts) eq_refl Hp)
    as (w1 & Hs & ->).
  assert (Hu : unsent w1) by (eapply same_but_headers_unsent; [eassumption|reflexivity]).
  destruct Hs as (_ & _ & Htr & _). cbn in Htr. cbv zeta.
  unfold tryDispatch, with_local, try_catch, bind, outside, readRequestBody,
    set_local, get_local, gets, modify, ret, throw.
  rewrite Hb. cbn [fst snd]. rewrite respondToError_caught by exact Hu.
  cbn. split; [repeat split | exact Htr].
Qed.

Lemma unreadable_body_is_caught_witness :
  responded_with
    (Fixture.serve Fixture.plain
       (Fixture.request "POST" "/mcp" None
          (BodyUnreadable (ThrownError PlainError "aborted"))))
    200
    (JsonBody (errorResponse IdNull ErrorCode.InternalError "Internal server error")) /\
  trace (Fixture.serve Fixture.plain
           (Fixture.request "POST" "/mcp" None
              (BodyUnreadable (ThrownError PlainError "aborted")))) = [].
Proof.
  refine (@unreadable_body_is_caught _ (Fixture.transport_of Fixture.plain)
            (server Fixture.plain)
            (Fixture.request "POST" "/mcp" None
               (BodyUnreadable (ThrownError PlainError "aborted")))
            0 [3%N; 5%N] (ThrownError PlainError "aborted") _ _).
  - repeat split.
  - reflexivity.
Defined.

(** ** [tools/list] *)

Lemma map_completion_Forall2 {A B} (f : A -> Completion B) l : forall ys,
  map_completion f l = Normal ys -> Forall2 (fun x y => f x = Normal y) l ys.
Proof.
  induction l as [|x l IH]; intros ys; cbn.
  - intros E. injection E as <-. constructor.
  - destruct (f x) as [y|t] eqn:Ex; [|discriminate].
    destruct (map_completion f l) as [ys'|t]; [|discriminate].
    intros E. injection E as <-. constructor; [exact Ex | apply IH; reflexivity].
Qed.

Lemma map_completion_returns {A B} (f : A -> Completion B) l :
  (forall x, In x l -> exists y, f x = Normal y) ->
  exists ys, map_completion f l = Normal ys.
Proof.
  induction l as [|x l IH]; intros H; cbn; [eexists; reflexivity|].
  destruct (H x (or_introl eq_refl)) as [y ->].
  destruct IH as [ys ->]; [intros x' Hx'; apply H; right; exact Hx'|].
  eexists; reflexivity.
Qed.

Lemma toolDefinition_entry d entry :
  toolDefinition d = Normal entry ->
  Js.get_member entry "name" = Some (JString (tool_name d)) /\
  Js.get_member entry "description" = option_map JString (description d) /\
  exists s, zodSchemaToToolSchema (tool_name d) (schema d) = Normal s /\
            Js.get_member entry "inputSchema" = Some (Js.stringified s).
Proof.
  unfold toolDefinition.
  destruct (zodSchemaToToolSchema (tool_name d) (schema d)) as [s|t]; [|discriminate].
  intros E. injection E as <-.
  destruct (description d); cbn; (split; [reflexivity|]); (split; [reflexivity|]);
    exists s; split; reflexivity.
Qed.

(** X15.  [tools/list] calls [onToolsListRequested], if present, once.  When the
    hook returns and the schema adapter returns for every registered tool,
    the answer lists one entry for every registered tool, in the order of
    the registry, with the name of the tool, its description if it has one
    (no key otherwise) and, as [inputSchema], what the schema adapter makes
    of its schema, as [JSON.stringify] writes it; when the hook throws, the
    answer is the one of the [catch] clause for what was thrown. *)
Theorem tools_list_is_answered {zod : Zod.Rendering} this srv req t0 ts r :
  arrives this req (new_world t0 ts) r ->
  method r = "tools/list" ->
  (forall d, In d (McpServer.getTools srv) ->
             exists s, zodSchemaToToolSchema (tool_name d) (schema d) = Normal s) ->
  let w' := snd (handleHttpRequest this srv req (new_world t0 ts)) in
  trace w' = fired (hook this onToolsListRequested) ToolsListRequested /\
  (returns_normally (hook this onToolsListRequested) (fun f => f tt) ->
   exists entries,
     responded_with w' 200
       (JsonBody (jsonResponse (id_or_null (id r))
                    (JObject [("tools", JArray entries)]))) /\
     Forall2
       (fun d entry =>
          Js.get_member entry "name" = Some (JString (tool_name d)) /\
          Js.get_member entry "description" = option_map JString (description d) /\
          exists s, zodSchemaToToolSchema (tool_name d) (schema d) = Normal s /\
                    Js.get_member entry "inputSchema" = Some (Js.stringified s))
       (McpServer.getTools srv) entries) /\
  (forall f t, hook this onToolsListRequested = Some f -> f tt = Throw t ->
     responded_with w' 200 (caught_response (id_or_null (id r)) t)).
Proof.
  intros Ha Hm Hschemas. destruct (arrives_fresh srv Ha) as (w & Hu & Htr & _ & ->).
  destruct (@map_completion_returns _ _ toolDefinition (McpServer.getTools srv))
    as [entries Hentries].
  { intros d Hd. unfold toolDefinition.
    destruct (Hschemas d Hd) as [s ->]. eexists; reflexivity. }
  assert (Hall : Forall2
            (fun d entry =>
               Js.get_member entry "name" = Some (JString (tool_name d)) /\
               Js.get_member entry "description" = option_map JString (description d) /\
               exists s, zodSchemaToToolSchema (tool_name d) (schema d) = Normal s /\
                         Js.get_member entry "inputSchema" = Some (Js.stringified s))
            (McpServer.getTools srv) entries).
  { eapply Forall2_impl; [|apply map_completion_Forall2, Hentries].
    intros d entry. apply toolDefinition_entry. }
  cbv zeta. unfold try_catch, dispatch. rewrite Hm. cbn [String.eqb Ascii.eqb Bool.eqb].
  unfold handleToolsList, bind. rewrite call_hook_run.
  destruct (hook this onToolsListRequested) as [f|]; cbn [option_map fired returns_normally].
  - destruct (f tt) as [[]|t] eqn:Ef.
    + unfold lift. rewrite Hentries. send. cbn. rewrite Htr.
      split; [reflexivity|]. split.
      * intros _. exists entries. split; [repeat split | exact Hall].
      * intros f' t' E. injection E as <-. rewrite Ef. discriminate.
    + rewrite respondToError_caught by unsent_now. cbn. rewrite Htr.
      split; [reflexivity|]. split.
      * intros E. discriminate E.
      * intros f' t' E. injection E as <-. rewrite Ef. intros E. injection E as <-.
        repeat split.
  - unfold lift. rewrite Hentries. send. cbn. split; [exact Htr|]. split.
    + intros _. exists entries. split; [repeat split | exact Hall].
    + intros f t E. discriminate E.
Qed.

Lemma tools_list_is_answered_witness :
  trace (Fixture.serve Fixture.observed (Fixture.post (Fixture.envelope 5 "tools/list" []))) =
    [ToolsListRequested] /\
  exists entries,
    responded_with
      (Fixture.serve Fixture.observed (Fixture.post (Fixture.envelope 5 "tools/list" [])))
      200
      (JsonBody (jsonResponse (IdNumber 5) (JObject [("tools", JArray entries)]))) /\
    map (fun entry => Js.get_member entry "name") entries =
      [Some (JString "echo"); Some (JString "explode")].
Proof.
  destruct (@tools_list_is_answered _ (Fixture.transport_of Fixture.observed)
              (server Fixture.observed)
              (Fixture.post (Fixture.envelope 5 "tools/list" [])) 0 [3%N; 5%N]
              (Fixture.parsed 5 "tools/list" None)) as (Htrace & Hanswer & _).
  - arrival.
  - reflexivity.
  - intros d [<-|[<-|[]]]; eexists; reflexivity.
  - split; [exact Htrace|].
    destruct (Hanswer eq_refl) as (entries & Hresponse & Hall).
    exists entries. split; [exact Hresponse|].
    inversion Hall as [|d1 e1 l1 l1' (Hn1 & _) Hrest]; subst.
    inversion Hrest as [|d2 e2 l2 l2' (Hn2 & _) Hrest']; subst.
    inversion Hrest'; subst. cbn [map]. rewrite Hn1, Hn2. reflexivity.
Defined.

(** ** [tools/call]: the hook called before the handler *)

(** X16.  When [onToolCallStarted] throws, the handler of the tool is not run and
    neither [onToolCallError] nor [onToolCallFinished] is called: the call
    to the hook is the only event, and the answer is the one of the [catch]
    clause of [handleHttpRequest] for what the hook threw. *)
Theorem failing_started_hook_skips_the_handler {zod : Zod.Rendering} this srv req t0 ts r p tool input f t :
  arrives this req (new_world t0 ts) r ->
  method r = "tools/call" ->
  Zod.CallToolParamsSchema (params r) = SafeParseSuccess p ->
  McpServer.getTool srv (name p) = Some tool ->
  safeParse (schema tool) (raw_input p) = SafeParseSuccess (Some input) ->
  hook this onToolCallStarted = Some f ->
  f (name p) (raw_input p) = Throw t ->
  let w' := snd (handleHttpRequest this srv req (new_world t0 ts)) in
  trace w' = [ToolCallStarted (name p) (raw_input p)] /\
  responded_with w' 200 (caught_response (id_or_null (id r)) t).
Proof.
  intros Ha Hm Hp Ht Hv Hf Hthrow.
  destruct (arrives_fresh srv Ha) as (w & Hu & Htr & _ & ->).
  cbv zeta. unfold try_catch. to_handleToolCall Hm.
  rewrite (handleToolCall_accepted this srv r w Hp Ht Hv).
  unfold bind. rewrite call_hook_run, Hf. cbn [option_map]. rewrite Hthrow.
  rewrite respondToError_caught by unsent_now. cbn. rewrite Htr.
  split; [reflexivity | repeat split].
Qed.

Lemma failing_started_hook_skips_the_handler_witness :
  trace (Fixture.serve started_fails (Fixture.post (Fixture.call 2 "echo" Fixture.hi))) =
    [ToolCallStarted "echo" (JObject Fixture.hi)] /\
  responded_with
    (Fixture.serve started_fails (Fixture.post (Fixture.call 2 "echo" Fixture.hi))) 200
    (JsonBody (errorResponse (IdNumber 2) ErrorCode.InternalError "Internal server error")).
Proof.
  refine (@failing_started_hook_skips_the_handler _
            (Fixture.transport_of started_fails) (server started_fails)
            (Fixture.post (Fixture.call 2 "echo" Fixture.hi)) 0 [3%N; 5%N]
            (Fixture.parsed_call 2 "echo" Fixture.hi)
            (Fixture.call_params "echo" Fixture.hi) Fixture.echo
            (JObject Fixture.hi) (fun _ _ => Fixture.failing_hook)
            (ThrownError PlainError "hook failed") _ _ _ _ _ _ _).
  - arrival.
  - reflexivity.
  - reflexivity.
  - reflexivity.
  - reflexivity.
  - reflexivity.
  - reflexivity.
Defined.

(* ================================================================== *)
(** * Before the dispatcher: preflight, path and verb *)

Lemma header_get_set_eq k v hs :
  map_get String.eqb k (set_header_in k v hs) = Some v.
Proof. apply path_get_set_eq. Qed.

Lemma header_get_set_neq k k' v hs :
  k <> k' -> map_get String.eqb k (set_header_in k' v hs) = map_get String.eqb k hs.
Proof. apply path_get_set_neq. Qed.

Lemma text_reply_respond status message w :
  text_reply status message (respond status "text/plain" (TextBody message) w).
Proof.
  split; [apply respond_responded|]. unfold response_header, respond. cbn [res headers].
  apply header_get_set_eq.
Qed.

(** X17.  An [OPTIONS] request that passes the CORS check is answered 204
    without a body, whatever its path and whatever its body, which is not
    read: the allowed methods are [POST, OPTIONS], the allowed headers are
    the requested ones (the three default ones when none is requested), and
    credentials are allowed exactly when the transport has an allow-list of
    origins.  No hook is called. *)
Theorem preflight_is_answered_204 {zod : Zod.Rendering} this srv req t0 ts :
  req_method req = "OPTIONS" ->
  fst (ensureCors this req (new_world t0 ts)) = Normal true ->
  let out := handleHttpRequest this srv req (new_world t0 ts) in
  fst out = Normal tt /\
  empty_reply (snd out) /\
  response_header "Access-Control-Allow-Methods" (snd out) = Some "POST, OPTIONS" /\
  response_header "Access-Control-Allow-Headers" (snd out) = Some (preflight_headers req) /\
  response_header "Access-Control-Allow-Credentials" (snd out) =
    match allowedOrigins this with
    | Wildcard => None
    | Origins _ => Some "true"
    end /\
  trace (snd out) = [].
Proof.
  intros Hm. cbv zeta.
  unfold handleHttpRequest, canHandle, sendPreflightResponse, ensureCors, bind.
  rewrite Hm. cbn [String.eqb Ascii.eqb Bool.eqb].
  destruct (allowedOrigins this) as [|allowed].
  - destruct (truthy_header (origin req)); intros _; repeat split.
  - destruct (truthy_header (origin req)) as [o|].
    + destruct (existsb (String.eqb o) allowed).
      * intros _; repeat split.
      * intros E. discriminate E.
    + intros _; repeat split.
Qed.

Lemma preflight_is_answered_204_witness :
  empty_reply
    (Fixture.serve Fixture.guarded
       (Fixture.request "OPTIONS" "/anywhere" (Some Fixture.good_origin)
          (BodyMalformed "Unexpected end of JSON input"))) /\
  response_header "Access-Control-Allow-Credentials"
    (Fixture.serve Fixture.guarded
       (Fixture.request "OPTIONS" "/anywhere" (Some Fixture.good_origin)
          (BodyMalformed "Unexpected end of JSON input"))) = Some "true".
Proof.
  destruct (@preflight_is_answered_204 _ (Fixture.transport_of Fixture.guarded)
              (server Fixture.guarded)
              (Fixture.request "OPTIONS" "/anywhere" (Some Fixture.good_origin)
                 (BodyMalformed "Unexpected end of JSON input"))
              0 [3%N; 5%N] eq_refl eq_refl) as (_ & Hempty & _ & _ & Hcred & _).
  split; [exact Hempty | exact Hcred].
Defined.

Lemma canHandle_refuses this req w :
  unsent w ->
  req_method req <> "OPTIONS" ->
  (read (Options.path (options this)) <> Some (requestPath req) ->
   canHandle this req w =
     (Normal false, respond 404 "text/plain" (TextBody "Not found") w)) /\
  (read (Options.path (options this)) = Some (requestPath req) ->
   req_method req <> "POST" ->
   canHandle this req w =
     (Normal false,
      respond 405 "text/plain" (TextBody "Method not allowed")
        (put_header "Allow" "POST, OPTIONS" w))).
Proof.
  intros Hw Hopt. unfold canHandle.
  destruct (String.eqb (req_method req) "OPTIONS") eqn:Eo.
  { apply String.eqb_eq in Eo. contradiction. }
  split.
  - intros Hp.
    assert (Hne : match read (Options.path (options this)) with
                  | Some p => String.eqb (requestPath req) p
                  | None => false
                  end = false).
    { destruct (read (Options.path (options this))) as [p|]; [|reflexivity].
      destruct (String.eqb (requestPath req) p) eqn:Ep; [|reflexivity].
      apply String.eqb_eq in Ep. subst p. contradiction. }
    rewrite Hne. cbn [negb]. unfold bind, ret. send. reflexivity.
  - intros Hp Hpost. rewrite Hp, String.eqb_refl. cbn [negb].
    destruct (String.eqb (req_method req) "POST") eqn:Ep.
    { apply String.eqb_eq in Ep. contradiction. }
    cbn [negb]. unfold bind, ret. send. send. reflexivity.
Qed.

(** X18.  A request that passes the CORS check and is not a preflight is
    answered 404 [Not found] when its path is not the MCP path, whatever
    its method and body; on the MCP path, a method other than [POST] is
    answered 405 [Method not allowed] with the header [Allow: POST,
    OPTIONS].  In both cases the body is not read and no hook is called. *)
Theorem requests_off_the_endpoint_are_refused {zod : Zod.Rendering} this srv req t0 ts :
  fst (ensureCors this req (new_world t0 ts)) = Normal true ->
  req_method req <> "OPTIONS" ->
  let out := handleHttpRequest this srv req (new_world t0 ts) in
  (read (Options.path (options this)) <> Some (requestPath req) ->
   fst out = Normal tt /\ text_reply 404 "Not found" (snd out) /\ trace (snd out) = []) /\
  (read (Options.path (options this)) = Some (requestPath req) ->
   req_method req <> "POST" ->
   fst out = Normal tt /\ text_reply 405 "Method not allowed" (snd out) /\
   response_header "Allow" (snd out) = Some "POST, OPTIONS" /\
   trace (snd out) = []).
Proof.
  intros Hc Hopt. cbv zeta.
  destruct (ensureCors this req (new_world t0 ts)) as [c w1] eqn:E. cbn in Hc. subst c.
  pose proof (@ensureCors_passes this req (new_world t0 ts) w1 eq_refl E) as Hs.
  assert (Hu : unsent w1) by (eapply same_but_headers_unsent; [eassumption|reflexivity]).
  destruct Hs as (_ & _ & Htr & _). cbn in Htr.
  destruct (@canHandle_refuses this req w1 Hu Hopt) as [H404 H405].
  unfold handleHttpRequest, bind. rewrite E. cbn [negb].
  split.
  - intros Hp. rewrite (H404 Hp). cbn [negb ret fst snd].
    split; [reflexivity|]. split; [apply text_reply_respond | exact Htr].
  - intros Hp Hpost. rewrite (H405 Hp Hpost). cbn [negb ret fst snd].
    split; [reflexivity|]. split; [apply text_reply_respond|]. split; [|exact Htr].
    unfold response_header, respond, put_header. cbn [res headers].
    rewrite header_get_set_neq by discriminate. apply header_get_set_eq.
Qed.

Lemma requests_off_the_endpoint_are_refused_witness :
  text_reply 405 "Method not allowed"
    (Fixture.serve Fixture.plain (Fixture.request "GET" "/mcp" None (BodyParsed Fixture.ping))) /\
  response_header "Allow"
    (Fixture.serve Fixture.plain
       (Fixture.request "GET" "/mcp" None (BodyParsed Fixture.ping))) =
    Some "POST, OPTIONS".
Proof.
  destruct (proj2 (@requests_off_the_endpoint_are_refused _
                     (Fixture.transport_of Fixture.plain) (server Fixture.plain)
                     (Fixture.request "GET" "/mcp" None (BodyParsed Fixture.ping))
                     0 [3%N; 5%N] eq_refl ltac:(discriminate)) eq_refl ltac:(discriminate))
    as (_ & Hreply & Hallow & _).
  split; [exact Hreply | exact Hallow].
Defined.

(** ** The query string *)

Lemma before_char_app c u q :
  Js.before_char c (Js.before_char c u ++ String c q) = Js.before_char c u.
Proof.
  induction u as [|a u IH]; cbn.
  - rewrite Ascii.eqb_refl. reflexivity.
  - destruct (Ascii.eqb a c) eqn:E; cbn.
    + rewrite Ascii.eqb_refl. reflexivity.
    + rewrite E, IH. reflexivity.
Qed.

Lemma handleHttpRequest_same_path {zod : Zod.Rendering} this srv req u u' w :
  requestPath (with_url u req) = requestPath (with_url u' req) ->
  handleHttpRequest this srv (with_url u req) w =
  handleHttpRequest this srv (with_url u' req) w.
Proof.
  intros Hp. unfold handleHttpRequest, canHandle. rewrite Hp. reflexivity.
Qed.

(** X19.  Only the part of the URL before the first [?] takes part in handling a
    request: replacing what follows it by any other query gives the same
    outcome and the same response; and a request without a URL is handled
    like one with the empty URL. *)
Theorem query_string_is_ignored {zod : Zod.Rendering} this srv req u q w :
  handleHttpRequest this srv (with_url (Some (Js.before_char "?" u ++ "?" ++ q)) req) w =
  handleHttpRequest this srv (with_url (Some u) req) w /\
  handleHttpRequest this srv (with_url None req) w =
  handleHttpRequest this srv (with_url (Some "") req) w.
Proof.
  split; apply handleHttpRequest_same_path; [|reflexivity].
  unfold requestPath, with_url. cbn [url]. apply before_char_app.
Qed.

(* ================================================================== *)
(** * The origin policy that the constructor sets up *)

Lemma wildcard_of_the_constructor config :
  configured_origins config = None \/ configured_origins config = Some Wildcard ->
  allowedOrigins (new_HttpTransport config) = Wildcard.
Proof.
  unfold configured_origins, new_HttpTransport, normalizeAllowedOrigins.
  destruct config as [c|]; cbn; [|reflexivity].
  destruct (Options.allowedOrigins c) as [|value]; cbn; [reflexivity|].
  intros [-> | ->]; reflexivity.
Qed.

(** X20.  A transport constructed without [allowedOrigins], or with ['*'],
    rejects no origin: the CORS check passes and writes nothing but
    headers; [Access-Control-Expose-Headers] is always set and
    [Access-Control-Allow-Credentials] never; a non-empty [Origin] is
    answered with [Access-Control-Allow-Origin: *] and [Vary: Origin], and
    without one neither header is set.  A transport constructed with a list
    of origins keeps that list, also when it is empty. *)
Theorem origin_policy_of_the_constructor config req t0 ts :
  (configured_origins config = None \/ configured_origins config = Some Wildcard ->
   let out := ensureCors (new_HttpTransport config) req (new_world t0 ts) in
   fst out = Normal true /\
   same_but_headers (new_world t0 ts) (snd out) /\
   response_header "Access-Control-Expose-Headers" (snd out) = Some "Mcp-Session-Id" /\
   response_header "Access-Control-Allow-Credentials" (snd out) = None /\
   (forall o, origin req = Some o -> o <> "" ->
      response_header "Access-Control-Allow-Origin" (snd out) = Some "*" /\
      response_header "Vary" (snd out) = Some "Origin") /\
   (origin req = None \/ origin req = Some "" ->
      response_header "Access-Control-Allow-Origin" (snd out) = None /\
      response_header "Vary" (snd out) = None)) /\
  (forall allowed,
      configured_origins config = Some (Origins allowed) ->
      allowedOrigins (new_HttpTransport config) = Origins allowed).
Proof.
  split.
  - intros Hc. apply wildcard_of_the_constructor in Hc. cbv zeta.
    unfold ensureCors. rewrite Hc.
    destruct (truthy_header (origin req)) as [o|] eqn:Eo.
    + split; [reflexivity|]. split; [repeat split|]. split; [reflexivity|].
      split; [reflexivity|]. split; [intros; split; reflexivity|].
      intros H. apply truthy_header_none in H. congruence.
    + split; [reflexivity|]. split; [repeat split|]. split; [reflexivity|].
      split; [reflexivity|]. split; [|intros; split; reflexivity].
      intros o Ho Hne.
      assert (H : truthy_header (origin req) = Some o)
        by (apply truthy_header_some; split; assumption).
      congruence.
  - intros allowed. unfold configured_origins, new_HttpTransport, normalizeAllowedOrigins.
    destruct config as [c|]; cbn; [|discriminate].
    destruct (Options.allowedOrigins c) as [|value]; cbn; [discriminate|].
    intros ->. reflexivity.
Qed.

Lemma origin_policy_of_the_constructor_witness :
  response_header "Access-Control-Allow-Origin"
    (snd (ensureCors (new_HttpTransport None)
            (Fixture.request "POST" "/mcp" (Some "https://any.example")
               (BodyParsed Fixture.ping))
            Fixture.fresh)) = Some "*".
Proof.
  destruct (proj1 (@origin_policy_of_the_constructor None
                     (Fixture.request "POST" "/mcp" (Some "https://any.example")
                        (BodyParsed Fixture.ping))
                     0 [3%N; 5%N]) (or_introl eq_refl))
    as (_ & _ & _ & _ & Hset & _).
  exact (proj1 (Hset "https://any.example" eq_refl ltac:(discriminate))).
Defined.

(* ================================================================== *)
(** * The hooks given to [start] *)





Lemma start_state a opts :
  snd (start opts a) = a \/
  exists t, snd (start opts a) =
            {| server := set_transport t (server a); notified := notified a |}.
Proof.
  rewrite start_run.
  destruct (McpServer.transport (server a)); [left; reflexivity|].
  destruct (map_has String.eqb _ _); [left; reflexivity|].
  destruct (merge_routes _ _ _); [right; eexists; reflexivity | left; reflexivity].
Qed.

Lemma tool_whatever_the_transport d t a :
  let a' := {| server := set_transport t (server a); notified := notified a |} in
  fst (tool d a') = fst (tool d a) /\
  notified (snd (tool d a')) = notified (snd (tool d a)) /\
  McpServer._tools (server (snd (tool d a'))) = McpServer._tools (server (snd (tool d a))).
Proof.
  cbv zeta.
  destruct (McpServer.hasTool (server a) (tool_name d)) eqn:E.
  - rewrite (tool_run_taken a d E), tool_run_taken by exact E. repeat split.
  - rewrite (tool_run_fresh a d E), tool_run_fresh by exact E. repeat split.
Qed.

(** X9.  Registering a tool does the same before and after [start], whatever
    [start] was given and whether or not it threw: the same outcome, the
    same calls of [onToolRegistered] and the same registry.  So the
    [onToolRegistered] among the hooks given to [start] is never called; only
    the one given to the constructor of the server is. *)
Theorem start_hooks_do_not_reach_tool a opts d :
  fst (tool d (snd (start opts a))) = fst (tool d a) /\
  notified (snd (tool d (snd (start opts a)))) = notified (snd (tool d a)) /\
  McpServer._tools (server (snd (tool d (snd (start opts a))))) =
    McpServer._tools (server (snd (tool d a))).
Proof.
  destruct (start_state a opts) as [-> | [t ->]]; [repeat split|].
  apply tool_whatever_the_transport.
Qed.

(* ================================================================== *)
(** * Every request is dealt with *)

Lemma json_reply_respond j w : json_reply (respond 200 "application/json" (JsonBody j) w).
Proof.
  split; [reflexivity|]. split; [reflexivity|]. split; [|exists j; reflexivity].
  unfold response_header, respond. cbn [res headers]. apply header_get_set_eq.
Qed.

Section Settled.
Context {zod : Zod.Rendering}.
Variables (this : HttpTransport) (srv : McpServer.t) (r : JsonRpcRequest).

Lemma settle_error rid code message :
  triple idle (sendJsonRpcProtocolError rid code message)
    (fun _ => settled srv r) (fun _ => idle).
Proof. intros w [Hw _]. send. left. apply json_reply_respond. Qed.

Lemma settle_result rid response :
  triple idle (sendJsonRpcResponse rid response) (fun _ => settled srv r) (fun _ => idle).
Proof. intros w [Hw _]. send. left. apply json_reply_respond. Qed.

Lemma settle_handleInitialize :
  triple idle (handleInitialize this srv r) (fun _ => settled srv r) (fun _ => idle).
Proof.
  unfold handleInitialize.
  destruct (Zod.InitializeParamsSchema (params r)) as [data|e].
  - eapply triple_bind with (Q' := fun _ => idle); [apply triple_call_hook|].
    intros _. apply settle_result.
  - apply settle_error.
Qed.

Lemma settle_handleToolsList :
  triple idle (handleToolsList this srv r) (fun _ => settled srv r) (fun _ => idle).
Proof.
  unfold handleToolsList.
  eapply triple_bind with (Q' := fun _ => idle); [apply triple_call_hook|].
  intros _. eapply triple_bind with (Q' := fun _ => idle); [apply triple_lift|].
  intros defs. apply settle_result.
Qed.

Lemma settle_handleToolCall :
  method r = "tools/call" ->
  triple idle (handleToolCall this srv r) (fun _ => settled srv r) (fun _ => idle).
Proof.
  intros Hm. unfold handleToolCall, parseToolCallParams.
  destruct (Zod.CallToolParamsSchema (params r)) as [p|e] eqn:Ep.
  2:{ eapply triple_bind with (Q' := fun p w => p = None /\ settled srv r w).
      - eapply triple_bind with (Q' := fun _ => settled srv r); [apply settle_error|].
        intros _. apply triple_ret. intros w Hw. split; [reflexivity | exact Hw].
      - intros p. apply triple_weaken with
          (P' := fun w => p = None /\ settled srv r w)
          (Q' := fun _ => settled srv r) (E' := fun _ => idle); auto.
        intros w [-> Hw]. exact Hw. }
  apply triple_bind_ret. cbv beta iota zeta.
  destruct (McpServer.getTool srv (name p)) as [tool|] eqn:Et; [|apply settle_error].
  eapply triple_bind with (Q' := fun _ => idle).
  { eapply triple_weaken; [apply triple_performance_now| | |]; auto. never_thrown. }
  intros start.
  eapply triple_bind with
    (Q' := fun parsed w => match parsed with Some _ => idle w | None => settled srv r w end).
  - unfold validateToolInput.
    destruct (safeParse (schema tool)
                match arguments p with Some a => a | None => JObject [] end)
      as [[input|]|e] eqn:Ev.
    + apply triple_ret. auto.
    + apply triple_ret. intros w Hw. right. split; [exact Hm|]. split; [|exact Hw].
      exists p, tool. repeat split; assumption.
    + eapply triple_bind with (Q' := fun _ => idle); [apply triple_recordToolError|].
      intros _. eapply triple_bind with (Q' := fun _ => settled srv r);
        [apply settle_error|].
      intros _. apply triple_ret. auto.
  - intros [input|]; [|apply triple_ret; auto].
    eapply triple_bind with (Q' := fun _ => idle); [apply triple_call_hook|].
    intros _. eapply triple_try_catch with (E' := fun _ => idle).
    + eapply triple_bind with (Q' := fun _ => idle).
      { eapply triple_weaken; [apply triple_emit| | |]; auto. never_thrown. }
      intros _. eapply triple_bind with (Q' := fun _ => idle); [apply triple_lift|].
      intros result. eapply triple_bind with (Q' := fun _ => idle);
        [apply triple_recordToolSuccess|].
      intros _. apply settle_result.
    + intros t. eapply triple_bind with (Q' := fun _ => idle);
        [apply triple_recordToolError|].
      intros _. apply settle_error.
Qed.

Lemma settle_dispatch rid :
  triple idle (dispatch this srv r rid) (fun _ => settled srv r) (fun _ => idle).
Proof.
  unfold dispatch.
  destruct (String.eqb (method r) "initialize"); [apply settle_handleInitialize|].
  destruct (String.eqb (method r) "tools/list"); [apply settle_handleToolsList|].
  destruct (String.eqb (method r) "tools/call") eqn:E.
  { apply settle_handleToolCall, String.eqb_eq, E. }
  destruct (String.eqb (method r) "ping"); [apply settle_result | apply settle_error].
Qed.

Lemma settle_try rid w :
  idle w ->
  exists w',
    try_catch (dispatch this srv r rid) (respondToError rid) w = (Normal tt, w') /\
    settled srv r w'.
Proof.
  intros Hw. pose proof (settle_dispatch rid Hw) as H. unfold try_catch.
  destruct (dispatch this srv r rid w) as [[[]|t] w1].
  - exists w1. split; [reflexivity | exact H].
  - destruct H as [Hu _]. rewrite respondToError_caught by exact Hu.
    eexists. split; [reflexivity|]. left. apply json_reply_respond.
Qed.

End Settled.

Lemma tryDispatch_settles {zod : Zod.Rendering} this srv req w :
  idle w ->
  exists w',
    tryDispatch this srv req w = (Normal tt, w') /\
    (json_reply w' \/
     exists j r,
       req_body req = BodyParsed j /\ Zod.JsonRpcRequestSchema j = SafeParseSuccess r /\
       method r = "tools/call" /\ validates_to_undefined srv r /\ idle w').
Proof.
  intros Hw. destruct (req_body req) as [e|message|j] eqn:Hb.
  - unfold tryDispatch, with_local, try_catch, bind, outside, readRequestBody,
      set_local, get_local, gets, modify, ret, throw.
    rewrite Hb. cbn [fst snd]. rewrite respondToError_caught by apply Hw.
    eexists. split; [reflexivity|]. left. apply json_reply_respond.
  - rewrite (tryDispatch_malformed this srv req Hb (proj1 Hw)).
    eexists. split; [reflexivity|]. left. apply json_reply_respond.
  - destruct (Zod.JsonRpcRequestSchema j) as [r|e] eqn:Hj.
    + rewrite (tryDispatch_parsed this srv req w Hb Hj).
      destruct (settle_try this srv r (id_or_null (id r)) Hw) as (w' & -> & Hs).
      exists w'. split; [reflexivity|].
      destruct Hs as [Hs | (Hm & Hv & Hi)]; [left; exact Hs|].
      right. exists j, r. repeat split; try assumption; apply Hi.
    + rewrite (tryDispatch_misshapen this srv req Hb Hj (proj1 Hw)).
      eexists. split; [reflexivity|]. left. apply json_reply_respond.
Qed.

Lemma ensureCors_decides this req w :
  unsent w ->
  (exists w1, ensureCors this req w = (Normal true, w1) /\ same_but_headers w w1) \/
  ensureCors this req w =
    (Normal false, respond 403 "text/plain" (TextBody "Forbidden origin") w).
Proof.
  intros Hw. destruct (ensureCors this req w) as [[[|]|t] w1] eqn:E.
  - left. exists w1. split; [reflexivity|]. eapply ensureCors_passes; eassumption.
  - right. revert E. unfold ensureCors.
    destruct (allowedOrigins this) as [|allowed].
    + destruct (truthy_header (origin req)); unfold bind, ret; repeat send;
        intros E; discriminate E.
    + destruct (truthy_header (origin req)) as [o|]; [|intros E; discriminate E].
      destruct (existsb (String.eqb o) allowed); unfold bind, ret; repeat send;
        intros E; [discriminate E|]. injection E as <-. reflexivity.
  - exfalso. revert E. unfold ensureCors.
    destruct (allowedOrigins this) as [|allowed].
    + destruct (truthy_header (origin req)); unfold bind, ret; repeat send;
        intros E; discriminate E.
    + destruct (truthy_header (origin req)) as [o|]; [|intros E; discriminate E].
      destruct (existsb (String.eqb o) allowed); unfold bind, ret; repeat send;
        intros E; discriminate E.
Qed.

Lemma sendPreflightResponse_unsent this req w :
  unsent w ->
  exists w', sendPreflightResponse this req w = (Normal tt, w') /\
             empty_reply w' /\ trace w' = trace w.
Proof.
  intros Hw. unfold sendPreflightResponse, bind.
  destruct (allowedOrigins this); repeat send; unfold ret, writeHead, end_response,
    bind, gets, modify; cbn; unfold unsent in Hw; rewrite Hw; cbn;
    eexists; (split; [reflexivity|]);
    unfold empty_reply, with_res, put_header; cbn; rewrite Hw; repeat split.
Qed.

(** X21.  Handling a request on a fresh response never throws, whatever the
    request is, whatever the hooks do and whether the handler returns tool
    content or throws; and it ends in one of six ways: 403 for a refused
    origin, 204 for a preflight, 404 off the MCP path, 405 for another
    verb, a JSON body under status 200 for everything that reaches the
    dispatcher (every error of the protocol included), or, when the schema
    of the called tool validates to [undefined], no response at all. *)
Theorem every_request_is_dealt_with {zod : Zod.Rendering} this srv req t0 ts :
  let out := handleHttpRequest this srv req (new_world t0 ts) in
  fst out = Normal tt /\
  (text_reply 403 "Forbidden origin" (snd out) \/
   empty_reply (snd out) \/
   text_reply 404 "Not found" (snd out) \/
   text_reply 405 "Method not allowed" (snd out) \/
   json_reply (snd out) \/
   (idle (snd out) /\
    exists j r,
      req_body req = BodyParsed j /\ Zod.JsonRpcRequestSchema j = SafeParseSuccess r /\
      method r = "tools/call" /\ validates_to_undefined srv r)).
Proof.
  cbv zeta. unfold handleHttpRequest, bind.
  destruct (@ensureCors_decides this req (new_world t0 ts) eq_refl)
    as [(w1 & -> & Hs) | ->]; cbn [negb ret fst snd].
  2:{ split; [reflexivity|]. left. apply text_reply_respond. }
  assert (Hu : unsent w1) by (eapply same_but_headers_unsent; [eassumption|reflexivity]).
  assert (Hi : idle w1).
  { destruct Hs as (_ & _ & _ & _ & Hb & Hf). split; [exact Hf | exact Hb]. }
  destruct (String.eqb (req_method req) "OPTIONS") eqn:Eo.
  { unfold canHandle. rewrite Eo. unfold bind.
    destruct (@sendPreflightResponse_unsent this req w1 Hu) as (w2 & -> & He & _).
    cbn [negb ret fst snd]. split; [reflexivity|]. right. left. exact He. }
  apply String.eqb_neq in Eo.
  destruct (@canHandle_refuses this req w1 Hu Eo) as [H404 H405].
  destruct (read (Options.path (options this))) as [p|] eqn:Ep.
  2:{ rewrite H404 by discriminate. cbn [negb ret fst snd].
      split; [reflexivity|]. right. right. left. apply text_reply_respond. }
  destruct (String.eqb (requestPath req) p) eqn:Epath.
  2:{ apply String.eqb_neq in Epath. rewrite H404 by congruence.
      cbn [negb ret fst snd].
      split; [reflexivity|]. right. right. left. apply text_reply_respond. }
  apply String.eqb_eq in Epath. subst p.
  destruct (String.eqb (req_method req) "POST") eqn:Epost.
  2:{ apply String.eqb_neq in Epost. rewrite (H405 eq_refl Epost).
      cbn [negb ret fst snd].
      split; [reflexivity|]. right. right. right. left. apply text_reply_respond. }
  apply String.eqb_eq in Epost.
  rewrite (@canHandle_post this req w1 Epost Ep). cbn [negb].
  destruct (@tryDispatch_settles _ this srv req w1 Hi) as (w2 & -> & Hend).
  cbn [fst snd]. split; [reflexivity|]. right. right. right. right.
  destruct Hend as [Hj | (j & r & Hb & Hj & Hm & Hv & Hidle)]; [left; exact Hj|].
  right. split; [exact Hidle|]. exists j, r. repeat split; assumption.
Qed.

(* ================================================================== *)
(** * Routes and the transport *)

Lemma HttpMethod_text_not_OPTIONS m : HttpMethod_text m <> "OPTIONS".
Proof. destruct m; discriminate. Qed.

(** X22.  Whatever routes a started server holds, from [route] or from the
    options of [start]: a request for one of them, by its path and its
    method, that passes the CORS check is answered 404 [Not found] by the
    transport, and nothing is called. *)
Theorem registered_routes_are_never_served {zod : Zod.Rendering} a opts srv tr merged req m h t0 ts :
  fst (start opts a) = Normal tt ->
  McpServer.transport (server (snd (start opts a))) = Some tr ->
  read (Options.customRoutes (options tr)) = Some merged ->
  route_lookup merged (requestPath req) m = Some h ->
  req_method req = HttpMethod_text m ->
  fst (ensureCors tr req (new_world t0 ts)) = Normal true ->
  let out := handleHttpRequest tr srv req (new_world t0 ts) in
  fst out = Normal tt /\ text_reply 404 "Not found" (snd out) /\ trace (snd out) = [].
Proof.
  intros Hok Htr Hroutes Hroute Hm Hc.
  destruct (start_returns a opts Hok) as (merged0 & _ & Hfree & Em & Hstate).
  rewrite Hstate in Htr. cbn [server set_transport McpServer.transport] in Htr.
  injection Htr as <-. rewrite started_transport_routes in Hroutes.
  injection Hroutes as <-.
  assert (Hpath : read (Options.path
                          (options (started_transport (McpServer.hooks (server a))
                                      opts merged0))) <>
                  Some (requestPath req)).
  { intros E. apply started_transport_path_checked in E.
    destruct (merge_routes_spec _ _ _ Em) as (_ & _ & _ & Hmcp).
    rewrite Hfree in Hmcp. rewrite <- E in Hmcp.
    rewrite (route_lookup_absent _ _ m Hmcp) in Hroute. discriminate Hroute. }
  assert (Hopt : req_method req <> "OPTIONS")
    by (rewrite Hm; apply HttpMethod_text_not_OPTIONS).
  cbv zeta.
  destruct (ensureCors _ req (new_world t0 ts)) as [c w1] eqn:E. cbn in Hc. subst c.
  pose proof (ensureCors_passes _ _ (eq_refl : unsent (new_world t0 ts)) E) as Hs.
  assert (Hu : unsent w1) by (eapply same_but_headers_unsent; [eassumption|reflexivity]).
  destruct Hs as (_ & _ & Htrace & _). cbn in Htrace.
  unfold handleHttpRequest, bind. rewrite E. cbn [negb].
  rewrite (proj1 (canHandle_refuses _ _ Hu Hopt) Hpath). cbn [negb ret fst snd].
  split; [reflexivity|]. split; [apply text_reply_respond | exact Htrace].
Qed.

Lemma registered_routes_are_never_served_witness :
  text_reply 404 "Not found"
    (Fixture.serve Fixture.plain
       (Fixture.request "GET" "/health?probe=1" None (BodyParsed JNull))) /\
  trace (Fixture.serve Fixture.plain
           (Fixture.request "GET" "/health?probe=1" None (BodyParsed JNull))) = [].
Proof.
  refine (proj2 (@registered_routes_are_never_served _
                   (Fixture.registered None)
                   (Some (Fixture.options_with None))
                   (server Fixture.plain) (Fixture.transport_of Fixture.plain)
                   [("/health", [(GET, Fixture.health)])]
                   (Fixture.request "GET" "/health?probe=1" None (BodyParsed JNull))
                   GET Fixture.health 0 [3%N; 5%N] _ _ _ _ _ _)).
  - reflexivity.
  - reflexivity.
  - reflexivity.
  - reflexivity.
  - reflexivity.
  - reflexivity.
Defined.

(* ================================================================== *)
(** * What the schema adapter returns *)

(** X23.  When the converter produces an object, the schema adapter either
    returns an object or an array (never a primitive, and never [null]), or
    it throws a [TypeError]; it throws only when the document has both a
    [$ref] and [definitions] and the [$ref] is not a string. *)
Theorem schema_adapter_outcomes toolName sch fields :
  zodToJsonSchema sch toolName = JObject fields ->
  (forall s, zodSchemaToToolSchema toolName sch = Normal s -> is_container s = true) /\
  (forall t, zodSchemaToToolSchema toolName sch = Throw t ->
     (exists message, t = ThrownError TypeError message) /\
     (exists v, Js.lookup "$ref" fields = Some v /\ forall ref, v <> JString ref) /\
     Js.lookup "definitions" fields <> None).
Proof.
  intros Hdoc. unfold zodSchemaToToolSchema. rewrite Hdoc. unfold normalizeSchema.
  destruct (Js.lookup "$ref" fields) as [v|] eqn:Hr.
  2:{ split; [intros s E; injection E as <-; reflexivity | intros t E; discriminate E]. }
  destruct (Js.lookup "definitions" fields) as [definitions|] eqn:Hd.
  2:{ split; [intros s E; injection E as <-; reflexivity | intros t E; discriminate E]. }
  destruct v as [| b | n | ref | l | f];
    try (split; [intros s E; discriminate E|];
         intros t E; injection E as <-;
         split; [eexists; reflexivity|];
         split; [eexists; split; [reflexivity | intros ref; discriminate] | discriminate]).
  destruct (Js.optional_member definitions (Js.replace_first "#/definitions/" ref))
    as [d|].
  2:{ split; [intros s E; injection E as <-; reflexivity | intros t E; discriminate E]. }
  rewrite is_container_spec. destruct (is_container d) eqn:Hc.
  - split; [intros s E; injection E as <-; exact Hc | intros t E; discriminate E].
  - split; [intros s E; injection E as <-; reflexivity | intros t E; discriminate E].
Qed.

Lemma schema_adapter_outcomes_witness :
  is_container
    (Data
       (JObject
          [("type", JString "object");
           ("properties", JObject [("text", JObject [("type", JString "string")])]);
           ("required", JArray [JString "text"])])) = true.
Proof.
  exact (proj1 (@schema_adapter_outcomes "echo" Fixture.textSchema _ eq_refl) _ eq_refl).
Defined.

(* ================================================================== *)
(** * The life cycle on the example server *)

Lemma route_registers_under_normalized_path_witness :
  fst (route GET "health" Fixture.health (new_app (McpServer.new None None None))) =
    Normal tt /\
  route_lookup
    (McpServer._endpoints
       (server (snd (route GET "health" Fixture.health
                       (new_app (McpServer.new None None None))))))
    "/health" GET = Some Fixture.health.
Proof.
  destruct (proj2 (@route_registers_under_normalized_path
                     (new_app (McpServer.new None None None)) GET "health" Fixture.health)
              eq_refl) as (Hreturns & Hfound & _).
  split; [exact Hreturns | exact Hfound].
Defined.

Lemma start_refuses_conflicts_witness :
  start None Fixture.plain = (Throw (error "Server is already started"), Fixture.plain).
Proof.
  apply (proj1 (@start_refuses_conflicts Fixture.plain None)). discriminate.
Defined.

Lemma start_merges_routes_witness :
  exists tr merged,
    McpServer.transport
      (server (snd (start (Some pathless) (Fixture.registered None)))) = Some tr /\
    read (Options.customRoutes (options tr)) = Some merged /\
    read (Options.path (options tr)) = None /\
    route_lookup merged "/health" GET = Some Fixture.health /\
    route_lookup merged "/mcp" POST = None.
Proof.
  destruct (@start_merges_routes (Fixture.registered None) (Some pathless) eq_refl)
    as (tr & merged & Htr & Hroutes & Hpath & Hkept & _ & _ & Hfree & _).
  exists tr, merged. split; [exact Htr|]. split; [exact Hroutes|].
  split; [exact Hpath|]. split; [apply Hkept; reflexivity | apply (Hfree POST)].
Defined.

Lemma stop_undoes_start_witness :
  stop (Normal tt) Fixture.plain = (Normal tt, Fixture.registered None).
Proof.
  exact (proj2 (proj2 (@stop_undoes_start (Fixture.registered None)
                         (Some (Fixture.options_with None))
                         (Normal tt))) eq_refl eq_refl).
Defined.

Lemma failed_listen_leaves_server_started_witness :
  fst (start_and_listen (Throw (error "listen EADDRINUSE")) None (Fixture.registered None)) =
    Throw (error "listen EADDRINUSE") /\
  McpServer.transport
    (server (snd (start_and_listen (Throw (error "listen EADDRINUSE")) None
                    (Fixture.registered None)))) <> None.
Proof.
  destruct (@failed_listen_leaves_server_started (Fixture.registered None) None
              (error "listen EADDRINUSE") eq_refl) as (Hthrown & Hstarted & _).
  split; [exact Hthrown | exact Hstarted].
Defined.

Lemma tools_are_listed_in_registration_order_witness :
  McpServer.getTools
    (server (register_all [Fixture.echo; Fixture.explode]
               (new_app (McpServer.new None None None)))) =
    [Fixture.echo; Fixture.explode].
Proof.
  refine (proj1 (@tools_are_listed_in_registration_order [Fixture.echo; Fixture.explode]
                   (new_app (McpServer.new None None None)) _ _)).
  - repeat constructor; cbn; intuition discriminate.
  - intros d _. reflexivity.
Defined.
